(** * The cache-aside layer of the movie recommender

    A shallow embedding of [redis_movie_integration_complete.py]: the Redis
    cache (strings and hashes with expiry), the Neo4j gateway, and the
    functions that read through and write behind them.

    Effects are explicit.  A run threads a [world] (Redis, the graph, the
    console input still to be read, and a chronological trace of every
    query, command and printed line) and ends normally or with a Python
    exception. *)

From stdpp Require Import gmap strings list fin_maps pretty.
From Stdlib Require Import Ascii ZArith QArith.

Open Scope Z_scope.

(** ** Python values *)

(** Exceptions the modelled code can meet. *)
Inductive pyexn :=
| ValueError      (* int() / float() of text that does not parse *)
| EOFError        (* input() with nothing left to read *)
| WrongType       (* Redis: command against a key of another type *)
| DataError       (* redis-py: hset without any field *)
| ResponseError   (* Redis: rejected command, e.g. non-positive expiry *)
| Neo4jError.     (* neo4j: the driver could not run a statement *)

Inductive outcome (A : Type) :=
| Ok (a : A)
| Raise (e : pyexn).
Arguments Ok {A} a.
Arguments Raise {A} e.

(** Floating point is not modelled: the program never does arithmetic on a
    float itself (averages are computed inside Neo4j).  It parses, compares
    against the two literals [0.5] and [5.0], prints, and stores floats, so
    those operations are the interface. *)
Class PyFloat := {
  pyfloat : Type;
  float_le : pyfloat → pyfloat → bool;      (* a <= b *)
  lit_0_5 : pyfloat;                        (* 0.5 *)
  lit_5_0 : pyfloat;                        (* 5.0 *)
  py_float : string → option pyfloat;       (* float(s); None is ValueError *)
  float_repr : pyfloat → string;            (* repr(x): how redis-py encodes a float *)
  float_fmt : nat → pyfloat → string        (* format(x, ".nf") *)
}.

(** The other builtins applied to console text. *)
Class PyStr := {
  py_int : string → option Z;               (* int(s); None is ValueError *)
  str_strip : string → string               (* s.strip() *)
}.

Definition nl : string := String "010"%char EmptyString.
Definition dq : string := String "034"%char EmptyString.

(** Python's truth value of a string, and of an optional string. *)
Definition str_truthy (s : string) : bool :=
  match s with EmptyString => false | _ => true end.

Definition opt_truthy (o : option string) : bool :=
  match o with Some s => str_truthy s | None => false end.

(** [k in d] for a dict. *)
Definition dict_contains {V} (d : gmap string V) (k : string) : bool :=
  match d !! k with Some _ => true | None => false end.

Section Rows.
Context `{PyFloat}.

(** A recommendation dict: [{"movie_id", "predicted_rating"}], to which
    [display_top_5_recommendations] adds ["title"]. *)
Record rec := Rec {
  rec_movie_id : Z;
  rec_predicted_rating : pyfloat;
  rec_title : option string
}.

(** A rated-movie dict of [get_user_rated_movies]. *)
Record rated := Rated {
  rated_movie_id : string;
  rated_title : option string;
  rated_rating : pyfloat
}.

(** A row of the rated-movies query before [str()] is applied to its id. *)
Record rated_row := RatedRow {
  row_movie_id : Z;
  row_title : option string;
  row_rating : pyfloat
}.

End Rows.

(** [json.dumps] / [json.loads] at the two shapes the program serialises.
    [json_loads_recs] is [None] on [JSONDecodeError]. *)
Class PyJson `{PyFloat} := {
  json_dumps_recs : list rec → string;
  json_loads_recs : string → option (list rec);
  json_dumps_rated : list rated → string
}.

(** ** Redis *)

Inductive rvalue :=
| RString (s : string)
| RHash (h : gmap string string).

(** A key holds a value and, when volatile, the instant at which it dies. *)
Record rentry := REntry {
  rv : rvalue;
  deadline : option Z
}.

Record redis := Redis {
  clock : Z;
  keyspace : gmap string rentry
}.

Definition expired (now : Z) (e : rentry) : bool :=
  match deadline e with
  | Some t => t <=? now
  | None => false
  end.

(** What a command sees under key [k]: an expired entry is already gone. *)
Definition live (r : redis) (k : string) : option rentry :=
  match keyspace r !! k with
  | Some e => if expired (clock r) e then None else Some e
  | None => None
  end.

Definition advance (d : Z) (r : redis) : redis :=
  Redis (clock r + d) (keyspace r).

Definition put (r : redis) (k : string) (e : rentry) : redis :=
  Redis (clock r) (<[k := e]> (keyspace r)).

(** GET *)
Definition redis_get (r : redis) (k : string) : outcome (option string) :=
  match live r k with
  | None => Ok None
  | Some e =>
      match rv e with
      | RString s => Ok (Some s)
      | RHash _ => Raise WrongType
      end
  end.

(** SETEX, and SET with EX: the value replaces whatever the key held. *)
Definition redis_setex (r : redis) (k : string) (ttl : Z) (v : string)
  : outcome redis :=
  if ttl <=? 0 then Raise ResponseError
  else Ok (put r k (REntry (RString v) (Some (clock r + ttl)))).

(** HSET: fields are merged into the hash; the key's expiry is not touched,
    and a key that did not exist is created without one. *)
Definition redis_hset (r : redis) (k : string) (mapping : gmap string string)
  : outcome redis :=
  if decide (mapping = ∅) then Raise DataError
  else
    match live r k with
    | None => Ok (put r k (REntry (RHash mapping) None))
    | Some e =>
        match rv e with
        | RHash h => Ok (put r k (REntry (RHash (mapping ∪ h)) (deadline e)))
        | RString _ => Raise WrongType
        end
    end.

(** EXPIRE: no effect on a missing key; a non-positive time deletes. *)
Definition redis_expire (r : redis) (k : string) (ttl : Z) : redis :=
  match live r k with
  | None => r
  | Some e =>
      if ttl <=? 0 then Redis (clock r) (delete k (keyspace r))
      else put r k (REntry (rv e) (Some (clock r + ttl)))
  end.

(** DEL *)
Definition redis_delete (r : redis) (k : string) : redis :=
  Redis (clock r) (delete k (keyspace r)).

(** HGETALL: the empty dict for a missing key. *)
Definition redis_hgetall (r : redis) (k : string)
  : outcome (gmap string string) :=
  match live r k with
  | None => Ok ∅
  | Some e =>
      match rv e with
      | RHash h => Ok h
      | RString _ => Raise WrongType
      end
  end.

(** HGET *)
Definition redis_hget (r : redis) (k f : string) : outcome (option string) :=
  match live r k with
  | None => Ok None
  | Some e =>
      match rv e with
      | RHash h => Ok (h !! f)
      | RString _ => Raise WrongType
      end
  end.

(** A document returned by FT.SEARCH: the key and the fields the program
    reads with [getattr]. *)
Record doc := Doc {
  doc_id : string;
  doc_movie_id : option string;
  doc_year : option string;
  doc_title : option string;
  doc_genres : option string;
  doc_avg_rating : option string
}.

Record search_result := SearchResult {
  total : Z;
  docs : list doc
}.

(** The RediSearch engine is outside the program: given the keyspace, the
    raw query string and the page, it answers or raises. *)
Class RediSearch := {
  ft_search : redis → string → Z → Z → option search_result
}.

(** ** Neo4j *)

(** The graph store is reached only through the Cypher statements the
    program runs; each is an operation of the gateway.  Read statements are
    functions of the graph, write statements return the new graph.
    [run_avg_rating] and [run_user_name] mirror [result.single()]: there may
    be no record, and the value in a record may be null.  A statement the
    driver fails to run raises out of whichever function issued it, none
    of them catching it; such runs are not part of the model, except at
    step 2 of [rate_movie]: see [rate_movie_via]. *)
Class Neo4j `{PyFloat} := {
  graph : Type;
  run_top_k : graph → Z → Z → list (Z * pyfloat);
  run_user_rated : graph → Z → list rated_row;
  run_merge_rated : graph → Z → Z → pyfloat → graph;
  run_avg_rating : graph → Z → option (option pyfloat);
  run_user_name : graph → Z → option (option string);
  run_set_name : graph → Z → string → graph;
  run_merge_user : graph → Z → string → graph
}.

(** ** Runs *)

Section Program.
Context `{PyFloat} `{PyStr} `{!PyJson} `{!Neo4j} `{RediSearch}.

Inductive cypher :=
| CyTopK (user_id k : Z)
| CyUserRated (user_id : Z)
| CyMergeRated (user_id movie_id : Z) (rating : pyfloat)
| CyAvgRating (movie_id : Z)
| CyUserName (user_id : Z)
| CySetName (user_id : Z) (name : string)
| CyMergeUser (user_id : Z) (name : string).

Inductive command :=
| GET (k : string)
| SETEX (k : string) (ttl : Z) (v : string)
| SET (k v : string) (ex : Z)
| HSET (k : string) (mapping : gmap string string)
| EXPIRE (k : string) (ttl : Z)
| DEL (k : string)
| HGETALL (k : string)
| HGET (k f : string)
| FT_SEARCH (q : string) (offset num : Z).

Inductive event :=
| Printed (s : string)
| Prompted (s : string)
| Neo4jRun (q : cypher)
| RedisCmd (c : command).

Record world := World {
  cache : redis;
  neo : graph;
  stdin : list string;
  trace : list event
}.

Definition M (A : Type) : Type := world → outcome A * world.

#[export] Instance M_ret : MRet M := λ A a w, (Ok a, w).

#[export] Instance M_bind : MBind M := λ A B f c w,
  match c w with
  | (Ok a, w') => f a w'
  | (Raise e, w') => (Raise e, w')
  end.

Definition raise {A} (e : pyexn) : M A := λ w, (Raise e, w).

(** [try: c except Exception: handler] *)
Definition try_except {A} (c : M A) (handler : pyexn → M A) : M A := λ w,
  match c w with
  | (Ok a, w') => (Ok a, w')
  | (Raise e, w') => handler e w'
  end.

Definition emit (e : event) : M unit := λ w,
  (Ok tt, World (cache w) (neo w) (stdin w) (trace w ++ [e])).

Definition print (s : string) : M unit := emit (Printed s).

(** [input(prompt)] takes the next console line. *)
Definition input (prompt : string) : M string := λ w,
  match stdin w with
  | [] => (Raise EOFError, World (cache w) (neo w) [] (trace w ++ [Prompted prompt]))
  | line :: rest =>
      (Ok line, World (cache w) (neo w) rest (trace w ++ [Prompted prompt]))
  end.

(** A Redis command that reads. *)
Definition redis_read {A} (c : command) (f : redis → outcome A) : M A := λ w,
  (f (cache w), World (cache w) (neo w) (stdin w) (trace w ++ [RedisCmd c])).

(** A Redis command that writes: a refused command leaves the keyspace as
    it was. *)
Definition redis_write (c : command) (f : redis → outcome redis) : M unit := λ w,
  match f (cache w) with
  | Ok r' => (Ok tt, World r' (neo w) (stdin w) (trace w ++ [RedisCmd c]))
  | Raise e => (Raise e, World (cache w) (neo w) (stdin w) (trace w ++ [RedisCmd c]))
  end.

Definition r_get (k : string) : M (option string) :=
  redis_read (GET k) (λ r, redis_get r k).

Definition r_setex (k : string) (ttl : Z) (v : string) : M unit :=
  redis_write (SETEX k ttl v) (λ r, redis_setex r k ttl v).

Definition r_set (k v : string) (ex : Z) : M unit :=
  redis_write (SET k v ex) (λ r, redis_setex r k ex v).

Definition r_hset (k : string) (mapping : gmap string string) : M unit :=
  redis_write (HSET k mapping) (λ r, redis_hset r k mapping).

Definition r_expire (k : string) (ttl : Z) : M unit :=
  redis_write (EXPIRE k ttl) (λ r, Ok (redis_expire r k ttl)).

Definition r_delete (k : string) : M unit :=
  redis_write (DEL k) (λ r, Ok (redis_delete r k)).

Definition r_hgetall (k : string) : M (gmap string string) :=
  redis_read (HGETALL k) (λ r, redis_hgetall r k).

Definition r_hget (k f : string) : M (option string) :=
  redis_read (HGET k f) (λ r, redis_hget r k f).

(** [ft.search(Query(q).paging(offset, num))]; an engine error is raised as
    a Redis [ResponseError]. *)
Definition r_search (q : string) (offset num : Z) : M search_result :=
  redis_read (FT_SEARCH q offset num) (λ r,
    match ft_search r q offset num with
    | Some res => Ok res
    | None => Raise ResponseError
    end).

(** A Cypher statement that reads. *)
Definition neo_read {A} (q : cypher) (f : graph → A) : M A := λ w,
  (Ok (f (neo w)), World (cache w) (neo w) (stdin w) (trace w ++ [Neo4jRun q])).

(** A Cypher statement that writes. *)
Definition neo_write (q : cypher) (f : graph → graph) : M unit := λ w,
  (Ok tt, World (cache w) (f (neo w)) (stdin w) (trace w ++ [Neo4jRun q])).

(** ** Part 3: recommendations through the cache *)

Definition query_top_k_recommendations_from_neo4j (user_id k : Z)
  : M (list rec) :=
  neo_read (CyTopK user_id k) (λ g,
    map (λ row, Rec row.1 row.2 None) (run_top_k g user_id k)).

Definition recs_cache_key (user_id k : Z) : string :=
  "recs:user:" +:+ pretty user_id +:+ ":k:" +:+ pretty k.

Definition get_recommendations_for_user (user_id k ttl_seconds : Z)
  : M (list rec) :=
  let cache_key := recs_cache_key user_id k in
  cached ← r_get cache_key;
  parsed ← match cached with
           | Some cached_str =>
               print ("[CACHE HIT] " +:+ cache_key);;
               mret (json_loads_recs cached_str)
           | None => mret None
           end;
  match parsed with
  | Some recs => mret recs
  | None =>
      print ("[CACHE MISS] " +:+ cache_key +:+ " -> querying Neo4j...");;
      recs ← query_top_k_recommendations_from_neo4j user_id k;
      r_setex cache_key ttl_seconds (json_dumps_recs recs);;
      mret recs
  end.

(** ** Part 4: the user application *)

(** [while True: try: return int(input(...).strip()) except ValueError: ...].
    Every turn consumes a console line, so the lines left bound the loop. *)
Fixpoint prompt_for_user_id_loop (fuel : nat) : M Z :=
  match fuel with
  | O => raise EOFError
  | S fuel' =>
      raw ← input "Enter your user ID: ";
      match py_int (str_strip raw) with
      | Some n => mret n
      | None =>
          print ("User ID must be an integer. Please try again." +:+ nl);;
          prompt_for_user_id_loop fuel'
      end
  end.

Definition prompt_for_user_id : M Z := λ w,
  prompt_for_user_id_loop (S (length (stdin w))) w.

Definition get_or_create_user (user_id : Z) : M string :=
  record ← neo_read (CyUserName user_id) (λ g, run_user_name g user_id);
  match record with
  | Some (Some existing_name) =>
      print (nl +:+ "Welcome back, " +:+ existing_name +:+ "!" +:+ nl);;
      mret existing_name
  | Some None =>
      raw ← input ("We found your user ID but no name is stored yet." +:+ nl
                   +:+ "Please enter your name: ");
      let name := str_strip raw in
      let name := if str_truthy name then name else "User" +:+ pretty user_id in
      neo_write (CySetName user_id name) (λ g, run_set_name g user_id name);;
      print (nl +:+ "Welcome, " +:+ name +:+ "! Your profile has been updated." +:+ nl);;
      mret name
  | None =>
      raw ← input "No user found. Please enter your name: ";
      let name := str_strip raw in
      let name := if str_truthy name then name else "User" +:+ pretty user_id in
      neo_write (CyMergeUser user_id name) (λ g, run_merge_user g user_id name);;
      print (nl +:+ "Welcome, " +:+ name +:+ "! Your profile has been created." +:+ nl);;
      mret name
  end.

Definition get_user_rated_movies (user_id : Z) : M (list rated) :=
  neo_read (CyUserRated user_id) (λ g,
    map (λ record, Rated (pretty (row_movie_id record)) (row_title record)
                         (row_rating record))
        (run_user_rated g user_id)).

Definition ratings_hash_key (user_id : Z) : string :=
  "user:" +:+ pretty user_id +:+ ":ratings".

Definition ratings_list_key (user_id : Z) : string :=
  "user:" +:+ pretty user_id +:+ ":ratings:list".

Definition movie_key (movie_id : string) : string := "movie:" +:+ movie_id.

(** [{m["movie_id"]: m["rating"] for m in rated_movies}]: a later entry for
    the same id replaces an earlier one. *)
Definition rating_mapping (rated_movies : list rated) : gmap string pyfloat :=
  foldl (λ d m, <[rated_movie_id m := rated_rating m]> d) ∅ rated_movies.

(** How redis-py sends a dict of floats. *)
Definition encode_floats (d : gmap string pyfloat) : gmap string string :=
  float_repr <$> d.

Definition cache_user_rated_movies (user_id : Z) (rated_movies : list rated)
    (ttl_seconds : Z) : M unit :=
  let hash_key := ratings_hash_key user_id in
  match rated_movies with
  | _ :: _ =>
      let mapping := rating_mapping rated_movies in
      r_hset hash_key (encode_floats mapping);;
      r_expire hash_key ttl_seconds
  | [] =>
      r_delete hash_key
  end;;
  let list_key := ratings_list_key user_id in
  r_set list_key (json_dumps_rated rated_movies) ttl_seconds.

(** [{movie_id: float(rating) for movie_id, rating in data.items()}]; a
    value that is not the text of a float raises. *)
Definition get_cached_user_ratings (user_id : Z) : M (gmap string pyfloat) :=
  let hash_key := ratings_hash_key user_id in
  data ← r_hgetall hash_key;
  if decide (map_Forall (λ _ rating, is_Some (py_float rating)) data)
  then mret (omap py_float data)
  else raise ValueError.

(** ** Full-text search *)

(** [for x in l: body]. *)
Fixpoint for_each {A} (body : A → M unit) (l : list A) : M unit :=
  match l with
  | [] => mret tt
  | x :: l' => body x;; for_each body l'
  end.

(** The text of an exception, as [f"{e}"] prints it. *)
Definition exn_message (e : pyexn) : string :=
  match e with
  | ValueError => "invalid literal"
  | EOFError => "EOF when reading a line"
  | WrongType => "WRONGTYPE Operation against a key holding the wrong kind of value"
  | DataError => "'hset' with no key value pairs"
  | ResponseError => "invalid request"
  | Neo4jError => "Failed to read from defunct connection"
  end.

Definition show_plain_doc (d : doc) : M unit :=
  let movie_id := default "(none)" (doc_movie_id d) in
  let year := default "(none)" (doc_year d) in
  let title := default "(no title)" (doc_title d) in
  let genres := default "(no genres)" (doc_genres d) in
  print ("    movie_id=" +:+ movie_id +:+ ", year=" +:+ year +:+ ", title=" +:+ title
         +:+ ", genres=" +:+ genres).

Definition redis_fulltext_search_demo : M unit :=
  raw ← input "Enter search query (e.g. star war*, @genres:Comedy, etc.): ";
  let term := str_strip raw in
  if negb (str_truthy term) then print ("Empty search, returning." +:+ nl)
  else
    raw ← input "Max number of results [10]: ";
    let max_str := str_strip raw in
    let max_results :=
      if negb (str_truthy max_str) then 10
      else match py_int max_str with Some n => n | None => 10 end in
    let max_results := if max_results <? 1 then 1 else max_results in
    let max_results := if 10 <? max_results then 10 else max_results in
    let query_str := term in
    found ← try_except (res ← r_search query_str 0 max_results; mret (Some res))
              (λ e, print ("Error executing search: " +:+ exn_message e);; mret None);
    match found with
    | None => mret tt
    | Some res =>
        print (nl +:+ "Query '" +:+ query_str +:+ "' → " +:+ pretty (total res)
               +:+ " total hits, returning " +:+ pretty (length (docs res))
               +:+ " movie(s)." +:+ nl);;
        if (total res =? 0) || (Nat.eqb (length (docs res)) 0)
        then print ("No results." +:+ nl)
        else
          print "Search results:";;
          for_each show_plain_doc (docs res);;
          print ""
    end.

(** [" " in s] *)
Fixpoint has_space (s : string) : bool :=
  match s with
  | EmptyString => false
  | String c s' => Ascii.eqb c " " || has_space s'
  end.

(** The rest of [s] after the prefix [p], when [s] starts with [p]. *)
Fixpoint after_prefix (p s : string) : option string :=
  match p, s with
  | EmptyString, _ => Some s
  | String a p', String b s' => if Ascii.eqb a b then after_prefix p' s' else None
  | String _ _, EmptyString => None
  end.

(** The query [search_movies_with_user_context] builds from the term. *)
Definition title_query (search_term : string) : string :=
  if has_space search_term then "@title:(" +:+ search_term +:+ ")"
  else "@title:" +:+ search_term.

(** The movie id of a result: the key without its ["movie:"] prefix. *)
Definition doc_movie_key (d : doc) : string :=
  let redis_id := doc_id d in
  match after_prefix "movie:" redis_id with
  | Some movie_id => movie_id
  | None => redis_id
  end.

Definition has_seen (user_ratings : gmap string pyfloat) (d : doc) : bool :=
  dict_contains user_ratings (doc_movie_key d).

Definition user_rating_str (user_ratings : gmap string pyfloat) (d : doc) : string :=
  if has_seen user_ratings d
  then match user_ratings !! doc_movie_key d with
       | Some x => float_fmt 1 x
       | None => "N/A"
       end
  else "N/A".

Definition avg_rating_str (d : doc) : string :=
  match doc_avg_rating d with
  | None => "N/A"
  | Some avg_rating =>
      match py_float avg_rating with
      | Some x => float_fmt 2 x
      | None => avg_rating
      end
  end.

Definition show_doc_with_context (user_ratings : gmap string pyfloat) (d : doc)
  : M unit :=
  let movie_id := doc_movie_key d in
  let title := default "(no title)" (doc_title d) in
  let genres := default "(no genres)" (doc_genres d) in
  print ("  Movie ID     : " +:+ movie_id);;
  print ("  Title      : " +:+ title);;
  print ("  Genres     : " +:+ genres);;
  print ("  Avg Rating : " +:+ avg_rating_str d);;
  print ("  Seen       : " +:+ (if has_seen user_ratings d then "YES" else "NO"));;
  print ("  Your rating: " +:+ user_rating_str user_ratings d);;
  print "".

Definition search_movies_with_user_context (user_id : Z)
    (user_ratings : gmap string pyfloat) : M unit :=
  raw ← input "Enter part of a movie title to search for: ";
  let search_term := str_strip raw in
  if negb (str_truthy search_term)
  then print ("Empty search; returning to menu." +:+ nl)
  else
    let query_str := title_query search_term in
    found ← try_except (res ← r_search query_str 0 10; mret (Some res))
              (λ e, print ("Error executing search: " +:+ exn_message e);; mret None);
    match found with
    | None => mret tt
    | Some res =>
        if total res =? 0 then print ("No movies matched your search." +:+ nl)
        else
          print (nl +:+ "Top " +:+ pretty (Z.min 10 (total res)) +:+ " results for "
                 +:+ dq +:+ search_term +:+ dq +:+ ":" +:+ nl);;
          for_each (show_doc_with_context user_ratings) (docs res);;
          print ""
    end.

(** ** Top-5 recommendations and rating *)

(** Look up a movie title for display; a Redis error counts as no title. *)
Definition lookup_title (redis_key : string) : M (option string) :=
  try_except (r_hget redis_key "title") (λ _, mret None).

(** The loop that stores a title in every recommendation of [top_5]. *)
Fixpoint enrich_titles (top_5 : list rec) : M (list rec) :=
  match top_5 with
  | [] => mret []
  | rec :: rest =>
      let movie_id := rec_movie_id rec in
      let redis_key := movie_key (pretty movie_id) in
      title ← lookup_title redis_key;
      let title := if opt_truthy title then default "" title else "(no title)" in
      rest' ← enrich_titles rest;
      mret (Rec (rec_movie_id rec) (rec_predicted_rating rec) (Some title) :: rest')
  end.

(** [for idx, rec in enumerate(top_5, start=idx)]: one printed line each. *)
Fixpoint print_recommendations (idx : Z) (top_5 : list rec) : M unit :=
  match top_5 with
  | [] => mret tt
  | rec :: rest =>
      let movie_id := rec_movie_id rec in
      let title := default "(no title)" (rec_title rec) in
      let line := pretty idx +:+ ". [" +:+ pretty movie_id +:+ "] " +:+ title in
      let line := line +:+ "  (recommender score: "
                  +:+ float_fmt 4 (rec_predicted_rating rec) +:+ ")" in
      print line;;
      print_recommendations (idx + 1) rest
  end.

(** The read-time filter: recommendations whose id, as text, is not a key
    of [user_ratings]. *)
Definition unseen (user_ratings : gmap string pyfloat) (all_recs : list rec)
  : list rec :=
  List.filter (λ rec, negb (dict_contains user_ratings (pretty (rec_movie_id rec))))
              all_recs.

Definition display_top_5_recommendations (user_id : Z)
    (user_ratings : gmap string pyfloat) : M (list rec) :=
  all_recs ← get_recommendations_for_user user_id 20 600;
  match all_recs with
  | [] => print ("No recommendations available." +:+ nl);; mret []
  | _ :: _ =>
      let unseen_recs := unseen user_ratings all_recs in
      let top_5 := take 5 unseen_recs in
      match top_5 with
      | [] => print ("You have already rated all recommended movies." +:+ nl);; mret []
      | _ :: _ =>
          top_5 ← enrich_titles top_5;
          print (nl +:+ "Top 5 recommended movies you have not rated yet:" +:+ nl);;
          print_recommendations 1 top_5;;
          print "";;
          mret top_5
      end
  end.

(** Step 3 of [rate_movie]: the new average, when there is one, goes into
    the movie hash; a Redis error is reported and swallowed. *)
Definition store_avg_rating (redis_key : string) (new_avg : option pyfloat)
  : M unit :=
  match new_avg with
  | Some avg =>
      try_except (r_hset redis_key {["avg_rating" := float_repr avg]})
        (λ e, print ("Warning: failed to update avg_rating in Redis: "
                     +:+ exn_message e))
  | None => mret tt
  end.

(** Steps 1 to 4 of [rate_movie], entered once the rating is accepted:
    the Neo4j upsert, the average, the movie hash, the user's rating hash
    and the in-memory dict. *)
Definition rate_movie_store (user_id : Z) (movie_id title : string)
    (rating_val : pyfloat) (user_ratings : gmap string pyfloat)
  : M (gmap string pyfloat) :=
  match py_int movie_id with
  | None => raise ValueError
  | Some movie_int =>
      neo_write (CyMergeRated user_id movie_int rating_val)
                (λ g, run_merge_rated g user_id movie_int rating_val);;
      avg_record ← neo_read (CyAvgRating movie_int) (λ g, run_avg_rating g movie_int);
      let new_avg := match avg_record with Some avg_rating => avg_rating | None => None end in
      let redis_key := movie_key movie_id in
      store_avg_rating redis_key new_avg;;
      let hash_key := ratings_hash_key user_id in
      r_hset hash_key {[movie_id := float_repr rating_val]};;
      let user_ratings := <[movie_id := rating_val]> user_ratings in
      print (nl +:+ "You rated '" +:+ title +:+ "' (movie " +:+ movie_id +:+ ") with "
             +:+ float_fmt 1 rating_val +:+ " stars.");;
      match new_avg with
      | Some avg =>
          print ("New average rating for this movie is " +:+ float_fmt 2 avg +:+ "." +:+ nl)
      | None =>
          print ("Average rating could not be recomputed." +:+ nl)
      end;;
      mret user_ratings
  end.

(** [rate_movie] returns the two objects it mutates in place: the list of
    recommendations (a title may be filled in) and the in-memory ratings. *)
Definition rate_movie (user_id : Z) (recommendations : list rec)
    (user_ratings : gmap string pyfloat) : M (list rec * gmap string pyfloat) :=
  match recommendations with
  | [] =>
      print ("No recommendations available to rate." +:+ nl);;
      mret (recommendations, user_ratings)
  | _ :: _ =>
      raw ← input "Enter the number of the movie you want to rate (or press Enter to cancel): ";
      let choice := str_strip raw in
      if negb (str_truthy choice)
      then print ("Rating cancelled." +:+ nl);; mret (recommendations, user_ratings)
      else
        match py_int choice with
        | None =>
            print ("Invalid choice. Rating cancelled." +:+ nl);;
            mret (recommendations, user_ratings)
        | Some idx =>
            match (if (idx <? 1) || (Z.of_nat (length recommendations) <? idx)
                   then None else recommendations !! Z.to_nat (idx - 1)) with
            | None =>
                print ("Choice out of range. Rating cancelled." +:+ nl);;
                mret (recommendations, user_ratings)
            | Some movie =>
                let movie_id := pretty (rec_movie_id movie) in
                let title := rec_title movie in
                '(title, recommendations) ←
                  (if negb (opt_truthy title) || bool_decide (title = Some "(no title)")
                   then
                     title_from_redis ← lookup_title (movie_key movie_id);
                     if opt_truthy title_from_redis
                     then
                       let title := default "" title_from_redis in
                       mret (title,
                             <[Z.to_nat (idx - 1) :=
                                 Rec (rec_movie_id movie) (rec_predicted_rating movie)
                                     (Some title)]> recommendations)
                     else mret ("(no title)", recommendations)
                   else mret (default "" title, recommendations));
                raw ← input ("Enter your rating for '" +:+ title +:+ "' (0.5 - 5.0): ");
                let rating_str := str_strip raw in
                match py_float rating_str with
                | None =>
                    print ("Invalid rating. Rating cancelled." +:+ nl);;
                    mret (recommendations, user_ratings)
                | Some rating_val =>
                    if negb (float_le lit_0_5 rating_val && float_le rating_val lit_5_0)
                    then
                      print ("Rating must be between 0.5 and 5.0. Rating cancelled." +:+ nl);;
                      mret (recommendations, user_ratings)
                    else
                      user_ratings ← rate_movie_store user_id movie_id title rating_val
                                       user_ratings;
                      mret (recommendations, user_ratings)
                end
            end
        end
  end.

(** ** The session *)

(** What [run_user_application] keeps between menu turns. *)
Record session := Session {
  s_user_id : Z;
  s_user_ratings : gmap string pyfloat;
  s_last_recommendations : list rec
}.

(** Log-in: identify the user, load their ratings from Neo4j, cache them,
    and read the cached mapping into memory. *)
Definition run_user_application_login : M session :=
  user_id ← prompt_for_user_id;
  user_name ← get_or_create_user user_id;
  rated_movies ← get_user_rated_movies user_id;
  cache_user_rated_movies user_id rated_movies 3600;;
  user_ratings ← get_cached_user_ratings user_id;
  mret (Session user_id user_ratings []).

(** One turn of the menu; [None] when the user leaves. *)
Definition run_user_application_menu (s : session) : M (option session) :=
  print "=== Part 4 – User Application Menu ===";;
  print "1. Search movies by title (Redis full-text + user context)";;
  print "2. Show top-5 recommended movies you haven't rated";;
  print "3. Rate a movie from the latest recommendations";;
  print "0. Return to main menu";;
  raw ← input "Choose an option: ";
  let choice := str_strip raw in
  if String.eqb choice "1" then
    search_movies_with_user_context (s_user_id s) (s_user_ratings s);;
    mret (Some s)
  else if String.eqb choice "2" then
    last_recommendations ← display_top_5_recommendations (s_user_id s) (s_user_ratings s);
    mret (Some (Session (s_user_id s) (s_user_ratings s) last_recommendations))
  else if String.eqb choice "3" then
    match s_last_recommendations s with
    | [] =>
        print ("No recommendations loaded yet. Choose option 2 first." +:+ nl);;
        mret (Some s)
    | _ :: _ =>
        '(recs, user_ratings) ← rate_movie (s_user_id s) (s_last_recommendations s)
                                  (s_user_ratings s);
        mret (Some (Session (s_user_id s) user_ratings recs))
    end
  else if String.eqb choice "0" then
    print ("Returning to main menu..." +:+ nl);;
    mret None
  else
    print ("Invalid choice, try again." +:+ nl);;
    mret (Some s).

(** The menu loop; every turn consumes a console line. *)
Fixpoint run_user_application_loop (fuel : nat) (s : session) : M unit :=
  match fuel with
  | O => raise EOFError
  | S fuel' =>
      next ← run_user_application_menu s;
      match next with
      | Some s' => run_user_application_loop fuel' s'
      | None => mret tt
      end
  end.

Definition run_user_application : M unit :=
  s ← run_user_application_login;
  ((λ w, run_user_application_loop (S (length (stdin w))) s w) : M unit).

(** ** Observing a run *)

(** The Cypher statements and the Redis commands of a trace, in order. *)
Definition neo_runs (t : list event) : list cypher :=
  omap (λ e, match e with Neo4jRun q => Some q | _ => None end) t.

Definition redis_cmds (t : list event) : list command :=
  omap (λ e, match e with RedisCmd c => Some c | _ => None end) t.

Definition printed (t : list event) : list string :=
  omap (λ e, match e with Printed s => Some s | _ => None end) t.

(** Commands that change the keyspace. *)
Definition is_write (c : command) : bool :=
  match c with
  | SETEX _ _ _ | SET _ _ _ | HSET _ _ | EXPIRE _ _ | DEL _ => true
  | GET _ | HGETALL _ | HGET _ _ | FT_SEARCH _ _ _ => false
  end.

Definition cache_writes (t : list event) : list command :=
  List.filter is_write (redis_cmds t).

(** The same stores [d] seconds later. *)
Definition later (d : Z) (w : world) : world :=
  World (advance d (cache w)) (neo w) (stdin w) (trace w).

(** The same stores in front of a console on which [lines] are typed. *)
Definition typing (lines : list string) (w : world) : world :=
  World (cache w) (neo w) lines (trace w).

(** The lines [show_doc_with_context] prints for one result. *)
Definition context_lines (user_ratings : gmap string pyfloat) (d : doc)
  : list string :=
  [ "  Movie ID     : " +:+ doc_movie_key d;
    "  Title      : " +:+ default "(no title)" (doc_title d);
    "  Genres     : " +:+ default "(no genres)" (doc_genres d);
    "  Avg Rating : " +:+ avg_rating_str d;
    "  Seen       : " +:+ (if has_seen user_ratings d then "YES" else "NO");
    "  Your rating: " +:+ user_rating_str user_ratings d;
    "" ].

(** The average that step 2 of [rate_movie] obtains once step 1 has run
    on graph [g]: none when there is no record or the record holds null. *)
Definition recomputed (g : graph) (user_id movie_int : Z) (rating : pyfloat)
  : option pyfloat :=
  match run_avg_rating (run_merge_rated g user_id movie_int rating) movie_int with
  | Some avg_rating => avg_rating
  | None => None
  end.

(** The console input under which [rate_movie] accepts a rating: the
    first line picks [movie] out of [recommendations] by its number, the
    second is the text of [rating], which lies in [0.5, 5.0]. *)
Definition submits (recommendations : list rec) (w : world) (movie : rec)
    (rating : pyfloat) : Prop :=
  ∃ choice rating_str rest idx,
    stdin w = choice :: rating_str :: rest
    ∧ str_truthy (str_strip choice) = true
    ∧ py_int (str_strip choice) = Some idx
    ∧ 1 ≤ idx ≤ Z.of_nat (length recommendations)
    ∧ recommendations !! Z.to_nat (idx - 1) = Some movie
    ∧ py_float (str_strip rating_str) = Some rating
    ∧ float_le lit_0_5 rating = true
    ∧ float_le rating lit_5_0 = true.

End Program.

(** * A concrete runtime

    Instances of the interfaces above, on which the program can be run:
    decimal text for numbers, rationals for floats, a small property graph
    for Neo4j, and a title matcher for the search engine. *)

Module Dec.

(** Floats as exact rationals, with the three non-finite values. *)
Inductive dfloat :=
| DFin (q : Q)
| DNan
| DInf (negative : bool).

Definition dfloat_le (a b : dfloat) : bool :=
  match a, b with
  | DFin x, DFin y => Qle_bool x y
  | DFin _, DInf negative => negb negative
  | DInf negative, DFin _ => negative
  | DInf n1, DInf n2 => n1 || negb n2
  | _, _ => false
  end.

Definition digit_of (c : ascii) : option Z :=
  let n := Z.of_nat (nat_of_ascii c) in
  if (48 <=? n) && (n <=? 57) then Some (n - 48) else None.

(** Leading decimal digits of [s]: their value on top of [acc], how many
    there were, and what follows them. *)
Fixpoint read_digits (s : string) (acc : Z) (count : nat) : Z * nat * string :=
  match s with
  | EmptyString => (acc, count, s)
  | String c s' =>
      match digit_of c with
      | Some d => read_digits s' (10 * acc + d) (S count)
      | None => (acc, count, s)
      end
  end.

(** An optional sign. *)
Definition read_sign (s : string) : bool * string :=
  match s with
  | String "-" s' => (true, s')
  | String "+" s' => (false, s')
  | _ => (false, s)
  end.

(** [int(s)] on plain decimal text. *)
Definition dec_int (s : string) : option Z :=
  let '(negative, s) := read_sign s in
  match read_digits s 0 0 with
  | (n, S _, EmptyString) => Some (if negative then - n else n)
  | _ => None
  end.

(** [float(s)] on [nan], [inf], and digits with an optional point. *)
Definition dec_float (s : string) : option dfloat :=
  let '(negative, body) := read_sign s in
  if String.eqb body "nan" then Some DNan
  else if String.eqb body "inf" then Some (DInf negative)
  else
    let '(whole, n1, rest) := read_digits body 0 0 in
    let finish (mantissa : Z) (places : nat) :=
      let q := Qred (Qmake mantissa (Z.to_pos (10 ^ Z.of_nat places))) in
      Some (DFin (if negative then Qopp q else q)) in
    match rest with
    | EmptyString => match n1 with O => None | S _ => finish whole O end
    | String "." frac =>
        match read_digits frac whole 0 with
        | (mantissa, n2, EmptyString) =>
            match (n1 + n2)%nat with O => None | S _ => finish mantissa n2 end
        | _ => None
        end
    | _ => None
    end.

(** The decimal digits of [n >= 0] in front of [acc]; a number has at most
    [log2 n + 1] of them, which bounds the recursion. *)
Fixpoint digits_onto (fuel : nat) (n : Z) (acc : string) : string :=
  let acc := String (ascii_of_nat (Z.to_nat (48 + n mod 10))) acc in
  match fuel with
  | O => acc
  | S fuel' => if n <? 10 then acc else digits_onto fuel' (n / 10) acc
  end.

Definition show_natural (n : Z) : string :=
  digits_onto (Z.to_nat (Z.log2 n)) n EmptyString.

(** [str(n)] *)
Definition show_int (n : Z) : string :=
  if n <? 0 then "-" +:+ show_natural (- n) else show_natural n.

(** [n] as decimal digits, at least [width] of them. *)
Definition pad_digits (width : nat) (n : Z) : string :=
  let digits := show_natural n in
  String.concat "" (replicate (width - String.length digits) "0") +:+ digits.

(** [mantissa / 10^places] written with a point. *)
Definition show_scaled (mantissa : Z) (places : nat) : string :=
  let scale := 10 ^ Z.of_nat places in
  let magnitude := Z.abs mantissa in
  (if mantissa <? 0 then "-" else "")
  +:+ show_natural (magnitude / scale)
  +:+ (match places with
       | O => ""
       | S _ => "." +:+ pad_digits places (magnitude mod scale)
       end).

(** The least number of places, from [places] and within [fuel] more, at
    which [q] is a whole number of units. *)
Fixpoint exact_places (fuel places : nat) (q : Q) : option nat :=
  if (Qnum q * 10 ^ Z.of_nat places) mod Zpos (Qden q) =? 0 then Some places
  else match fuel with
       | O => None
       | S fuel' => exact_places fuel' (S places) q
       end.

(** [repr]: the exact decimal expansion when there is one (with at least
    one place), otherwise seventeen places. *)
Definition dec_repr (x : dfloat) : string :=
  match x with
  | DNan => "nan"
  | DInf negative => if negative then "-inf" else "inf"
  | DFin q =>
      let places := default 17%nat (exact_places 40 1 q) in
      show_scaled (Qnum q * 10 ^ Z.of_nat places / Zpos (Qden q)) places
  end.

(** [format(x, ".nf")]: [n] places, the nearest value, ties to even. *)
Definition dec_fmt (n : nat) (x : dfloat) : string :=
  match x with
  | DNan => "nan"
  | DInf negative => if negative then "-inf" else "inf"
  | DFin q =>
      let num := Qnum q * 10 ^ Z.of_nat n in
      let den := Zpos (Qden q) in
      let low := num / den in
      let twice := 2 * (num mod den) in
      let rounded :=
        if twice <? den then low
        else if den <? twice then low + 1
        else if Z.even low then low else low + 1 in
      show_scaled rounded n
  end.

Definition is_space (c : ascii) : bool :=
  let n := nat_of_ascii c in
  (Nat.eqb n 32) || ((9 <=? n)%nat && (n <=? 13)%nat).

Fixpoint lstrip (s : string) : string :=
  match s with
  | String c s' => if is_space c then lstrip s' else s
  | EmptyString => s
  end.

Definition reverse_string (s : string) : string :=
  String.string_of_list_ascii (rev (String.list_ascii_of_string s)).

(** [s.strip()] for ASCII white space. *)
Definition dec_strip (s : string) : string :=
  reverse_string (lstrip (reverse_string (lstrip s))).

#[global] Instance dec_PyFloat : PyFloat := {|
  pyfloat := dfloat;
  float_le := dfloat_le;
  lit_0_5 := DFin (1 # 2);
  lit_5_0 := DFin (5 # 1);
  py_float := dec_float;
  float_repr := dec_repr;
  float_fmt := dec_fmt
|}.

#[global] Instance dec_PyStr : PyStr := {|
  py_int := dec_int;
  str_strip := dec_strip
|}.

End Dec.

Module Json.
Import Dec.

(** JSON text for the two lists the program serialises, in the layout of
    [json.dumps] (separators [", "] and [": "]). *)

Definition quoted (s : string) : string := dq +:+ s +:+ dq.

Definition json_float (x : dfloat) : string :=
  match x with
  | DNan => "NaN"
  | DInf negative => if negative then "-Infinity" else "Infinity"
  | DFin _ => dec_repr x
  end.

Definition json_opt_string (o : option string) : string :=
  match o with
  | Some s => quoted s
  | None => "null"
  end.

Definition join (sep : string) (items : list string) : string :=
  String.concat sep items.

Definition dumps_rec (rec : @rec dec_PyFloat) : string :=
  "{" +:+ quoted "movie_id" +:+ ": " +:+ show_int (rec_movie_id rec)
  +:+ ", " +:+ quoted "predicted_rating" +:+ ": "
  +:+ json_float (rec_predicted_rating rec)
  +:+ (match rec_title rec with
       | Some title => ", " +:+ quoted "title" +:+ ": " +:+ quoted title
       | None => ""
       end)
  +:+ "}".

Definition dumps_recs (recs : list (@rec dec_PyFloat)) : string :=
  "[" +:+ join ", " (map dumps_rec recs) +:+ "]".

Definition dumps_rated_one (m : @rated dec_PyFloat) : string :=
  "{" +:+ quoted "movie_id" +:+ ": " +:+ quoted (rated_movie_id m)
  +:+ ", " +:+ quoted "title" +:+ ": " +:+ json_opt_string (rated_title m)
  +:+ ", " +:+ quoted "rating" +:+ ": " +:+ json_float (rated_rating m)
  +:+ "}".

Definition dumps_rated (l : list (@rated dec_PyFloat)) : string :=
  "[" +:+ join ", " (map dumps_rated_one l) +:+ "]".

(** The longest prefix of [s] free of the characters [stop], and the rest. *)
Fixpoint until (stop : ascii → bool) (s : string) : string * string :=
  match s with
  | EmptyString => (EmptyString, s)
  | String c s' =>
      if stop c then (EmptyString, s)
      else let '(word, rest) := until stop s' in (String c word, rest)
  end.

Definition ends_number (c : ascii) : bool :=
  Ascii.eqb c "," || Ascii.eqb c "}".

Definition loads_float (s : string) : option dfloat :=
  if String.eqb s "NaN" then Some DNan
  else if String.eqb s "Infinity" then Some (DInf false)
  else if String.eqb s "-Infinity" then Some (DInf true)
  else dec_float s.

(** One recommendation object at the head of [s]. *)
Definition loads_rec (s : string) : option (@rec dec_PyFloat * string) :=
  match after_prefix ("{" +:+ quoted "movie_id" +:+ ": ") s with
  | None => None
  | Some s =>
      let '(id_text, s) := until ends_number s in
      match dec_int id_text,
            after_prefix (", " +:+ quoted "predicted_rating" +:+ ": ") s with
      | Some movie_id, Some s =>
          let '(score_text, s) := until ends_number s in
          match loads_float score_text with
          | None => None
          | Some score =>
              match after_prefix "}" s with
              | Some rest => Some (Rec movie_id score None, rest)
              | None =>
                  match after_prefix (", " +:+ quoted "title" +:+ ": " +:+ dq) s with
                  | None => None
                  | Some s =>
                      let '(title, s) := until (Ascii.eqb "034") s in
                      match after_prefix (dq +:+ "}") s with
                      | Some rest => Some (Rec movie_id score (Some title), rest)
                      | None => None
                      end
                  end
              end
          end
      | _, _ => None
      end
  end.

(** The objects of a list after its opening bracket. *)
Fixpoint loads_items (fuel : nat) (s : string) : option (list (@rec dec_PyFloat)) :=
  match fuel with
  | O => None
  | S fuel' =>
      match loads_rec s with
      | None => None
      | Some (rec, s) =>
          match after_prefix ", " s with
          | Some s' =>
              match loads_items fuel' s' with
              | Some recs => Some (rec :: recs)
              | None => None
              end
          | None => if String.eqb s "]" then Some [rec] else None
          end
      end
  end.

Definition loads_recs (s : string) : option (list (@rec dec_PyFloat)) :=
  if String.eqb s "[]" then Some []
  else
    match after_prefix "[" s with
    | Some s' => loads_items (String.length s) s'
    | None => None
    end.

#[global] Instance dec_PyJson : @PyJson dec_PyFloat := {|
  json_dumps_recs := dumps_recs;
  json_loads_recs := loads_recs;
  json_dumps_rated := dumps_rated
|}.

End Json.

Module Graph.
Import Dec.

(** A property graph with the three kinds of element the Cypher statements
    touch: [User] nodes (id, name), [Movie] nodes (id, title) and [RATED]
    edges (user, movie, rating). *)
Record cgraph := CGraph {
  users : list (Z * option string);
  movies : list (Z * option string);
  ratings : list (Z * Z * dfloat)
}.

Definition has_node {A} (nodes : list (Z * A)) (id : Z) : bool :=
  existsb (λ node, node.1 =? id) nodes.

(** [MATCH (u:User {userId}) RETURN u.name], then [.single()]. *)
Definition user_name (g : cgraph) (user_id : Z) : option (option string) :=
  snd <$> List.find (λ node, node.1 =? user_id) (users g).

(** [MATCH (u:User {userId}) SET u.name = $name] *)
Definition set_name (g : cgraph) (user_id : Z) (name : string) : cgraph :=
  CGraph (map (λ node, if node.1 =? user_id then (node.1, Some name) else node) (users g))
         (movies g) (ratings g).

(** [MERGE (u:User {userId}) ON CREATE SET u.name = $name] *)
Definition merge_user (g : cgraph) (user_id : Z) (name : string) : cgraph :=
  if has_node (users g) user_id then g
  else CGraph (users g ++ [(user_id, Some name)]) (movies g) (ratings g).

Definition is_edge (user_id movie_id : Z) (e : Z * Z * dfloat) : bool :=
  (e.1.1 =? user_id) && (e.1.2 =? movie_id).

(** [MATCH (u:User ..), (m:Movie ..) MERGE (u)-[r:RATED]->(m) SET r.rating]:
    nothing happens unless both nodes exist; one edge per pair. *)
Definition merge_rated (g : cgraph) (user_id movie_id : Z) (rating : dfloat) : cgraph :=
  if has_node (users g) user_id && has_node (movies g) movie_id then
    if existsb (is_edge user_id movie_id) (ratings g)
    then CGraph (users g) (movies g)
           (map (λ e, if is_edge user_id movie_id e then (user_id, movie_id, rating) else e)
                (ratings g))
    else CGraph (users g) (movies g) (ratings g ++ [(user_id, movie_id, rating)])
  else g.

Definition add_finite (acc : option Q) (x : dfloat) : option Q :=
  match acc, x with
  | Some total, DFin q => Some (Qplus total q)
  | _, _ => None
  end.

(** [avg(...)]: null over no rows. *)
Definition mean (xs : list dfloat) : option dfloat :=
  match xs with
  | [] => None
  | _ :: _ =>
      match foldl add_finite (Some (0 # 1)) xs with
      | Some total => Some (DFin (Qred (Qdiv total (inject_Z (Z.of_nat (length xs))))))
      | None => Some DNan
      end
  end.

(** [MATCH (:User)-[r:RATED]->(m:Movie {movieId}) RETURN avg(r.rating)]:
    an aggregate always yields its one record. *)
Definition avg_rating (g : cgraph) (movie_id : Z) : option (option dfloat) :=
  Some (mean (map snd (List.filter (λ e, e.1.2 =? movie_id) (ratings g)))).

Fixpoint insert_by {A} (le : A → A → bool) (x : A) (l : list A) : list A :=
  match l with
  | [] => [x]
  | y :: l' => if le x y then x :: l else y :: insert_by le x l'
  end.

Definition sort_by {A} (le : A → A → bool) (l : list A) : list A :=
  foldr (insert_by le) [] l.

Definition title_of (g : cgraph) (movie_id : Z) : option string :=
  match List.find (λ node, node.1 =? movie_id) (movies g) with
  | Some node => node.2
  | None => None
  end.

Definition title_le (a b : option string) : bool :=
  match String.compare (default "" a) (default "" b) with
  | Gt => false
  | _ => true
  end.

(** [ORDER BY r.rating DESC, title] *)
Definition row_before (a b : @rated_row dec_PyFloat) : bool :=
  if dfloat_le (row_rating b) (row_rating a)
  then negb (dfloat_le (row_rating a) (row_rating b))
       || title_le (row_title a) (row_title b)
  else false.

Definition user_rated (g : cgraph) (user_id : Z) : list (@rated_row dec_PyFloat) :=
  sort_by row_before
    (map (λ e, RatedRow e.1.2 (title_of g e.1.2) e.2)
         (List.filter (λ e, e.1.1 =? user_id) (ratings g))).

Definition rated_by (g : cgraph) (user_id : Z) : list Z :=
  map (λ e, e.1.2) (List.filter (λ e, e.1.1 =? user_id) (ratings g)).

Definition member (x : Z) (l : list Z) : bool := existsb (Z.eqb x) l.

(** The collaborative-filter query: the (at most 50) users sharing most
    rated movies with the target, the movies they rated that the target
    has not, each scored by the mean of their ratings, best first. *)
Definition top_k (g : cgraph) (user_id k : Z) : list (Z * dfloat) :=
  if negb (has_node (users g) user_id) then []
  else
    let mine := rated_by g user_id in
    let shared :=
      List.filter (λ e, negb (e.1.1 =? user_id) && member e.1.2 mine) (ratings g) in
    let others := remove_dups (map (λ e, e.1.1) shared) in
    let counted :=
      map (λ other, (other, length (List.filter (λ e, e.1.1 =? other) shared))) others in
    let neighbours :=
      map fst (take 50 (sort_by (λ a b, (b.2 <=? a.2)%nat) counted)) in
    let candidates :=
      List.filter (λ e, member e.1.1 neighbours && negb (member e.1.2 mine)) (ratings g) in
    let scored :=
      map (λ movie_id,
             (movie_id,
              default DNan
                (mean (map snd (List.filter (λ e, e.1.2 =? movie_id) candidates)))))
          (remove_dups (map (λ e, e.1.2) candidates)) in
    take (Z.to_nat k) (sort_by (λ a b, dfloat_le b.2 a.2) scored).

#[global] Instance graph_Neo4j : @Neo4j dec_PyFloat := {|
  graph := cgraph;
  run_top_k := top_k;
  run_user_rated := user_rated;
  run_merge_rated := merge_rated;
  run_avg_rating := avg_rating;
  run_user_name := user_name;
  run_set_name := set_name;
  run_merge_user := merge_user
|}.

End Graph.

Module Search.

(** A stand-in for the search engine over the [movie:] hashes: a document
    matches when every word of the query occurs in its title, ignoring
    case; a [@title:] scope, parentheses and [*] are read as syntax. *)

Definition lower (c : ascii) : ascii :=
  let n := nat_of_ascii c in
  if ((65 <=? n) && (n <=? 90))%nat then ascii_of_nat (n + 32) else c.

Fixpoint lower_string (s : string) : string :=
  match s with
  | EmptyString => EmptyString
  | String c s' => String (lower c) (lower_string s')
  end.

Fixpoint occurs_in (needle hay : string) : bool :=
  match after_prefix needle hay with
  | Some _ => true
  | None =>
      match hay with
      | EmptyString => false
      | String _ hay' => occurs_in needle hay'
      end
  end.

Definition is_syntax (c : ascii) : bool :=
  Ascii.eqb c "(" || Ascii.eqb c ")" || Ascii.eqb c "*".

Fixpoint drop_syntax (s : string) : string :=
  match s with
  | EmptyString => EmptyString
  | String c s' => if is_syntax c then drop_syntax s' else String c (drop_syntax s')
  end.

(** The words of [s], split at spaces; [word] is the one being read. *)
Fixpoint words (word s : string) : list string :=
  match s with
  | EmptyString => [word]
  | String c s' =>
      if Ascii.eqb c " " then word :: words EmptyString s'
      else words (word +:+ String c EmptyString) s'
  end.

Definition query_words (q : string) : list string :=
  let q := default q (after_prefix "@title:" q) in
  List.filter str_truthy (words EmptyString (lower_string (drop_syntax q))).

Definition matches (q : string) (title : string) : bool :=
  forallb (λ word, occurs_in word (lower_string title)) (query_words q).

Definition as_doc (r : redis) (q : string) (item : string * rentry) : option doc :=
  match after_prefix "movie:" item.1, live r item.1 with
  | Some _, Some e =>
      match rv e with
      | RHash h =>
          if matches q (default "" (h !! "title"))
          then Some (Doc item.1 (h !! "movie_id") (h !! "year") (h !! "title")
                         (h !! "genres") (h !! "avg_rating"))
          else None
      | RString _ => None
      end
  | _, _ => None
  end.

Definition search (r : redis) (q : string) (offset num : Z) : option search_result :=
  let hits := omap (as_doc r q) (map_to_list (keyspace r)) in
  Some (SearchResult (Z.of_nat (length hits))
                     (take (Z.to_nat num) (drop (Z.to_nat offset) hits))).

#[global] Instance title_RediSearch : RediSearch := {| ft_search := search |}.

End Search.

(** * A driver that can fail

    [rate_movie] once more, with what the driver gives for the statement
    of step 2 as a parameter: the record of [result.single()], none, or
    the exception that [session.run] or [single] raises.  No [try] in
    [rate_movie] encloses step 2, so the exception leaves the function. *)

Section Driver.
Context `{PyFloat} `{PyStr} `{!PyJson} `{!Neo4j} `{RediSearch}.
Variable avg_query : graph → Z → outcome (option (option pyfloat)).

(** A Cypher statement that reads, or that the driver fails to run. *)
Definition neo_try {A} (q : cypher) (f : graph → outcome A) : M A := λ w,
  (f (neo w), World (cache w) (neo w) (stdin w) (trace w ++ [Neo4jRun q])).

(** Steps 1 to 4 of [rate_movie]. *)
Definition rate_movie_store_via (user_id : Z) (movie_id title : string)
    (rating_val : pyfloat) (user_ratings : gmap string pyfloat)
  : M (gmap string pyfloat) :=
  match py_int movie_id with
  | None => raise ValueError
  | Some movie_int =>
      neo_write (CyMergeRated user_id movie_int rating_val)
                (λ g, run_merge_rated g user_id movie_int rating_val);;
      avg_record ← neo_try (CyAvgRating movie_int) (λ g, avg_query g movie_int);
      let new_avg := match avg_record with Some avg_rating => avg_rating | None => None end in
      let redis_key := movie_key movie_id in
      store_avg_rating redis_key new_avg;;
      let hash_key := ratings_hash_key user_id in
      r_hset hash_key {[movie_id := float_repr rating_val]};;
      let user_ratings := <[movie_id := rating_val]> user_ratings in
      print (nl +:+ "You rated '" +:+ title +:+ "' (movie " +:+ movie_id +:+ ") with "
             +:+ float_fmt 1 rating_val +:+ " stars.");;
      match new_avg with
      | Some avg =>
          print ("New average rating for this movie is " +:+ float_fmt 2 avg +:+ "." +:+ nl)
      | None =>
          print ("Average rating could not be recomputed." +:+ nl)
      end;;
      mret user_ratings
  end.

Definition rate_movie_via (user_id : Z) (recommendations : list rec)
    (user_ratings : gmap string pyfloat) : M (list rec * gmap string pyfloat) :=
  match recommendations with
  | [] =>
      print ("No recommendations available to rate." +:+ nl);;
      mret (recommendations, user_ratings)
  | _ :: _ =>
      raw ← input "Enter the number of the movie you want to rate (or press Enter to cancel): ";
      let choice := str_strip raw in
      if negb (str_truthy choice)
      then print ("Rating cancelled." +:+ nl);; mret (recommendations, user_ratings)
      else
        match py_int choice with
        | None =>
            print ("Invalid choice. Rating cancelled." +:+ nl);;
            mret (recommendations, user_ratings)
        | Some idx =>
            match (if (idx <? 1) || (Z.of_nat (length recommendations) <? idx)
                   then None else recommendations !! Z.to_nat (idx - 1)) with
            | None =>
                print ("Choice out of range. Rating cancelled." +:+ nl);;
                mret (recommendations, user_ratings)
            | Some movie =>
                let movie_id := pretty (rec_movie_id movie) in
                let title := rec_title movie in
                '(title, recommendations) ←
                  (if negb (opt_truthy title) || bool_decide (title = Some "(no title)")
                   then
                     title_from_redis ← lookup_title (movie_key movie_id);
                     if opt_truthy title_from_redis
                     then
                       let title := default "" title_from_redis in
                       mret (title,
                             <[Z.to_nat (idx - 1) :=
                                 Rec (rec_movie_id movie) (rec_predicted_rating movie)
                                     (Some title)]> recommendations)
                     else mret ("(no title)", recommendations)
                   else mret (default "" title, recommendations));
                raw ← input ("Enter your rating for '" +:+ title +:+ "' (0.5 - 5.0): ");
                let rating_str := str_strip raw in
                match py_float rating_str with
                | None =>
                    print ("Invalid rating. Rating cancelled." +:+ nl);;
                    mret (recommendations, user_ratings)
                | Some rating_val =>
                    if negb (float_le lit_0_5 rating_val && float_le rating_val lit_5_0)
                    then
                      print ("Rating must be between 0.5 and 5.0. Rating cancelled." +:+ nl);;
                      mret (recommendations, user_ratings)
                    else
                      user_ratings ← rate_movie_store_via user_id movie_id title rating_val
                                       user_ratings;
                      mret (recommendations, user_ratings)
                end
            end
        end
  end.

End Driver.

(** The driver that answers step 2 with what the gateway returns. *)
Definition answering `{Neo4j} (g : graph) (movie_int : Z)
  : outcome (option (option pyfloat)) :=
  Ok (run_avg_rating g movie_int).

(** The driver that raises [e] on step 2. *)
Definition failing `{Neo4j} (e : pyexn) (g : graph) (movie_int : Z)
  : outcome (option (option pyfloat)) :=
  Raise e.

(** * More of the program

    The loader of the movie hashes, and what is observed of the display,
    the searches and the menu. *)

(** [c not in s] for a character. *)
Fixpoint lacks (c : ascii) (s : string) : bool :=
  match s with
  | EmptyString => true
  | String c' s' => negb (Ascii.eqb c c') && lacks c s'
  end.

Section Shown.
Context `{PyFloat} `{PyStr} `{!PyJson} `{!Neo4j} `{RediSearch}.

(** The title [display_top_5_recommendations] stores in a recommendation:
    the [title] field of the movie's hash, or the placeholder when Redis
    has none, has an empty one, or fails. *)
Definition title_shown (r : redis) (movie_id : Z) : string :=
  match redis_hget r (movie_key (pretty movie_id)) "title" with
  | Ok (Some title) => if str_truthy title then title else "(no title)"
  | _ => "(no title)"
  end.

(** A recommendation with its title filled in. *)
Definition with_title (r : redis) (movie : rec) : rec :=
  Rec (rec_movie_id movie) (rec_predicted_rating movie)
      (Some (title_shown r (rec_movie_id movie))).

(** The Redis commands [display_top_5_recommendations] may send for a
    user: the read and the write of the user's entry for twenty
    recommendations, and the read of a movie's title. *)
Definition display_command (user_id : Z) (c : command) : Prop :=
  c = GET (recs_cache_key user_id 20)
  ∨ (∃ payload, c = SETEX (recs_cache_key user_id 20) 600 payload)
  ∨ (∃ movie_id : Z, c = HGET (movie_key (pretty movie_id)) "title").

(** The number of results the full-text demo asks for, given the text
    typed at its second prompt. *)
Definition page_size (max_line : string) : Z :=
  let max_str := str_strip max_line in
  let asked := if str_truthy max_str then default 10 (py_int max_str) else 10 in
  Z.max 1 (Z.min 10 asked).

End Shown.

Section Session.
Context `{PyFloat} `{PyStr} `{!PyJson} `{!Neo4j} `{RediSearch}.

(** The rating hash that Redis holds for the session's user has no movie
    that the session's in-memory ratings lack. *)
Definition cache_within_memory (s : session) (w : world) : Prop :=
  ∃ h,
    redis_hgetall (cache w) (ratings_hash_key (s_user_id s)) = Ok h
    ∧ ∀ movie_id, is_Some (h !! movie_id) → is_Some (s_user_ratings s !! movie_id).

(** A line at the menu that starts nothing: it is none of the options, or
    it asks to rate while no recommendations are loaded. *)
Definition idle_choice (s : session) (line : string) : bool :=
  let choice := str_strip line in
  negb (String.eqb choice "1") && negb (String.eqb choice "2")
  && negb (String.eqb choice "0")
  && (negb (String.eqb choice "3")
      || match s_last_recommendations s with [] => true | _ :: _ => false end).

End Session.

(** ** Part 3: loading the movie hashes *)

(** [m.movieId]: an integer or a string. *)
Inductive movie_id_value :=
| IdInt (n : Z)
| IdStr (s : string).

(** [m.genres]: a list of strings, a single string, or null. *)
Inductive genres_value :=
| GenresList (l : list string)
| GenresStr (s : string)
| GenresNull.

(** A record of the scan of all [Movie] nodes; title and year may be
    null. *)
Record movie_row := MovieRow {
  mrow_movie_id : movie_id_value;
  mrow_title : option string;
  mrow_genres : genres_value;
  mrow_year : option Z
}.

(** The scan itself, [MATCH (m:Movie) RETURN ... ORDER BY movie_id], is one
    more read statement of the gateway. *)
Class MovieScan `{PyFloat} `{!Neo4j} := {
  run_all_movies : graph → list movie_row
}.

Section Loading.
Context `{PyFloat} `{PyStr} `{!PyJson} `{!Neo4j} `{RediSearch} `{!MovieScan}.

(** [str(movie_id)], which is also how the f-string of the key shows it. *)
Definition movie_id_str (v : movie_id_value) : string :=
  match v with
  | IdInt n => pretty n
  | IdStr s => s
  end.

(** [record["title"] or ""] *)
Definition title_str (title : option string) : string :=
  match title with
  | Some s => if str_truthy s then s else ""
  | None => ""
  end.

(** [record["genres"] or []], then the list joined with [" | "], or the
    string as it is. *)
Definition genres_str (v : genres_value) : string :=
  let genres_value :=
    match v with
    | GenresList (_ :: _) => v
    | GenresStr s => if str_truthy s then v else GenresList []
    | _ => GenresList []
    end in
  match genres_value with
  | GenresList l => String.concat " | " l
  | GenresStr s => s
  | GenresNull => ""
  end.

(** [str(record["year"] if record["year"] is not None else 0)] *)
Definition year_str (year : option Z) : string :=
  pretty (match year with Some y => y | None => 0 end).

Definition movie_row_key (record : movie_row) : string :=
  movie_key (movie_id_str (mrow_movie_id record)).

(** The mapping written for a record. *)
Definition movie_fields (record : movie_row) : gmap string string :=
  {[ "movie_id" := movie_id_str (mrow_movie_id record);
     "title" := title_str (mrow_title record);
     "genres" := genres_str (mrow_genres record);
     "year" := year_str (mrow_year record) ]}.

(** [for record in result: ...; count += 1] *)
Fixpoint load_movie_records (result : list movie_row) (count : Z) : M Z :=
  match result with
  | [] => mret count
  | record :: rest =>
      r_hset (movie_row_key record) (movie_fields record);;
      load_movie_records rest (count + 1)
  end.

(** The scan is not entered in the trace, whose statements are those of
    the cache-aside functions. *)
Definition load_movies_from_neo4j_into_redis : M unit :=
  print "Loading movies from Neo4j into Redis...";;
  result ← (λ w, (Ok (run_all_movies (neo w)), w));
  count ← load_movie_records result 0;
  print ("Loaded " +:+ pretty count +:+ " movie hashes into Redis.").

End Loading.

Module Shelf.
Import Dec Json Graph.

(** The scan over the property graph of the runtime.  Its movies carry
    an id and a title only, so genres and years come from a table: a list
    of genres, a single string, a missing value. *)
Definition genres_table (movie_id : Z) : genres_value :=
  if movie_id =? 7 then GenresList ["Action"; "Sci-Fi"]
  else if movie_id =? 8 then GenresList ["Action"; "Crime"]
  else if movie_id =? 9 then GenresStr "Action | Sci-Fi"
  else GenresNull.

Definition year_table (movie_id : Z) : option Z :=
  if movie_id =? 7 then Some 1977
  else if movie_id =? 8 then Some 1995
  else if movie_id =? 9 then Some 1997
  else None.

Definition all_movies (g : cgraph) : list movie_row :=
  map (λ node, MovieRow (IdInt node.1) node.2 (genres_table node.1) (year_table node.1))
      (movies g).

#[global] Instance table_MovieScan : @MovieScan dec_PyFloat graph_Neo4j := {|
  run_all_movies := all_movies
|}.

End Shelf.

(** * A small catalogue in use

    Concrete stores and console sessions, each the result of running the
    program on the runtime above. *)

Module Scenario.
Import Dec Json Graph Search.

(** Three users, three movies: Ann (1) has rated Heat; Bob (2) and an
    unnamed user (3) have rated more. *)
Definition catalog : cgraph :=
  CGraph [(1, Some "Ann"); (2, Some "Bob"); (3, None)]
         [(7, Some "Star Wars"); (8, Some "Heat"); (9, Some "Starship Troopers")]
         [(1, 8, DFin 4); (2, 8, DFin 5); (2, 7, DFin (9 # 2));
          (3, 8, DFin 3); (3, 7, DFin 4); (3, 9, DFin 2)].

Definition movie_hash (movie_id title genres year : string) : rentry :=
  REntry (RHash {[ "movie_id" := movie_id; "title" := title;
                   "genres" := genres; "year" := year ]}) None.

(** Redis after [load_movies_from_neo4j_into_redis]. *)
Definition loaded : redis :=
  Eval vm_compute in
  Redis 0 {[ "movie:7" := movie_hash "7" "Star Wars" "Action | Sci-Fi" "1977";
             "movie:8" := movie_hash "8" "Heat" "Action | Crime" "1995";
             "movie:9" := movie_hash "9" "Starship Troopers" "Action | Sci-Fi" "1997" ]}.

Definition start : world := World loaded catalog [] [].

(** The stores a run of [c] ends with, in front of a console on which
    [lines] are typed next, the trace started afresh. *)
Definition next_console {A} (lines : list string) (r : outcome A * world) : world :=
  match r with
  | (_, w) => World (cache w) (neo w) lines []
  end.

Definition nobody : session := Session 0 ∅ [].

Definition logged_in (r : outcome session * world) : session :=
  match r with
  | (Ok s, _) => s
  | (Raise _, _) => nobody
  end.

Definition after_turn (r : outcome (option session) * world) : session :=
  match r with
  | (Ok (Some s), _) => s
  | _ => nobody
  end.

(** Ann logs in on one console. *)
Definition ann_login : outcome session * world :=
  Eval vm_compute in run_user_application_login (typing ["1"] start).

Definition ann : session := Eval vm_compute in logged_in ann_login.

(** Ann logs in on a second console, asks for recommendations there, and
    rates the first of them, Star Wars, 4.5. *)
Definition second_login : outcome session * world :=
  Eval vm_compute in run_user_application_login (next_console ["1"] ann_login).

Definition second_recs : outcome (option session) * world :=
  Eval vm_compute in
  run_user_application_menu (logged_in second_login) (next_console ["2"] second_login).

Definition second_rates : outcome (option session) * world :=
  Eval vm_compute in
  run_user_application_menu (after_turn second_recs)
                            (next_console ["3"; "1"; "4.5"] second_recs).

(** The stores as the first console finds them afterwards. *)
Definition stale : world := Eval vm_compute in next_console [] second_rates.

(** An hour after Ann's log-in, nothing else having happened. *)
Definition hour_later : world :=
  Eval vm_compute in later 3600 (next_console [] ann_login).

(** What the collaborative filter returns for Ann at the start. *)
Definition star_wars : rec := Rec 7 (DFin (17 # 4)) None.

Definition first_recs : list rec := [star_wars; Rec 9 (DFin 2) None].

(** The same two with their titles, as they are displayed. *)
Definition star_wars_shown : rec := Rec 7 (DFin (17 # 4)) (Some "Star Wars").

Definition shown_recs : list rec :=
  [star_wars_shown; Rec 9 (DFin 2) (Some "Starship Troopers")].

(** What the engine finds for [@title:star] at the start, and for
    [@title:heat] an hour after Ann's log-in. *)
Definition star_hits : search_result :=
  Eval vm_compute in
  default (SearchResult 0 []) (ft_search loaded (title_query "star") 0 10).

Definition heat_doc : doc :=
  Doc "movie:8" (Some "8") (Some "1995") (Some "Heat") (Some "Action | Crime") None.

(** What Neo4j holds as Ann's rated movies. *)
Definition ann_rated : list rated := [Rated "8" (Some "Heat") (DFin 4)].

(** A recommendation for a movie that is no longer in the graph. *)
Definition lost_film : rec := Rec 99 (DFin 4) (Some "Lost Film").

(** Redis holding a rating hash for Ann with a field for movie 5, which
    the graph does not know, due in 100 seconds. *)
Definition leftover : world :=
  Eval vm_compute in
  World (Redis 0 {[ "user:1:ratings" := REntry (RHash {[ "5" := "3.0" ]}) (Some 100) ]})
        catalog [] [].

End Scenario.

(** * More of the catalogue in use *)

Module Cases.
Import Dec Json Graph Search Shelf Scenario.

(** Ann's first request for twenty recommendations, and the stores after
    it. *)
Definition first_call : outcome (list rec) * world :=
  Eval vm_compute in get_recommendations_for_user 1 20 600 start.

Definition recs_cached : world := Eval vm_compute in first_call.2.

(** The same stores ten minutes later, Bob having rated Starship
    Troopers 5 in between. *)
Definition ten_minutes_later : world :=
  Eval vm_compute in
  later 600 (World (cache recs_cached) (merge_rated catalog 2 9 (DFin 5)) [] []).

(** What the collaborative filter returns for Ann then. *)
Definition later_recs : list rec :=
  [Rec 7 (DFin (17 # 4)) None; Rec 9 (DFin (7 # 2)) None].

(** Redis with something that is not JSON under Ann's key. *)
Definition corrupt : world :=
  Eval vm_compute in
  World (put loaded "recs:user:1:k:20" (REntry (RString "oops") (Some 50)))
        catalog [] [].

(** The rated movies of Bob, who has rated Heat twice over in this list:
    the second rating is the one that counts. *)
Definition bob_rated : list rated :=
  [Rated "8" (Some "Heat") (DFin 5); Rated "7" (Some "Star Wars") (DFin (9 # 2));
   Rated "8" (Some "Heat") (DFin 3)].

(** The stores after Ann's rated movies are loaded, and an hour later. *)
Definition ann_loaded : world :=
  Eval vm_compute in (cache_user_rated_movies 1 ann_rated 3600 start).2.

Definition ann_expired : world := Eval vm_compute in later 3600 ann_loaded.

(** The stores after Ann, just logged in, is shown her top five. *)
Definition ann_shown : world :=
  Eval vm_compute in (display_top_5_recommendations 1 (s_user_ratings ann) start).2.

(** Ann's console right after her log-in. *)
Definition ann_ready : world := Eval vm_compute in next_console [] ann_login.

(** The catalogue with a string where the hash of Star Wars should be, in
    front of a console on which Ann rates her first recommendation. *)
Definition clobbered : world :=
  Eval vm_compute in
  World (put loaded "movie:7" (REntry (RString "Star Wars") None)) catalog
        ["1"; "4.5"] [].

(** The graph of the catalogue in front of a Redis that holds nothing. *)
Definition bare : world := World (Redis 0 ∅) catalog [] [].

(** The records of the scan of the catalogue. *)
Definition star_wars_row : movie_row :=
  MovieRow (IdInt 7) (Some "Star Wars") (GenresList ["Action"; "Sci-Fi"]) (Some 1977).

Definition heat_row : movie_row :=
  MovieRow (IdInt 8) (Some "Heat") (GenresList ["Action"; "Crime"]) (Some 1995).

Definition troopers_row : movie_row :=
  MovieRow (IdInt 9) (Some "Starship Troopers") (GenresStr "Action | Sci-Fi") (Some 1997).

(** A Redis in which the key of Heat holds a string. *)
Definition heat_clobbered : world :=
  World (Redis 0 {[ "movie:8" := REntry (RString "Heat") None ]}) catalog [] [].

(** No key of a scanned movie holds a string. *)
Definition scan_fits (w : world) : bool :=
  forallb (λ record,
             match live (cache w) (movie_row_key record) with
             | Some (REntry (RString _) _) => false
             | _ => true
             end)
          (run_all_movies (neo w)).


(** An engine without the index: every search is refused. *)
Definition no_index : RediSearch := {| ft_search := λ _ _ _ _, None |}.

End Cases.



(** * Properties

    The statements hold for every Python runtime, graph gateway and search
    engine that implements the interfaces. *)

Section Properties.
Context `{PyFloat} `{PyStr} `{!PyJson} `{!Neo4j} `{RediSearch}.

(** ** Keys *)

Lemma hash_key_ne_list_key u : ratings_hash_key u ≠ ratings_list_key u.
Proof.
  unfold ratings_hash_key, ratings_list_key. intros E.
  do 2 apply (inj (String.append _)) in E. discriminate E.
Qed.

Lemma movie_key_ne_hash_key m u : movie_key m ≠ ratings_hash_key u.
Proof. unfold movie_key, ratings_hash_key, String.append. discriminate. Qed.

Lemma movie_key_ne_list_key m u : movie_key m ≠ ratings_list_key u.
Proof. unfold movie_key, ratings_list_key, String.append. discriminate. Qed.

(** ** Redis commands *)

Lemma live_put_eq r k e :
  expired (clock r) e = false → live (put r k e) k = Some e.
Proof. intros E. unfold live, put; simpl. by rewrite lookup_insert_eq, E. Qed.

Lemma live_put_ne r k k' e : k ≠ k' → live (put r k e) k' = live r k'.
Proof. intros E. unfold live, put; simpl. by rewrite lookup_insert_ne. Qed.

Lemma live_Some r k e :
  live r k = Some e → keyspace r !! k = Some e ∧ expired (clock r) e = false.
Proof.
  unfold live. destruct (keyspace r !! k) as [e'|]; [|done].
  destruct (expired (clock r) e') eqn:E; [done|]. by intros [= ->].
Qed.

Lemma fresh_deadline now ttl v :
  0 < ttl → expired now (REntry v (Some (now + ttl))) = false.
Proof. intros. unfold expired; simpl. apply Z.leb_gt. lia. Qed.

Lemma expired_deadline now v v' dl :
  expired now (REntry v dl) = expired now (REntry v' dl).
Proof. done. Qed.

(** What HSET does to a key that does not hold a string. *)
Lemma redis_hset_ok r k mapping :
  mapping ≠ ∅ →
  (∀ s dl, live r k ≠ Some (REntry (RString s) dl)) →
  ∃ h,
    redis_hgetall r k = Ok h
    ∧ redis_hset r k mapping
      = Ok (put r k (REntry (RHash (mapping ∪ h))
                            (from_option deadline None (live r k))))
    ∧ expired (clock r)
        (REntry (RHash (mapping ∪ h)) (from_option deadline None (live r k)))
      = false.
Proof.
  intros Hne Htype. unfold redis_hset, redis_hgetall.
  destruct (decide (mapping = ∅)) as [|_]; [done|].
  destruct (live r k) as [[[s|h] dl]|] eqn:E; simpl.
  - by destruct (Htype s dl).
  - exists h. repeat split. by apply live_Some in E as [_ E].
  - exists ∅. by rewrite (right_id_L ∅ (∪)).
Qed.

Lemma rating_mapping_snoc (l : list rated) (m : rated) :
  rating_mapping (l ++ [m])
  = <[rated_movie_id m := rated_rating m]> (rating_mapping l).
Proof. unfold rating_mapping. by rewrite foldl_app. Qed.

Lemma rating_mapping_keys (l : list rated) (movie_id : string) :
  is_Some (rating_mapping l !! movie_id) ↔ movie_id ∈ map rated_movie_id l.
Proof.
  induction l as [|m l IH] using rev_ind.
  - unfold rating_mapping; simpl. rewrite lookup_empty.
    split; [by intros [? ?]|]. by intros ?%elem_of_nil.
  - rewrite rating_mapping_snoc, map_app, elem_of_app. simpl.
    rewrite list_elem_of_singleton, <- IH.
    destruct (decide (rated_movie_id m = movie_id)) as [->|Hne].
    + rewrite lookup_insert_eq. split; eauto.
    + rewrite lookup_insert_ne by done. split; [eauto|]. by intros [?|?].
Qed.

Lemma rating_mapping_nonempty (l : list rated) : l ≠ [] → rating_mapping l ≠ ∅.
Proof.
  destruct l as [|m l] using rev_ind; [done|]. intros _.
  rewrite rating_mapping_snoc. apply insert_non_empty.
Qed.

Lemma encode_floats_nonempty (d : gmap string pyfloat) :
  d ≠ ∅ → encode_floats d ≠ ∅.
Proof. unfold encode_floats. by rewrite fmap_empty_iff. Qed.

(** ** Traces *)

Lemma neo_runs_app t1 t2 : neo_runs (t1 ++ t2) = neo_runs t1 ++ neo_runs t2.
Proof. apply omap_app. Qed.

Lemma redis_cmds_app t1 t2 : redis_cmds (t1 ++ t2) = redis_cmds t1 ++ redis_cmds t2.
Proof. apply omap_app. Qed.

Lemma printed_app t1 t2 : printed (t1 ++ t2) = printed t1 ++ printed t2.
Proof. apply omap_app. Qed.

Lemma cache_writes_app t1 t2 :
  cache_writes (t1 ++ t2) = cache_writes t1 ++ cache_writes t2.
Proof. unfold cache_writes. by rewrite redis_cmds_app, List.filter_app. Qed.

(** ** The monad *)

(** Unfold the monad and the primitive actions and compute. *)
Ltac run :=
  repeat (progress (
    unfold mbind, mret, M_bind, M_ret, print, emit, input, raise, try_except,
      redis_read, redis_write, neo_read, neo_write,
      r_get, r_setex, r_set, r_hset, r_expire, r_delete, r_hgetall, r_hget, r_search;
    simpl)).

Lemma bind_run {A B} (c : M A) (f : A → M B) (w w' : world) (a : A) :
  c w = (Ok a, w') → (c ≫= f) w = f a w'.
Proof. intros E. unfold mbind, M_bind. by rewrite E. Qed.

Lemma bind_raise {A B} (c : M A) (f : A → M B) (w w' : world) (e : pyexn) :
  c w = (Raise e, w') → (c ≫= f) w = (Raise e, w').
Proof. intros E. unfold mbind, M_bind. by rewrite E. Qed.



(** The bulk load of a non-empty list, step by step. *)
Lemma cache_user_rated_movies_run (w : world) (user_id : Z)
    (rated_movies : list rated) :
  let hash_key := ratings_hash_key user_id in
  let list_key := ratings_list_key user_id in
  let expiry := Some (clock (cache w) + 3600) in
  rated_movies ≠ [] →
  (∀ s dl, live (cache w) hash_key ≠ Some (REntry (RString s) dl)) →
  ∃ w' h,
    cache_user_rated_movies user_id rated_movies 3600 w = (Ok tt, w')
    ∧ redis_hgetall (cache w) hash_key = Ok h
    ∧ live (cache w') hash_key
      = Some (REntry (RHash (encode_floats (rating_mapping rated_movies) ∪ h)) expiry)
    ∧ live (cache w') list_key
      = Some (REntry (RString (json_dumps_rated rated_movies)) expiry).
Proof.
  intros hash_key list_key expiry Hne Htype.
  destruct rated_movies as [|m rest]; [done|].
  unfold cache_user_rated_movies. fold hash_key list_key.
  set (mapping := rating_mapping (m :: rest)).
  destruct (redis_hset_ok (cache w) hash_key (encode_floats mapping))
    as (h & Hall & Hset & Hlive); [|done|].
  { by apply encode_floats_nonempty, rating_mapping_nonempty. }
  eexists. exists h. split.
  { run. rewrite Hset. run. unfold redis_expire.
    rewrite live_put_eq by done. simpl. reflexivity. }
  simpl. split; [done|]. split.
  - rewrite live_put_ne by (symmetry; apply hash_key_ne_list_key).
    apply live_put_eq, fresh_deadline. lia.
  - apply live_put_eq, fresh_deadline. lia.
Qed.

(** C5.  The bulk load of a user's ratings, with the expiry of 3600
    seconds its callers use.  For the empty list the mapping's key is
    deleted, so it is absent and not an empty hash, and the list key holds
    the serialised empty list, expiring in 3600 seconds.  For a non-empty
    list (the mapping's key not holding a string) both keys are written
    and both expire in 3600 seconds: the hash has every rating of the
    list, the list key its serialisation. *)
Theorem cache_user_rated_movies_writes (w : world) (user_id : Z) :
  let hash_key := ratings_hash_key user_id in
  let list_key := ratings_list_key user_id in
  let expiry := Some (clock (cache w) + 3600) in
  (∃ w',
     cache_user_rated_movies user_id [] 3600 w = (Ok tt, w')
     ∧ keyspace (cache w') !! hash_key = None
     ∧ live (cache w') list_key
       = Some (REntry (RString (json_dumps_rated [])) expiry))
  ∧ ∀ rated_movies : list rated,
      rated_movies ≠ [] →
      (∀ s dl, live (cache w) hash_key ≠ Some (REntry (RString s) dl)) →
      ∃ w' h,
        cache_user_rated_movies user_id rated_movies 3600 w = (Ok tt, w')
        ∧ live (cache w') hash_key = Some (REntry (RHash h) expiry)
        ∧ (∀ movie_id rating,
             rating_mapping rated_movies !! movie_id = Some rating →
             h !! movie_id = Some (float_repr rating))
        ∧ live (cache w') list_key
          = Some (REntry (RString (json_dumps_rated rated_movies)) expiry).
Proof.
  intros hash_key list_key expiry. split.
  - eexists. split; [unfold cache_user_rated_movies; run; reflexivity|]. simpl. split.
    + rewrite lookup_insert_ne by (symmetry; apply hash_key_ne_list_key).
      apply lookup_delete_eq.
    + apply live_put_eq, fresh_deadline. lia.
  - intros rated_movies Hne Htype.
    destruct (cache_user_rated_movies_run w user_id rated_movies Hne Htype)
      as (w' & h & Hrun & _ & Hhash & Hlist).
    exists w', (encode_floats (rating_mapping rated_movies) ∪ h).
    repeat split; try done.
    intros movie_id rating Hm. apply lookup_union_Some_l.
    unfold encode_floats. by rewrite lookup_fmap, Hm.
Qed.

(** C10.  The bulk load of a non-empty list merges into the mapping that
    is there: a field of the hash whose id does not occur in the list is
    still in the hash afterwards, with its value, although the mapping
    built from the list has nothing for it. *)
Theorem cache_user_rated_movies_merges (w : world) (user_id : Z)
    (rated_movies : list rated) (h : gmap string string) (dl : option Z)
    (field value : string) :
  let hash_key := ratings_hash_key user_id in
  rated_movies ≠ [] →
  live (cache w) hash_key = Some (REntry (RHash h) dl) →
  h !! field = Some value →
  field ∉ map rated_movie_id rated_movies →
  ∃ w' h',
    cache_user_rated_movies user_id rated_movies 3600 w = (Ok tt, w')
    ∧ redis_hgetall (cache w') hash_key = Ok h'
    ∧ h' !! field = Some value
    ∧ rating_mapping rated_movies !! field = None.
Proof.
  intros hash_key Hne Hlive Hfield Hout.
  assert (rating_mapping rated_movies !! field = None) as Hnew.
  { apply eq_None_not_Some. by rewrite rating_mapping_keys. }
  destruct (cache_user_rated_movies_run w user_id rated_movies Hne)
    as (w' & h0 & Hrun & Hold & Hhash & _).
  { intros s dl'. fold hash_key. by rewrite Hlive. }
  fold hash_key in Hold, Hhash.
  unfold redis_hgetall in Hold. rewrite Hlive in Hold. simpl in Hold.
  injection Hold as <-.
  exists w', (encode_floats (rating_mapping rated_movies) ∪ h).
  repeat split; try done.
  - unfold redis_hgetall. by rewrite Hhash.
  - rewrite lookup_union_r; [done|].
    unfold encode_floats. by rewrite lookup_fmap, Hnew.
Qed.

(** ** Rating a movie *)

(** The closing message of [rate_movie]. *)
Lemma avg_message_run (new_avg : option pyfloat) (w : world) :
  match new_avg with
  | Some avg =>
      print ("New average rating for this movie is " +:+ float_fmt 2 avg +:+ "." +:+ nl)
  | None => print ("Average rating could not be recomputed." +:+ nl)
  end w
  = (Ok tt,
     World (cache w) (neo w) (stdin w)
       (trace w ++ [Printed (match new_avg with
                             | Some avg => "New average rating for this movie is "
                                           +:+ float_fmt 2 avg +:+ "." +:+ nl
                             | None => "Average rating could not be recomputed." +:+ nl
                             end)])).
Proof. by destruct new_avg. Qed.

Lemma lookup_title_run (redis_key : string) (w : world) :
  ∃ title,
    lookup_title redis_key w
    = (Ok title, World (cache w) (neo w) (stdin w)
                       (trace w ++ [RedisCmd (HGET redis_key "title")])).
Proof.
  unfold lookup_title. run.
  destruct (redis_hget (cache w) redis_key "title"); eauto.
Qed.

(** Up to its store phase, an accepted rating only prompts and reads. *)
Lemma rate_movie_accepted (w : world) (user_id : Z) (recommendations : list rec)
    (user_ratings : gmap string pyfloat) (movie : rec) (rating : pyfloat) :
  submits recommendations w movie rating →
  ∃ title recs1 w1,
    cache w1 = cache w ∧ neo w1 = neo w
    ∧ neo_runs (trace w1) = neo_runs (trace w)
    ∧ cache_writes (trace w1) = cache_writes (trace w)
    ∧ rate_movie user_id recommendations user_ratings w
      = match rate_movie_store user_id (pretty (rec_movie_id movie)) title rating
                user_ratings w1 with
        | (Ok user_ratings', w') => (Ok (recs1, user_ratings'), w')
        | (Raise e, w') => (Raise e, w')
        end.
Proof.
  intros (choice & rating_str & rest & idx & Hin & Htruthy & Hint & Hrange & Hmovie
          & Hfloat & Hlo & Hhi).
  unfold rate_movie.
  destruct recommendations as [|rec0 recs0] eqn:Erecs; [simpl in Hrange; lia|].
  rewrite <- Erecs in *. clear Erecs rec0 recs0.
  run. rewrite Hin. simpl. rewrite Htruthy. simpl. rewrite Hint.
  destruct (Z.ltb_spec idx 1) as [|_]; [lia|].
  destruct (Z.ltb_spec (Z.of_nat (length recommendations)) idx) as [|_]; [lia|].
  simpl. rewrite Hmovie.
  destruct (negb (opt_truthy (rec_title movie))
            || bool_decide (rec_title movie = Some "(no title)")).
  - match goal with |- context [lookup_title ?k ?w0] =>
      destruct (lookup_title_run k w0) as [t ->] end.
    destruct (opt_truthy t); run; rewrite Hfloat, Hlo, Hhi; simpl;
      (eexists _, _, _; split; [|split; [|split; [|split; [|reflexivity]]]]);
      simpl; try done;
      rewrite ?neo_runs_app, ?cache_writes_app; simpl; by rewrite ?app_nil_r.
  - run. rewrite Hfloat, Hlo, Hhi. simpl.
    (eexists _, _, _; split; [|split; [|split; [|split; [|reflexivity]]]]);
      simpl; try done;
      rewrite ?neo_runs_app, ?cache_writes_app; simpl; by rewrite ?app_nil_r.
Qed.

Lemma redis_hset_frame r r' k mapping :
  redis_hset r k mapping = Ok r' →
  clock r' = clock r ∧ ∀ k', k' ≠ k → keyspace r' !! k' = keyspace r !! k'.
Proof.
  unfold redis_hset. destruct (decide (mapping = ∅)); [done|].
  destruct (live r k) as [[[s|h] dl]|]; simpl; intros [= <-]; simpl;
    (split; [done|]); intros k' Hne; by rewrite lookup_insert_ne.
Qed.

Lemma live_frame r r' k :
  clock r' = clock r → keyspace r' !! k = keyspace r !! k → live r' k = live r k.
Proof. unfold live. by intros -> ->. Qed.

Lemma store_avg_rating_run (w0 : world) (redis_key : string)
    (new_avg : option pyfloat) :
  ∃ c tr,
    store_avg_rating redis_key new_avg w0
    = (Ok tt, World c (neo w0) (stdin w0) (trace w0 ++ tr))
    ∧ clock c = clock (cache w0)
    ∧ (∀ k, k ≠ redis_key ∨ new_avg = None → keyspace c !! k = keyspace (cache w0) !! k)
    ∧ neo_runs tr = []
    ∧ cache_writes tr
      = match new_avg with
        | Some avg => [HSET redis_key {["avg_rating" := float_repr avg]}]
        | None => []
        end.
Proof.
  unfold store_avg_rating. destruct new_avg as [avg|]; run.
  - destruct (redis_hset (cache w0) redis_key {["avg_rating" := float_repr avg]})
      as [r'|e] eqn:E.
    + apply redis_hset_frame in E as [Hclock Hkeys].
      eexists _, [_]. split; [reflexivity|]. repeat split; try done.
      intros k [Hk|?]; [auto|done].
    + simpl. eexists _, [_; _]. rewrite <- app_assoc. split; [reflexivity|]. done.
  - exists (cache w0), []. rewrite app_nil_r. repeat split; try done.
    by destruct w0.
Qed.

(** Steps 1 to 4, when the movie id reads back as a number and the user's
    rating key does not hold a string. *)
Lemma rate_movie_store_run (w : world) (user_id : Z) (movie_id title : string)
    (rating : pyfloat) (user_ratings : gmap string pyfloat) (movie_int : Z) :
  let hash_key := ratings_hash_key user_id in
  let new_avg := recomputed (neo w) user_id movie_int rating in
  py_int movie_id = Some movie_int →
  (∀ s dl, live (cache w) hash_key ≠ Some (REntry (RString s) dl)) →
  ∃ w' h t,
    rate_movie_store user_id movie_id title rating user_ratings w
    = (Ok (<[movie_id := rating]> user_ratings), w')
    ∧ neo w' = run_merge_rated (neo w) user_id movie_int rating
    ∧ neo_runs (trace w')
      = neo_runs (trace w)
        ++ [CyMergeRated user_id movie_int rating; CyAvgRating movie_int]
    ∧ cache_writes (trace w')
      = cache_writes (trace w)
        ++ match new_avg with
           | Some avg => [HSET (movie_key movie_id) {["avg_rating" := float_repr avg]}]
           | None => []
           end
        ++ [HSET hash_key {[movie_id := float_repr rating]}]
    ∧ trace w'
      = t ++ [Printed (match new_avg with
                       | Some avg => "New average rating for this movie is "
                                     +:+ float_fmt 2 avg +:+ "." +:+ nl
                       | None => "Average rating could not be recomputed." +:+ nl
                       end)]
    ∧ redis_hgetall (cache w) hash_key = Ok h
    ∧ live (cache w') hash_key
      = Some (REntry (RHash ({[movie_id := float_repr rating]} ∪ h))
                     (from_option deadline None (live (cache w) hash_key)))
    ∧ clock (cache w') = clock (cache w)
    ∧ ∀ k, k ≠ hash_key → (k ≠ movie_key movie_id ∨ new_avg = None) →
           keyspace (cache w') !! k = keyspace (cache w) !! k.
Proof.
  intros hash_key new_avg Hint Htype.
  set (w2 := World (cache w) (run_merge_rated (neo w) user_id movie_int rating)
                   (stdin w)
                   ((trace w ++ [Neo4jRun (CyMergeRated user_id movie_int rating)])
                    ++ [Neo4jRun (CyAvgRating movie_int)])).
  destruct (store_avg_rating_run w2 (movie_key movie_id) new_avg)
    as (c & tr & Hstep3 & Hclock & Hkeys & Hneo & Hwr).
  simpl in Hclock, Hkeys.
  assert (live c hash_key = live (cache w) hash_key) as Hlive.
  { apply live_frame; [done|]. apply Hkeys. left.
    intros E. symmetry in E. by apply movie_key_ne_hash_key in E. }
  destruct (redis_hset_ok c hash_key {[movie_id := float_repr rating]})
    as (h & Hall & Hset & Hnew).
  { apply insert_non_empty. }
  { intros s dl. rewrite Hlive. apply Htype. }
  eexists _, h, _. split.
  { unfold rate_movie_store. rewrite Hint.
    erewrite bind_run by reflexivity.
    erewrite bind_run by reflexivity.
    fold (recomputed (neo w) user_id movie_int rating). fold new_avg. fold w2.
    erewrite bind_run by exact Hstep3.
    erewrite bind_run
      by (unfold r_hset, redis_write; simpl; unfold hash_key in Hset;
          rewrite Hset; reflexivity).
    erewrite bind_run by reflexivity.
    erewrite bind_run by apply avg_message_run.
    reflexivity. }
  simpl. split; [done|]. split.
  { rewrite !neo_runs_app, Hneo. simpl. by rewrite ?app_nil_r, <- ?app_assoc. }
  split.
  { rewrite !cache_writes_app, Hwr. simpl. by rewrite ?app_nil_r, <- ?app_assoc. }
  split; [reflexivity|].
  split.
  { unfold redis_hgetall in *. by rewrite <- Hlive. }
  split.
  { rewrite <- Hlive. by apply live_put_eq. }
  split; [done|].
  intros k Hk1 Hk2. rewrite lookup_insert_ne by done. by apply Hkeys.
Qed.

(** An accepted rating, from the first prompt to the last message. *)
Lemma rate_movie_run (w : world) (user_id : Z) (recommendations : list rec)
    (user_ratings : gmap string pyfloat) (movie : rec) (rating : pyfloat)
    (movie_int : Z) :
  let movie_id := pretty (rec_movie_id movie) in
  let hash_key := ratings_hash_key user_id in
  let new_avg := recomputed (neo w) user_id movie_int rating in
  submits recommendations w movie rating →
  py_int movie_id = Some movie_int →
  (∀ s dl, live (cache w) hash_key ≠ Some (REntry (RString s) dl)) →
  ∃ recs' w' h t,
    rate_movie user_id recommendations user_ratings w
    = (Ok (recs', <[movie_id := rating]> user_ratings), w')
    ∧ neo w' = run_merge_rated (neo w) user_id movie_int rating
    ∧ neo_runs (trace w')
      = neo_runs (trace w)
        ++ [CyMergeRated user_id movie_int rating; CyAvgRating movie_int]
    ∧ cache_writes (trace w')
      = cache_writes (trace w)
        ++ match new_avg with
           | Some avg => [HSET (movie_key movie_id) {["avg_rating" := float_repr avg]}]
           | None => []
           end
        ++ [HSET hash_key {[movie_id := float_repr rating]}]
    ∧ trace w'
      = t ++ [Printed (match new_avg with
                       | Some avg => "New average rating for this movie is "
                                     +:+ float_fmt 2 avg +:+ "." +:+ nl
                       | None => "Average rating could not be recomputed." +:+ nl
                       end)]
    ∧ redis_hgetall (cache w) hash_key = Ok h
    ∧ live (cache w') hash_key
      = Some (REntry (RHash ({[movie_id := float_repr rating]} ∪ h))
                     (from_option deadline None (live (cache w) hash_key)))
    ∧ clock (cache w') = clock (cache w)
    ∧ ∀ k, k ≠ hash_key → (k ≠ movie_key movie_id ∨ new_avg = None) →
           keyspace (cache w') !! k = keyspace (cache w) !! k.
Proof.
  intros movie_id hash_key new_avg Hsub Hint Htype.
  subst movie_id hash_key new_avg.
  destruct (rate_movie_accepted w user_id recommendations user_ratings movie rating Hsub)
    as (title & recs1 & w1 & Hc & Hn & Hnr & Hcw & ->).
  destruct (rate_movie_store_run w1 user_id (pretty (rec_movie_id movie)) title
              rating user_ratings movie_int Hint)
    as (w' & h & t & -> & Hneo & Hruns & Hwrites & Htrace & Hall & Hlive & Hclock & Hkeys).
  { rewrite Hc. apply Htype. }
  rewrite Hn, Hc in *. rewrite Hnr in Hruns. rewrite Hcw in Hwrites.
  by exists recs1, w', h, t.
Qed.

Lemma get_cached_user_ratings_inv (w w0 : world) (user_id : Z)
    (m0 : gmap string pyfloat) :
  get_cached_user_ratings user_id w = (Ok m0, w0) →
  ∃ h, redis_hgetall (cache w) (ratings_hash_key user_id) = Ok h
       ∧ map_Forall (λ _ v, is_Some (py_float v)) h
       ∧ m0 = omap py_float h.
Proof.
  unfold get_cached_user_ratings, mbind, M_bind, r_hgetall, redis_read. simpl.
  destruct (redis_hgetall (cache w) (ratings_hash_key user_id)) as [h|e]; [|done].
  destruct (decide _) as [Hall|]; [|done].
  intros [= <- _]. by exists h.
Qed.

Lemma get_cached_user_ratings_run (w : world) (user_id : Z)
    (h : gmap string string) :
  redis_hgetall (cache w) (ratings_hash_key user_id) = Ok h →
  map_Forall (λ _ v, is_Some (py_float v)) h →
  ∃ w', get_cached_user_ratings user_id w = (Ok (omap py_float h), w').
Proof.
  intros Hall Hfloat.
  unfold get_cached_user_ratings, mbind, M_bind, r_hgetall, redis_read. simpl.
  rewrite Hall. destruct (decide _); [|done]. by eexists.
Qed.

(** C4.  A rating in [0.5, 5.0] is accepted while the user's cached
    mapping is readable.  Then [rate_movie] completes, and reading the
    cached mapping right after it gives the mapping read before with the
    movie set to the new rating; no expiry has to be waited for.  The key
    of the list form is exactly as before.  The movie id written by [str]
    reads back through [int], without which the call would raise; the
    last hypothesis is the fact about Python floats that [float(repr(x))]
    is [x]. *)
Theorem rate_movie_updates_cached_ratings (w w0 : world) (user_id : Z)
    (recommendations : list rec) (user_ratings m0 : gmap string pyfloat)
    (movie : rec) (rating : pyfloat) (movie_int : Z) :
  let movie_id := pretty (rec_movie_id movie) in
  submits recommendations w movie rating →
  py_int movie_id = Some movie_int →
  get_cached_user_ratings user_id w = (Ok m0, w0) →
  py_float (float_repr rating) = Some rating →
  ∃ recs' w' w'',
    rate_movie user_id recommendations user_ratings w
    = (Ok (recs', <[movie_id := rating]> user_ratings), w')
    ∧ get_cached_user_ratings user_id w' = (Ok (<[movie_id := rating]> m0), w'')
    ∧ keyspace (cache w') !! ratings_list_key user_id
      = keyspace (cache w) !! ratings_list_key user_id.
Proof.
  intros movie_id Hsub Hint Hread Hrepr.
  apply get_cached_user_ratings_inv in Hread as (h & Hall & Hfloat & ->).
  destruct (rate_movie_run w user_id recommendations user_ratings movie rating
              movie_int Hsub Hint)
    as (recs' & w' & h' & t & Hrun & _ & _ & _ & _ & Hall' & Hlive & _ & Hkeys).
  { intros s dl E. unfold redis_hgetall in Hall. by rewrite E in Hall. }
  rewrite Hall in Hall'. injection Hall' as <-. fold movie_id in Hlive, Hrun.
  destruct (get_cached_user_ratings_run w' user_id
              ({[movie_id := float_repr rating]} ∪ h)) as [w'' Hread'].
  { unfold redis_hgetall. by rewrite Hlive. }
  { apply map_Forall_union_2; [|done].
    apply map_Forall_singleton. by rewrite Hrepr. }
  exists recs', w', w''. split; [done|]. split.
  - rewrite Hread'. f_equal. f_equal. apply map_eq. intros k.
    rewrite lookup_omap, lookup_union.
    destruct (decide (k = movie_id)) as [->|Hne].
    + rewrite lookup_singleton_eq, lookup_insert_eq.
      destruct (h !! movie_id); simpl; by rewrite Hrepr.
    + rewrite lookup_singleton_ne, lookup_insert_ne by done.
      rewrite lookup_omap. by destruct (h !! k).
  - apply Hkeys; [symmetry; apply hash_key_ne_list_key|].
    left. symmetry. apply movie_key_ne_list_key.
Qed.

(** C9.  The point update of [rate_movie] never sets an expiry on the
    user's rating hash.  The call's writes to Redis are HSETs only.  If
    the hash was live, its deadline is the one it had; if it was absent or
    expired, the hash is created without a deadline and stays live however
    much time passes.  The hypotheses are those under which the update is
    reached and goes through. *)
Theorem rate_movie_leaves_expiry (w : world) (user_id : Z)
    (recommendations : list rec) (user_ratings : gmap string pyfloat)
    (movie : rec) (rating : pyfloat) (movie_int : Z) :
  let movie_id := pretty (rec_movie_id movie) in
  let hash_key := ratings_hash_key user_id in
  submits recommendations w movie rating →
  py_int movie_id = Some movie_int →
  (∀ s dl, live (cache w) hash_key ≠ Some (REntry (RString s) dl)) →
  ∃ recs' w' e',
    rate_movie user_id recommendations user_ratings w
    = (Ok (recs', <[movie_id := rating]> user_ratings), w')
    ∧ cache_writes (trace w')
      = cache_writes (trace w)
        ++ match recomputed (neo w) user_id movie_int rating with
           | Some avg => [HSET (movie_key movie_id) {["avg_rating" := float_repr avg]}]
           | None => []
           end
        ++ [HSET hash_key {[movie_id := float_repr rating]}]
    ∧ live (cache w') hash_key = Some e'
    ∧ (∀ e, live (cache w) hash_key = Some e → deadline e' = deadline e)
    ∧ (live (cache w) hash_key = None →
       deadline e' = None ∧ ∀ d, live (advance d (cache w')) hash_key = Some e').
Proof.
  intros movie_id hash_key Hsub Hint Htype.
  destruct (rate_movie_run w user_id recommendations user_ratings movie rating
              movie_int Hsub Hint Htype)
    as (recs' & w' & h & t & Hrun & _ & _ & Hwrites & _ & _ & Hlive & _ & _).
  fold movie_id hash_key in Hlive, Hwrites, Hrun.
  eexists recs', w', _. split; [done|]. split; [done|]. split; [exact Hlive|].
  simpl. split.
  - by intros e ->.
  - intros Hnone. rewrite Hnone. simpl. split; [done|]. intros d.
    apply live_Some in Hlive as [Hkey _]. rewrite Hnone in Hkey.
    unfold live, advance. simpl. by rewrite Hkey.
Qed.

(** Close a goal about a run that only printed. *)
Ltac quiet :=
  simpl; rewrite ?neo_runs_app, ?cache_writes_app; simpl;
  rewrite ?app_nil_r; eauto 10.

(** C8.  When the text typed for the rating does not parse as a float, or
    parses to a value outside [0.5, 5.0], [rate_movie] changes nothing:
    Redis and the graph are as before, no Cypher statement is run, no
    write is sent to Redis, the call returns normally, and the in-memory
    ratings are unchanged. *)
Theorem rate_movie_rejects_invalid_rating (w w' : world) (user_id : Z)
    (recommendations : list rec) (user_ratings : gmap string pyfloat)
    (choice rating_str : string) (rest : list string)
    (o : outcome (list rec * gmap string pyfloat)) :
  stdin w = choice :: rating_str :: rest →
  (∀ rating, py_float (str_strip rating_str) = Some rating →
             float_le lit_0_5 rating && float_le rating lit_5_0 = false) →
  rate_movie user_id recommendations user_ratings w = (o, w') →
  cache w' = cache w
  ∧ neo w' = neo w
  ∧ neo_runs (trace w') = neo_runs (trace w)
  ∧ cache_writes (trace w') = cache_writes (trace w)
  ∧ ∃ recs', o = Ok (recs', user_ratings).
Proof.
  intros Hin Hbad. unfold rate_movie.
  destruct recommendations as [|rec0 recs0] eqn:Erecs.
  { run. intros [= <- <-]. quiet. }
  rewrite <- Erecs. clear Erecs rec0 recs0.
  run. rewrite Hin. simpl.
  destruct (str_truthy (str_strip choice)); simpl; [|intros [= <- <-]; quiet].
  destruct (py_int (str_strip choice)) as [idx|]; [|intros [= <- <-]; quiet].
  destruct (if (idx <? 1) || (Z.of_nat (length recommendations) <? idx)
            then None else recommendations !! Z.to_nat (idx - 1)) as [movie|];
    [|intros [= <- <-]; quiet].
  assert (∀ title recs1 w1,
    cache w1 = cache w → neo w1 = neo w → stdin w1 = rating_str :: rest →
    neo_runs (trace w1) = neo_runs (trace w) →
    cache_writes (trace w1) = cache_writes (trace w) →
    (raw ← input ("Enter your rating for '" +:+ title +:+ "' (0.5 - 5.0): ");
     let rating_str := str_strip raw in
     match py_float rating_str with
     | None =>
         print ("Invalid rating. Rating cancelled." +:+ nl);;
         mret (recs1, user_ratings)
     | Some rating_val =>
         if negb (float_le lit_0_5 rating_val && float_le rating_val lit_5_0)
         then
           print ("Rating must be between 0.5 and 5.0. Rating cancelled." +:+ nl);;
           mret (recs1, user_ratings)
         else
           user_ratings ← rate_movie_store user_id (pretty (rec_movie_id movie))
                            title rating_val user_ratings;
           mret (recs1, user_ratings)
     end) w1 = (o, w') →
    cache w' = cache w ∧ neo w' = neo w
    ∧ neo_runs (trace w') = neo_runs (trace w)
    ∧ cache_writes (trace w') = cache_writes (trace w)
    ∧ ∃ recs', o = Ok (recs', user_ratings)) as Hrating.
  { intros title recs1 w1 Hc Hn Hs Hr Hw. run. rewrite Hs. simpl.
    destruct (py_float (str_strip rating_str)) as [rating|] eqn:Efloat.
    - rewrite (Hbad rating eq_refl). simpl. intros [= <- <-].
      simpl. rewrite neo_runs_app, cache_writes_app, !neo_runs_app, !cache_writes_app.
      simpl. rewrite !app_nil_r. eauto 10.
    - intros [= <- <-].
      simpl. rewrite neo_runs_app, cache_writes_app, !neo_runs_app, !cache_writes_app.
      simpl. rewrite !app_nil_r. eauto 10. }
  destruct (negb (opt_truthy (rec_title movie))
            || bool_decide (rec_title movie = Some "(no title)")).
  - match goal with |- context [lookup_title ?k ?w0] =>
      destruct (lookup_title_run k w0) as [t ->] end.
    destruct (opt_truthy t); apply Hrating; simpl; try done;
      rewrite ?neo_runs_app, ?cache_writes_app; simpl; by rewrite ?app_nil_r.
  - apply Hrating; simpl; try done;
      rewrite ?neo_runs_app, ?cache_writes_app; simpl; by rewrite ?app_nil_r.
Qed.

(** ** Recommendations *)

(** A call writes to the cache at most once, and then what it writes is
    the list exactly as the query returned it. *)
Lemma get_recommendations_writes (w w1 : world) (user_id k ttl : Z)
    (o : outcome (list rec)) :
  get_recommendations_for_user user_id k ttl w = (o, w1) →
  neo w1 = neo w
  ∧ ∃ ws,
      cache_writes (trace w1) = cache_writes (trace w) ++ ws
      ∧ (ws = []
         ∨ ws = [SETEX (recs_cache_key user_id k) ttl
                   (json_dumps_recs
                      (map (λ row, Rec row.1 row.2 None)
                           (run_top_k (neo w) user_id k)))]).
Proof.
  unfold get_recommendations_for_user. run.
  destruct (redis_get (cache w) (recs_cache_key user_id k)) as [[cached|]|e]; simpl.
  - destruct (json_loads_recs cached) as [recs|]; simpl.
    + intros [= <- <-]. simpl. split; [done|]. exists [].
      rewrite !cache_writes_app. simpl. rewrite !app_nil_r. auto.
    + destruct (redis_setex _ _ _ _); intros [= <- <-]; simpl; (split; [done|]);
        rewrite !cache_writes_app; simpl; rewrite !app_nil_r;
        eexists; (split; [reflexivity|]); by right.
  - destruct (redis_setex _ _ _ _); intros [= <- <-]; simpl; (split; [done|]);
        rewrite !cache_writes_app; simpl; rewrite !app_nil_r;
        eexists; (split; [reflexivity|]); by right.
  - intros [= <- <-]. simpl. split; [done|]. exists [].
    rewrite !cache_writes_app. simpl. rewrite !app_nil_r. auto.
Qed.

Lemma enrich_titles_run (top_5 : list rec) (w : world) :
  ∃ top_5' w',
    enrich_titles top_5 w = (Ok top_5', w')
    ∧ map rec_movie_id top_5' = map rec_movie_id top_5
    ∧ cache w' = cache w ∧ neo w' = neo w
    ∧ neo_runs (trace w') = neo_runs (trace w)
    ∧ cache_writes (trace w') = cache_writes (trace w).
Proof.
  revert w. induction top_5 as [|rec rest IH]; intros w.
  - by exists [], w.
  - simpl.
    destruct (lookup_title_run (movie_key (pretty (rec_movie_id rec))) w) as [t Ht].
    erewrite bind_run by exact Ht.
    match goal with |- context [enrich_titles rest ≫= _] => idtac end.
    destruct (IH (World (cache w) (neo w) (stdin w)
                    (trace w ++ [RedisCmd (HGET (movie_key (pretty (rec_movie_id rec)))
                                               "title")])))
      as (rest' & w' & Hrun & Hids & Hc & Hn & Hr & Hw).
    erewrite bind_run by exact Hrun.
    eexists _, w'. split; [reflexivity|]. simpl in *.
    rewrite Hids, Hr, Hw, neo_runs_app, cache_writes_app. simpl.
    by rewrite !app_nil_r.
Qed.

Lemma print_recommendations_run (top_5 : list rec) (idx : Z) (w : world) :
  ∃ w',
    print_recommendations idx top_5 w = (Ok tt, w')
    ∧ cache w' = cache w ∧ neo w' = neo w
    ∧ neo_runs (trace w') = neo_runs (trace w)
    ∧ cache_writes (trace w') = cache_writes (trace w).
Proof.
  revert idx w. induction top_5 as [|rec rest IH]; intros idx w.
  - by exists w.
  - simpl. erewrite bind_run by reflexivity.
    match goal with |- context [print_recommendations ?i rest ?w0] =>
      destruct (IH i w0) as (w' & -> & Hc & Hn & Hr & Hw) end.
    exists w'. simpl in *. rewrite Hr, Hw, neo_runs_app, cache_writes_app. simpl.
    by rewrite !app_nil_r.
Qed.

Lemma unseen_spec (user_ratings : gmap string pyfloat) (all_recs : list rec)
    (rec : rec) :
  rec ∈ unseen user_ratings all_recs →
  user_ratings !! pretty (rec_movie_id rec) = None.
Proof.
  unfold unseen. rewrite list_elem_of_In, List.filter_In. intros [_ E].
  unfold dict_contains in E. by destruct (user_ratings !! _).
Qed.

(** C1, as the code has it.  Whatever [display_top_5_recommendations]
    returns, no entry of it has its id, as text, among the keys of the
    [user_ratings] dict the caller passed in.  The filter runs on every
    call, after the list has been obtained: the only thing a call may
    write to the cache is the list exactly as the collaborative filter
    returned it. *)
Theorem display_top_5_filters_by_argument (w w' : world) (user_id : Z)
    (user_ratings : gmap string pyfloat) (o : outcome (list rec)) :
  display_top_5_recommendations user_id user_ratings w = (o, w') →
  (∀ recs rec, o = Ok recs → rec ∈ recs →
               user_ratings !! pretty (rec_movie_id rec) = None)
  ∧ ∃ ws,
      cache_writes (trace w') = cache_writes (trace w) ++ ws
      ∧ (ws = []
         ∨ ws = [SETEX (recs_cache_key user_id 20) 600
                   (json_dumps_recs
                      (map (λ row, Rec row.1 row.2 None)
                           (run_top_k (neo w) user_id 20)))]).
Proof.
  unfold display_top_5_recommendations. unfold mbind at 1, M_bind at 1.
  destruct (get_recommendations_for_user user_id 20 600 w) as [o1 w1] eqn:Hget.
  apply get_recommendations_writes in Hget as (Hneo & ws & Hws & Hshape).
  destruct o1 as [all_recs|e]; [|intros [= <- <-]; split; [done|eauto]].
  destruct all_recs as [|rec0 recs0] eqn:Eall.
  { run. intros [= <- <-]. split.
    - intros recs rec [= <-]. by intros ?%elem_of_nil.
    - simpl. rewrite cache_writes_app. simpl. rewrite app_nil_r. eauto. }
  rewrite <- Eall. clear Eall rec0 recs0.
  destruct (take 5 (unseen user_ratings all_recs)) as [|rec0 recs0] eqn:Etop.
  { run. intros [= <- <-]. split.
    - intros recs rec [= <-]. by intros ?%elem_of_nil.
    - simpl. rewrite cache_writes_app. simpl. rewrite app_nil_r. eauto. }
  rewrite <- Etop.
  destruct (enrich_titles_run (take 5 (unseen user_ratings all_recs)) w1)
    as (top_5 & w2 & Hen & Hids & _ & _ & _ & Hw2).
  erewrite bind_run by exact Hen.
  erewrite bind_run by reflexivity.
  cbv beta.
  match goal with |- (print_recommendations 1 top_5 ≫= _) ?w0 = _ → _ =>
    destruct (print_recommendations_run top_5 1 w0) as (w3 & Hpr & _ & _ & _ & Hw3) end.
  erewrite bind_run by exact Hpr.
  erewrite bind_run by reflexivity.
  intros [= <- <-]. split.
  - intros recs rec [= <-] Hin.
    assert (rec_movie_id rec ∈ map rec_movie_id top_5) as Hid
      by (by apply list_elem_of_fmap_2).
    rewrite Hids in Hid. apply list_elem_of_fmap in Hid as (rec' & -> & Hin').
    apply elem_of_take in Hin' as (i & Hin' & _).
    apply list_elem_of_lookup_2 in Hin'. by apply unseen_spec in Hin'.
  - simpl. rewrite cache_writes_app, Hw3. simpl in *.
    rewrite cache_writes_app, Hw2. simpl. rewrite !app_nil_r. eauto.
Qed.

(** ** Search *)

Lemma show_doc_with_context_run (user_ratings : gmap string pyfloat) (d : doc)
    (w : world) :
  show_doc_with_context user_ratings d w
  = (Ok tt, World (cache w) (neo w) (stdin w)
                  (trace w ++ map Printed (context_lines user_ratings d))).
Proof. unfold show_doc_with_context. run. by rewrite <- !app_assoc. Qed.

Lemma for_each_show_doc (user_ratings : gmap string pyfloat) (l : list doc)
    (w : world) :
  for_each (show_doc_with_context user_ratings) l w
  = (Ok tt, World (cache w) (neo w) (stdin w)
                  (trace w ++ map Printed (concat (map (context_lines user_ratings) l)))).
Proof.
  revert w. induction l as [|d l IH]; intros w.
  - simpl. rewrite app_nil_r. by destruct w.
  - cbn [for_each]. erewrite bind_run by apply show_doc_with_context_run.
    rewrite IH. cbn [cache neo stdin trace map concat].
    by rewrite map_app, app_assoc.
Qed.

Lemma for_each_show_plain (l : list doc) (w : world) :
  ∃ w', for_each show_plain_doc l w = (Ok tt, w')
        ∧ redis_cmds (trace w') = redis_cmds (trace w).
Proof.
  revert w. induction l as [|d l IH]; intros w.
  - by exists w.
  - cbn [for_each]. erewrite bind_run by reflexivity.
    match goal with |- context [for_each show_plain_doc l ?w0] =>
      destruct (IH w0) as (w' & -> & Hcmds) end.
    exists w'. split; [done|]. rewrite Hcmds. simpl.
    rewrite redis_cmds_app. simpl. by rewrite app_nil_r.
Qed.

Lemma printed_map_Printed (lines : list string) : printed (map Printed lines) = lines.
Proof.
  induction lines as [|s lines IH]; [done|].
  change (printed (map Printed (s :: lines))) with (s :: printed (map Printed lines)).
  by rewrite IH.
Qed.

Lemma redis_cmds_map_Printed (lines : list string) : redis_cmds (map Printed lines) = [].
Proof.
  induction lines as [|s lines IH]; [done|].
  change (redis_cmds (map Printed (s :: lines))) with (redis_cmds (map Printed lines)).
  by rewrite IH.
Qed.

(** C6, as the code has it.  For every document of a search that found
    something, the lines printed are those of [context_lines]: "seen" says
    whether the document's movie id is a key of the [user_ratings] dict
    the caller passed in, and the rating shown is that dict's value for
    it, or N/A.  The call sends one command to Redis, the search itself;
    the rating cache is not read. *)
Theorem search_annotates_from_argument (w : world) (user_id : Z)
    (user_ratings : gmap string pyfloat) (line : string) (rest : list string)
    (res : search_result) :
  let search_term := str_strip line in
  let query_str := title_query search_term in
  stdin w = line :: rest →
  str_truthy search_term = true →
  ft_search (cache w) query_str 0 10 = Some res →
  total res ≠ 0 →
  ∃ w' header,
    search_movies_with_user_context user_id user_ratings w = (Ok tt, w')
    ∧ cache w' = cache w
    ∧ redis_cmds (trace w') = redis_cmds (trace w) ++ [FT_SEARCH query_str 0 10]
    ∧ printed (trace w')
      = printed (trace w) ++ [header]
        ++ concat (map (context_lines user_ratings) (docs res)) ++ [""]
    ∧ ∀ d,
        (has_seen user_ratings d = true ↔ is_Some (user_ratings !! doc_movie_key d))
        ∧ user_rating_str user_ratings d
          = match user_ratings !! doc_movie_key d with
            | Some x => float_fmt 1 x
            | None => "N/A"
            end.
Proof.
  intros search_term query_str Hin Htruthy Hsearch Htotal.
  apply Z.eqb_neq in Htotal.
  eexists _, _. split.
  { unfold search_movies_with_user_context. run. rewrite Hin. simpl.
    fold search_term. rewrite Htruthy. simpl. fold query_str. rewrite Hsearch. simpl.
    rewrite Htotal.
    rewrite for_each_show_doc. simpl. reflexivity. }
  simpl. split; [done|]. split.
  { rewrite !redis_cmds_app, redis_cmds_map_Printed. simpl. by rewrite !app_nil_r. }
  split.
  { rewrite !printed_app, printed_map_Printed. simpl.
    rewrite !app_nil_r, <- !app_assoc. reflexivity. }
  intros d. unfold user_rating_str, has_seen, dict_contains.
  destruct (user_ratings !! doc_movie_key d); split; try done;
    split; try done; eauto.
Qed.

(** C7, as the code has it.  Given non-blank text, the full-text demo
    sends it to the engine as typed (stripped of surrounding white space),
    asking for between 1 and 10 results from offset 0.  The search with
    user context sends the stripped text scoped to the title field,
    [@title:text], with the text in parentheses when it has a space, and
    asks for 10 results.  Neither sends any other command. *)
Theorem search_query_strings (w : world) (user_id : Z)
    (user_ratings : gmap string pyfloat) (line max_line : string)
    (rest : list string) :
  let term := str_strip line in
  str_truthy term = true →
  (∃ o w' n,
     redis_fulltext_search_demo (typing (line :: max_line :: rest) w) = (o, w')
     ∧ 1 ≤ n ≤ 10
     ∧ redis_cmds (trace w') = redis_cmds (trace w) ++ [FT_SEARCH term 0 n])
  ∧ (∃ o w',
       search_movies_with_user_context user_id user_ratings (typing (line :: rest) w)
       = (o, w')
       ∧ redis_cmds (trace w')
         = redis_cmds (trace w)
           ++ [FT_SEARCH (if has_space term then "@title:(" +:+ term +:+ ")"
                          else "@title:" +:+ term) 0 10]).
Proof.
  intros term Htruthy. split.
  - unfold redis_fulltext_search_demo. run. fold term. rewrite Htruthy. simpl.
    set (n := if 10 <? _ then 10 else _).
    assert (1 ≤ n ≤ 10) as Hn.
    { subst n. repeat match goal with |- context [if ?b then _ else _] =>
        destruct b eqn:? end; lia. }
    clearbody n.
    destruct (ft_search (cache w) term 0 n) as [res|]; simpl.
    + destruct ((total res =? 0) || Nat.eqb (length (docs res)) 0); simpl.
      * eexists _, _, n. split; [reflexivity|]. split; [done|]. simpl.
        rewrite !redis_cmds_app. simpl. by rewrite !app_nil_r.
      * match goal with |- context [for_each show_plain_doc ?l ?w0] =>
          destruct (for_each_show_plain l w0) as (w' & -> & Hcmds) end.
        eexists _, _, n. split; [reflexivity|]. split; [done|]. simpl.
        rewrite redis_cmds_app, Hcmds. simpl.
        rewrite !redis_cmds_app. simpl. by rewrite !app_nil_r.
    + eexists _, _, n. split; [reflexivity|]. split; [done|]. simpl.
      rewrite !redis_cmds_app. simpl. by rewrite !app_nil_r.
  - unfold search_movies_with_user_context. run. fold term. rewrite Htruthy. simpl.
    change (if has_space term then "@title:(" +:+ term +:+ ")" else "@title:" +:+ term)
      with (title_query term).
    destruct (ft_search (cache w) (title_query term) 0 10) as [res|]; simpl.
    + destruct (total res =? 0); simpl.
      * eexists _, _. split; [reflexivity|]. simpl.
        rewrite !redis_cmds_app. simpl. by rewrite !app_nil_r.
      * rewrite for_each_show_doc. simpl.
        eexists _, _. split; [reflexivity|]. simpl.
        rewrite !redis_cmds_app, redis_cmds_map_Printed. simpl. by rewrite !app_nil_r.
    + eexists _, _. split; [reflexivity|]. simpl.
      rewrite !redis_cmds_app. simpl. by rewrite !app_nil_r.
Qed.

End Properties.

(** * The average query failing *)

Section DriverProperties.
Context `{PyFloat} `{PyStr} `{!PyJson} `{!Neo4j} `{RediSearch}.

(** Unfold the monad and the primitive actions and compute. *)
Ltac run :=
  repeat (progress (
    unfold mbind, mret, M_bind, M_ret, print, emit, input, raise, try_except,
      redis_read, redis_write, neo_read, neo_write,
      r_get, r_setex, r_set, r_hset, r_expire, r_delete, r_hgetall, r_hget, r_search;
    simpl)).

(** With a driver that answers, [rate_movie_via] is [rate_movie]. *)
Lemma rate_movie_via_answering (user_id : Z) (recommendations : list rec)
    (user_ratings : gmap string pyfloat) :
  rate_movie_via answering user_id recommendations user_ratings
  = rate_movie user_id recommendations user_ratings.
Proof. reflexivity. Qed.

(** Up to its store phase, an accepted rating prompts and reads, whatever
    the driver does later. *)
Lemma rate_movie_via_accepted
    (avg_query : graph → Z → outcome (option (option pyfloat)))
    (w : world) (user_id : Z) (recommendations : list rec)
    (user_ratings : gmap string pyfloat) (movie : rec) (rating : pyfloat) :
  submits recommendations w movie rating →
  ∃ title recs1 w1,
    cache w1 = cache w ∧ neo w1 = neo w
    ∧ neo_runs (trace w1) = neo_runs (trace w)
    ∧ cache_writes (trace w1) = cache_writes (trace w)
    ∧ printed (trace w1) = printed (trace w)
    ∧ rate_movie_via avg_query user_id recommendations user_ratings w
      = match rate_movie_store_via avg_query user_id (pretty (rec_movie_id movie))
                title rating user_ratings w1 with
        | (Ok user_ratings', w') => (Ok (recs1, user_ratings'), w')
        | (Raise e, w') => (Raise e, w')
        end.
Proof.
  intros (choice & rating_str & rest & idx & Hin & Htruthy & Hint & Hrange & Hmovie
          & Hfloat & Hlo & Hhi).
  unfold rate_movie_via.
  destruct recommendations as [|rec0 recs0]; [simpl in Hrange; lia|].
  cbv beta iota. set (recommendations := rec0 :: recs0) in *. clearbody recommendations.
  run. rewrite Hin. simpl. rewrite Htruthy. simpl. rewrite Hint.
  destruct (Z.ltb_spec idx 1) as [|_]; [lia|].
  destruct (Z.ltb_spec (Z.of_nat (length recommendations)) idx) as [|_]; [lia|].
  simpl. rewrite Hmovie.
  destruct (negb (opt_truthy (rec_title movie))
            || bool_decide (rec_title movie = Some "(no title)")).
  - match goal with |- context [lookup_title ?k ?w0] =>
      destruct (lookup_title_run k w0) as [t ->] end.
    destruct (opt_truthy t); run; rewrite Hfloat, Hlo, Hhi; simpl;
      (eexists _, _, _; split; [|split; [|split; [|split; [|split; [|reflexivity]]]]]);
      simpl; try done;
      rewrite ?neo_runs_app, ?cache_writes_app, ?printed_app; simpl;
      by rewrite ?app_nil_r.
  - run. rewrite Hfloat, Hlo, Hhi. simpl.
    (eexists _, _, _; split; [|split; [|split; [|split; [|split; [|reflexivity]]]]]);
      simpl; try done;
      rewrite ?neo_runs_app, ?cache_writes_app, ?printed_app; simpl;
      by rewrite ?app_nil_r.
Qed.

(** An accepted rating when the driver raises on the statement of step 2:
    the exception leaves [rate_movie] after step 1 has run, and nothing
    of steps 3 and 4 or of the messages happens. *)
Lemma rate_movie_via_raises
    (avg_query : graph → Z → outcome (option (option pyfloat)))
    (w : world) (user_id : Z) (recommendations : list rec)
    (user_ratings : gmap string pyfloat) (movie : rec) (rating : pyfloat)
    (movie_int : Z) (e : pyexn) :
  submits recommendations w movie rating →
  py_int (pretty (rec_movie_id movie)) = Some movie_int →
  avg_query (run_merge_rated (neo w) user_id movie_int rating) movie_int = Raise e →
  ∃ w',
    rate_movie_via avg_query user_id recommendations user_ratings w = (Raise e, w')
    ∧ neo w' = run_merge_rated (neo w) user_id movie_int rating
    ∧ neo_runs (trace w')
      = neo_runs (trace w)
        ++ [CyMergeRated user_id movie_int rating; CyAvgRating movie_int]
    ∧ cache w' = cache w
    ∧ cache_writes (trace w') = cache_writes (trace w)
    ∧ printed (trace w') = printed (trace w).
Proof.
  intros Hsub Hint Hfail.
  destruct (rate_movie_via_accepted avg_query w user_id recommendations user_ratings
              movie rating Hsub)
    as (title & recs1 & w1 & Hc & Hn & Hnr & Hcw & Hp & ->).
  assert (∃ w', rate_movie_store_via avg_query user_id (pretty (rec_movie_id movie))
                  title rating user_ratings w1 = (Raise e, w')
                ∧ neo w' = run_merge_rated (neo w1) user_id movie_int rating
                ∧ cache w' = cache w1
                ∧ trace w' = (trace w1 ++ [Neo4jRun (CyMergeRated user_id movie_int rating)])
                             ++ [Neo4jRun (CyAvgRating movie_int)])
    as (w' & -> & Hn' & Hc' & Ht').
  { eexists. split.
    - unfold rate_movie_store_via. rewrite Hint.
      erewrite bind_run by reflexivity.
      erewrite bind_raise; [reflexivity|].
      unfold neo_try. cbn [neo]. rewrite Hn, Hfail. reflexivity.
    - cbn [neo cache trace]. by rewrite Hn. }
  exists w'. split; [done|]. rewrite Hn', Hc', Ht', Hn.
  split; [done|]. split; [|split; [done|split]].
  - rewrite !neo_runs_app, Hnr. simpl. by rewrite <- app_assoc.
  - rewrite !cache_writes_app, Hcw. simpl. by rewrite !app_nil_r.
  - rewrite !printed_app, Hp. simpl. by rewrite !app_nil_r.
Qed.

End DriverProperties.

(** * Further properties

    What the code shows beyond the statements above: the rest of the two
    caches, the log-in, the searches, the display, the other ways a rating
    can go, and an invariant of the session. *)

Section Further.
Context `{PyFloat} `{PyStr} `{!PyJson} `{!Neo4j} `{RediSearch}.

(** Unfold the monad and the primitive actions and compute. *)
Ltac run :=
  repeat (progress (
    unfold mbind, mret, M_bind, M_ret, print, emit, input, raise, try_except,
      redis_read, redis_write, neo_read, neo_write,
      r_get, r_setex, r_set, r_hset, r_expire, r_delete, r_hgetall, r_hget, r_search;
    simpl)).

(** ** Key names *)

Lemma lacks_append c a b : lacks c (a +:+ b) = lacks c a && lacks c b.
Proof.
  induction a as [|x a IH]; [done|].
  change (String x a +:+ b) with (String x (a +:+ b)). simpl.
  rewrite IH. by rewrite andb_assoc.
Qed.

Lemma pretty_N_go_lacks_colon (x : N) (s : string) :
  lacks ":" s = true → lacks ":" (pretty_N_go x s) = true.
Proof.
  revert s. induction (N.lt_wf_0 x) as [x _ IH]; intros s Hs.
  assert (x = 0 ∨ 0 < x)%N as [->|Hpos] by lia.
  - by rewrite pretty_N_go_0.
  - rewrite pretty_N_go_step by done. apply IH.
    { by apply N.div_lt. }
    change (negb (Ascii.eqb ":" (pretty_N_char (x `mod` 10))) && lacks ":" s = true).
    rewrite Hs, andb_true_r. unfold pretty_N_char. by repeat case_match.
Qed.

Lemma pretty_N_lacks_colon (x : N) : lacks ":" (pretty x) = true.
Proof.
  unfold pretty, pretty_N. case_decide; [reflexivity|].
  apply pretty_N_go_lacks_colon. reflexivity.
Qed.

(** The text of an integer has no colon. *)
Lemma pretty_Z_lacks_colon (z : Z) : lacks ":" (pretty z) = true.
Proof.
  destruct z as [|p|p].
  - reflexivity.
  - apply (pretty_N_lacks_colon (Npos p)).
  - unfold pretty, pretty_Z. rewrite lacks_append.
    apply andb_true_iff. split; [reflexivity|].
    apply (pretty_N_lacks_colon (Npos p)).
Qed.

(** Two texts split at their first colon agree part by part. *)
Lemma split_at_colon (a a' b b' : string) :
  lacks ":" a = true → lacks ":" a' = true →
  a +:+ String ":" b = a' +:+ String ":" b' → a = a' ∧ b = b'.
Proof.
  revert a'. induction a as [|x a IH]; intros [|x' a'] Ha Ha';
    unfold String.append; fold String.append; intros E.
  - by injection E as ->.
  - injection E as <- _. simpl in Ha'. discriminate.
  - injection E as -> _. simpl in Ha. discriminate.
  - injection E as -> E. simpl in Ha, Ha'.
    apply andb_true_iff in Ha as [_ Ha]. apply andb_true_iff in Ha' as [_ Ha'].
    destruct (IH a' Ha Ha' E) as [-> ->]. done.
Qed.

Lemma recs_cache_key_inj (u k u' k' : Z) :
  recs_cache_key u k = recs_cache_key u' k' → u = u' ∧ k = k'.
Proof.
  unfold recs_cache_key. intros E. apply (inj (String.append _)) in E.
  change (":k:" +:+ pretty k) with (String ":" ("k:" +:+ pretty k)) in E.
  change (":k:" +:+ pretty k') with (String ":" ("k:" +:+ pretty k')) in E.
  apply split_at_colon in E as [Eu Ek]; try apply pretty_Z_lacks_colon.
  apply (inj (String.append _)) in Ek.
  split; by apply (inj pretty).
Qed.


Lemma recs_key_ne_hash_key u k u' : recs_cache_key u k ≠ ratings_hash_key u'.
Proof. unfold recs_cache_key, ratings_hash_key, String.append. discriminate. Qed.

Lemma recs_key_ne_list_key u k u' : recs_cache_key u k ≠ ratings_list_key u'.
Proof. unfold recs_cache_key, ratings_list_key, String.append. discriminate. Qed.

Lemma recs_key_ne_movie_key u k m : recs_cache_key u k ≠ movie_key m.
Proof. unfold recs_cache_key, movie_key, String.append. discriminate. Qed.

(** ** The recommendation cache *)

(** What a call does to Redis, whatever its outcome: nothing, or one
    entry put under its own key. *)
Lemma get_recommendations_cache (w w1 : world) (user_id k ttl : Z)
    (o : outcome (list rec)) :
  get_recommendations_for_user user_id k ttl w = (o, w1) →
  cache w1 = cache w
  ∨ ∃ e, cache w1 = put (cache w) (recs_cache_key user_id k) e.
Proof.
  unfold get_recommendations_for_user. run.
  destruct (redis_get (cache w) (recs_cache_key user_id k)) as [[cached|]|e]; simpl.
  - destruct (json_loads_recs cached) as [recs|]; simpl.
    + intros [= <- <-]. by left.
    + unfold redis_setex. destruct (ttl <=? 0); intros [= <- <-]; simpl; eauto.
  - unfold redis_setex. destruct (ttl <=? 0); intros [= <- <-]; simpl; eauto.
  - intros [= <- <-]. by left.
Qed.

(** X1.  The recommendation cache keeps to its own key.  Whatever a call
    of [get_recommendations_for_user] for [(user_id, k)] does and however
    it ends, Redis's clock and every other key are as before.  The key
    determines the pair, so the entry of another user, or of the same user
    for another [k], is among the keys left alone, as are every user's
    cached ratings and every movie hash. *)
Theorem get_recommendations_keeps_to_its_key (w w1 : world) (user_id k ttl : Z)
    (o : outcome (list rec)) :
  get_recommendations_for_user user_id k ttl w = (o, w1) →
  clock (cache w1) = clock (cache w)
  ∧ (∀ key, key ≠ recs_cache_key user_id k →
            keyspace (cache w1) !! key = keyspace (cache w) !! key)
  ∧ (∀ user_id' k', (user_id', k') ≠ (user_id, k) →
       recs_cache_key user_id' k' ≠ recs_cache_key user_id k
       ∧ keyspace (cache w1) !! recs_cache_key user_id' k'
         = keyspace (cache w) !! recs_cache_key user_id' k')
  ∧ (∀ u, keyspace (cache w1) !! ratings_hash_key u
          = keyspace (cache w) !! ratings_hash_key u
          ∧ keyspace (cache w1) !! ratings_list_key u
            = keyspace (cache w) !! ratings_list_key u)
  ∧ (∀ m, keyspace (cache w1) !! movie_key m = keyspace (cache w) !! movie_key m).
Proof.
  intros Hrun.
  assert (clock (cache w1) = clock (cache w)
          ∧ ∀ key, key ≠ recs_cache_key user_id k →
                   keyspace (cache w1) !! key = keyspace (cache w) !! key)
    as [Hclock Hframe].
  { destruct (get_recommendations_cache _ _ _ _ _ _ Hrun) as [->|[e ->]]; [done|].
    split; [done|]. intros key Hne. simpl. by rewrite lookup_insert_ne. }
  split; [done|]. split; [done|]. split; [|split].
  - intros u' k' Hne.
    assert (recs_cache_key u' k' ≠ recs_cache_key user_id k) as Hkey.
    { intros E. apply recs_cache_key_inj in E as [-> ->]. done. }
    split; [done|]. by apply Hframe.
  - intros u. split; apply Hframe; apply not_eq_sym;
      [apply recs_key_ne_hash_key|apply recs_key_ne_list_key].
  - intros m. apply Hframe, not_eq_sym, recs_key_ne_movie_key.
Qed.

(** X2.  A cached payload that is not JSON counts as a miss.  When the
    key holds a live string that [json.loads] rejects, the call reports
    the hit, then the miss, runs the collaborative filter once, returns
    its list and puts that list in place of the payload, with a fresh
    expiry. *)
Theorem get_recommendations_replaces_corrupt_entry (w : world)
    (user_id k ttl : Z) (payload : string) (dl : option Z) :
  let key := recs_cache_key user_id k in
  let recs := map (λ row, Rec row.1 row.2 None) (run_top_k (neo w) user_id k) in
  live (cache w) key = Some (REntry (RString payload) dl) →
  json_loads_recs payload = None →
  0 < ttl →
  ∃ w1,
    get_recommendations_for_user user_id k ttl w = (Ok recs, w1)
    ∧ printed (trace w1)
      = printed (trace w)
        ++ ["[CACHE HIT] " +:+ key;
            "[CACHE MISS] " +:+ key +:+ " -> querying Neo4j..."]
    ∧ neo_runs (trace w1) = neo_runs (trace w) ++ [CyTopK user_id k]
    ∧ cache_writes (trace w1)
      = cache_writes (trace w) ++ [SETEX key ttl (json_dumps_recs recs)]
    ∧ live (cache w1) key
      = Some (REntry (RString (json_dumps_recs recs)) (Some (clock (cache w) + ttl))).
Proof.
  intros key recs Hlive Hbad Httl.
  eexists. split.
  { unfold get_recommendations_for_user. fold key. run.
    unfold redis_get. rewrite Hlive. run. rewrite Hbad. run.
    unfold redis_setex. destruct (Z.leb_spec ttl 0); [lia|]. fold recs. reflexivity. }
  simpl. rewrite !printed_app, !neo_runs_app, !cache_writes_app. simpl.
  rewrite !app_nil_r, <- !app_assoc. simpl.
  repeat split; try reflexivity.
  apply live_put_eq, fresh_deadline. done.
Qed.

(** X3.  An entry is used for [ttl] seconds and no longer.  After a call
    that missed and stored its list, a call made once [ttl] seconds or
    more have gone by, the entry still being what the first call stored,
    misses again: it runs the collaborative filter against the graph as
    it is then, returns that list, whatever it is, and stores it for
    another [ttl] seconds. *)
Theorem get_recommendations_expire (w w1 w2 : world) (user_id k ttl : Z)
    (recs : list rec) :
  let key := recs_cache_key user_id k in
  let recs2 := map (λ row, Rec row.1 row.2 None) (run_top_k (neo w2) user_id k) in
  live (cache w) key = None →
  0 < ttl →
  get_recommendations_for_user user_id k ttl w = (Ok recs, w1) →
  keyspace (cache w2) !! key = keyspace (cache w1) !! key →
  clock (cache w) + ttl ≤ clock (cache w2) →
  ∃ w3,
    get_recommendations_for_user user_id k ttl w2 = (Ok recs2, w3)
    ∧ neo_runs (trace w3) = neo_runs (trace w2) ++ [CyTopK user_id k]
    ∧ cache_writes (trace w3)
      = cache_writes (trace w2) ++ [SETEX key ttl (json_dumps_recs recs2)]
    ∧ live (cache w3) key
      = Some (REntry (RString (json_dumps_recs recs2)) (Some (clock (cache w2) + ttl))).
Proof.
  intros key recs2 Hmiss Httl Hrun Hkey Hlate.
  assert (keyspace (cache w1) !! key
          = Some (REntry (RString (json_dumps_recs
                    (map (λ row, Rec row.1 row.2 None) (run_top_k (neo w) user_id k))))
                    (Some (clock (cache w) + ttl)))) as Hstored.
  { revert Hrun. unfold get_recommendations_for_user. fold key. run.
    unfold redis_get. rewrite Hmiss. run.
    unfold redis_setex. destruct (Z.leb_spec ttl 0); [lia|].
    intros [= _ <-]. simpl. by rewrite lookup_insert_eq. }
  assert (live (cache w2) key = None) as Hmiss2.
  { unfold live. rewrite Hkey, Hstored. unfold expired. simpl.
    destruct (Z.leb_spec (clock (cache w) + ttl) (clock (cache w2))); [done|lia]. }
  eexists. split.
  { unfold get_recommendations_for_user. fold key. run.
    unfold redis_get. rewrite Hmiss2. run.
    unfold redis_setex. destruct (Z.leb_spec ttl 0); [lia|]. fold recs2. reflexivity. }
  simpl. rewrite !neo_runs_app, !cache_writes_app. simpl.
  rewrite !app_nil_r.
  repeat split; try reflexivity.
  apply live_put_eq, fresh_deadline. done.
Qed.

(** ** The cached ratings *)

(** Every rating of the mapping is the rating of a movie of the list. *)
Lemma rating_mapping_values (l : list rated) (movie_id : string) (x : pyfloat) :
  rating_mapping l !! movie_id = Some x →
  ∃ m, m ∈ l ∧ rated_movie_id m = movie_id ∧ rated_rating m = x.
Proof.
  induction l as [|m l IH] using rev_ind.
  - unfold rating_mapping. simpl. by rewrite lookup_empty.
  - rewrite rating_mapping_snoc. intros Hl.
    apply lookup_insert_Some in Hl as [[<- <-]|[_ Hl]].
    + exists m. split; [|done]. apply elem_of_app. right. by apply list_elem_of_singleton.
    + destruct (IH Hl) as (m' & Hin & Hid & Hr). exists m'.
      split; [|done]. apply elem_of_app. by left.
Qed.

(** Reading back floats that were written as their [repr]. *)
Lemma decode_encode_floats (d : gmap string pyfloat) :
  map_Forall (λ _ x, py_float (float_repr x) = Some x) d →
  map_Forall (λ _ v, is_Some (py_float v)) (encode_floats d)
  ∧ omap py_float (encode_floats d) = d.
Proof.
  intros Hd. split.
  - intros k v Hv. unfold encode_floats in Hv.
    apply lookup_fmap_Some in Hv as (x & <- & Hx).
    rewrite (Hd k x Hx). by eexists.
  - apply map_eq. intros k. unfold encode_floats.
    rewrite lookup_omap, lookup_fmap.
    destruct (d !! k) as [x|] eqn:Hx; simpl; [|done].
    by apply Hd in Hx.
Qed.

(** Case analysis on the results of the Redis commands of a run. *)
Ltac redis_cases :=
  repeat (match goal with
          | |- context [match ?x with Ok _ => _ | Raise _ => _ end] =>
              destruct x; simpl
          | |- context [decide ?P] => destruct (decide P); simpl
          end).

(** Neither function of the rating cache reads the console, prints, or
    reaches the graph. *)
Lemma cache_user_rated_movies_frame (w w' : world) (user_id ttl : Z)
    (rated_movies : list rated) (o : outcome unit) :
  cache_user_rated_movies user_id rated_movies ttl w = (o, w') →
  neo w' = neo w ∧ stdin w' = stdin w
  ∧ neo_runs (trace w') = neo_runs (trace w)
  ∧ printed (trace w') = printed (trace w).
Proof.
  unfold cache_user_rated_movies.
  destruct rated_movies as [|m l]; run; redis_cases; intros [= <- <-]; simpl;
    rewrite ?neo_runs_app, ?printed_app; simpl; by rewrite ?app_nil_r.
Qed.

Lemma get_cached_user_ratings_frame (w w' : world) (user_id : Z)
    (o : outcome (gmap string pyfloat)) :
  get_cached_user_ratings user_id w = (o, w') →
  cache w' = cache w ∧ neo w' = neo w ∧ stdin w' = stdin w
  ∧ neo_runs (trace w') = neo_runs (trace w)
  ∧ printed (trace w') = printed (trace w)
  ∧ cache_writes (trace w') = cache_writes (trace w).
Proof.
  unfold get_cached_user_ratings. run. redis_cases; intros [= <- <-]; simpl;
    rewrite ?neo_runs_app, ?printed_app, ?cache_writes_app; simpl;
    by rewrite ?app_nil_r.
Qed.

(** The lines of the full-text demo's results: printing only. *)
Lemma for_each_show_plain_frame (l : list doc) (w : world) :
  ∃ w', for_each show_plain_doc l w = (Ok tt, w')
        ∧ redis_cmds (trace w') = redis_cmds (trace w)
        ∧ stdin w' = stdin w.
Proof.
  revert w. induction l as [|d l IH]; intros w.
  - by exists w.
  - cbn [for_each]. erewrite bind_run by reflexivity.
    match goal with |- context [for_each show_plain_doc l ?w0] =>
      destruct (IH w0) as (w' & -> & Hcmds & Hin) end.
    exists w'. split; [done|]. rewrite Hcmds, Hin. simpl.
    rewrite redis_cmds_app. simpl. by rewrite app_nil_r.
Qed.

(** The bulk load of the empty list. *)
Lemma cache_user_rated_movies_nil_run (w : world) (user_id : Z) :
  ∃ w',
    cache_user_rated_movies user_id [] 3600 w = (Ok tt, w')
    ∧ clock (cache w') = clock (cache w)
    ∧ keyspace (cache w') !! ratings_hash_key user_id = None
    ∧ keyspace (cache w') !! ratings_list_key user_id
      = Some (REntry (RString (json_dumps_rated [])) (Some (clock (cache w) + 3600))).
Proof.
  eexists. split; [unfold cache_user_rated_movies; run; reflexivity|].
  simpl. split; [done|]. split.
  - rewrite lookup_insert_ne by (apply not_eq_sym, hash_key_ne_list_key).
    apply lookup_delete_eq.
  - apply lookup_insert_eq.
Qed.

(** Loading a list of rated movies on a Redis without a live rating hash
    for the user, and reading the cached ratings after it. *)
Lemma load_then_read_ratings (w : world) (user_id : Z) (rated_movies : list rated) :
  live (cache w) (ratings_hash_key user_id) = None →
  (∀ m, m ∈ rated_movies →
        py_float (float_repr (rated_rating m)) = Some (rated_rating m)) →
  ∃ w1 w2,
    cache_user_rated_movies user_id rated_movies 3600 w = (Ok tt, w1)
    ∧ get_cached_user_ratings user_id w1 = (Ok (rating_mapping rated_movies), w2)
    ∧ cache w2 = cache w1
    ∧ cache_writes (trace w2) = cache_writes (trace w1)
    ∧ redis_hgetall (cache w1) (ratings_hash_key user_id)
      = Ok (encode_floats (rating_mapping rated_movies)).
Proof.
  intros Hfresh Hfloat.
  assert (∀ w1 h, redis_hgetall (cache w1) (ratings_hash_key user_id) = Ok h →
            map_Forall (λ _ v, is_Some (py_float v)) h →
            ∃ w2, get_cached_user_ratings user_id w1 = (Ok (omap py_float h), w2)
                  ∧ cache w2 = cache w1
                  ∧ cache_writes (trace w2) = cache_writes (trace w1)) as Hread.
  { intros w1 h Hall Hok. eexists. split.
    - unfold get_cached_user_ratings. run. rewrite Hall. simpl.
      rewrite decide_True by done. reflexivity.
    - simpl. rewrite cache_writes_app. simpl. by rewrite app_nil_r. }
  destruct (decide (rated_movies = [])) as [->|Hne].
  - destruct (cache_user_rated_movies_nil_run w user_id) as (w1 & Hrun & _ & Hgone & _).
    assert (redis_hgetall (cache w1) (ratings_hash_key user_id) = Ok ∅) as Hall.
    { unfold redis_hgetall, live. by rewrite Hgone. }
    destruct (Hread w1 ∅ Hall) as (w2 & Hget & Hc & Hw).
    { apply map_Forall_empty. }
    exists w1, w2. rewrite omap_empty in Hget.
    unfold encode_floats, rating_mapping. simpl. rewrite fmap_empty. done.
  - destruct (cache_user_rated_movies_run w user_id rated_movies Hne)
      as (w1 & h & Hrun & Hall & Hhash & _).
    { intros s dl. rewrite Hfresh. discriminate. }
    unfold redis_hgetall in Hall. rewrite Hfresh in Hall. injection Hall as <-.
    rewrite (right_id ∅ (∪)) in Hhash.
    destruct (decode_encode_floats (rating_mapping rated_movies)) as [Hok Hback].
    { intros k x Hx. apply rating_mapping_values in Hx as (m & Hin & _ & <-). auto. }
    assert (redis_hgetall (cache w1) (ratings_hash_key user_id)
            = Ok (encode_floats (rating_mapping rated_movies))) as Hall.
    { unfold redis_hgetall. by rewrite Hhash. }
    destruct (Hread w1 (encode_floats (rating_mapping rated_movies)))
      as (w2 & Hget & Hc & Hw); [done|done|].
    exists w1, w2. rewrite Hback in Hget. done.
Qed.

(** X4.  Reading the cached ratings after loading them gives back the
    ratings that were loaded.  On a Redis that has no live rating hash for
    the user, the load leaves a hash with one field for each movie id of
    the list, holding the [repr] of its rating, and the read after it
    yields the mapping of the list: each id with its rating as a float,
    the last one when an id occurs twice, and the empty dict for the empty
    list.  The read writes nothing.  The second hypothesis is the fact
    about Python's floats that [float(repr(x))] is [x], for the ratings of
    the list. *)
Theorem cached_ratings_round_trip (w : world) (user_id : Z)
    (rated_movies : list rated) :
  live (cache w) (ratings_hash_key user_id) = None →
  (∀ m, m ∈ rated_movies →
        py_float (float_repr (rated_rating m)) = Some (rated_rating m)) →
  ∃ w1 w2 h,
    cache_user_rated_movies user_id rated_movies 3600 w = (Ok tt, w1)
    ∧ redis_hgetall (cache w1) (ratings_hash_key user_id) = Ok h
    ∧ (∀ movie_id, h !! movie_id = float_repr <$> rating_mapping rated_movies !! movie_id)
    ∧ get_cached_user_ratings user_id w1 = (Ok (rating_mapping rated_movies), w2)
    ∧ cache w2 = cache w1
    ∧ cache_writes (trace w2) = cache_writes (trace w1).
Proof.
  intros Hfresh Hfloat.
  destruct (load_then_read_ratings w user_id rated_movies Hfresh Hfloat)
    as (w1 & w2 & Hload & Hget & Hc & Hw & Hall).
  exists w1, w2, (encode_floats (rating_mapping rated_movies)).
  repeat split; try done.
  intros movie_id. unfold encode_floats. by rewrite lookup_fmap.
Qed.

(** X5.  The cached ratings last an hour.  After a load with the expiry
    of 3600 seconds, once 3600 seconds or more have gone by and nothing
    has touched the two keys, neither is there any more, and a reader of
    the cached ratings gets the empty dict, without an error and without
    a write: nothing tells it apart from a user who has rated nothing. *)
Theorem cached_ratings_expire (w w1 w2 : world) (user_id : Z)
    (rated_movies : list rated) :
  let hash_key := ratings_hash_key user_id in
  let list_key := ratings_list_key user_id in
  (∀ s dl, live (cache w) hash_key ≠ Some (REntry (RString s) dl)) →
  cache_user_rated_movies user_id rated_movies 3600 w = (Ok tt, w1) →
  keyspace (cache w2) !! hash_key = keyspace (cache w1) !! hash_key →
  keyspace (cache w2) !! list_key = keyspace (cache w1) !! list_key →
  clock (cache w) + 3600 ≤ clock (cache w2) →
  live (cache w2) hash_key = None
  ∧ live (cache w2) list_key = None
  ∧ ∃ w3,
      get_cached_user_ratings user_id w2 = (Ok ∅, w3)
      ∧ cache w3 = cache w2
      ∧ cache_writes (trace w3) = cache_writes (trace w2).
Proof.
  intros hash_key list_key Htype Hrun Hhash Hlist Hlate.
  assert (∀ k e, keyspace (cache w2) !! k = Some e →
                 deadline e = Some (clock (cache w) + 3600) →
                 live (cache w2) k = None) as Hdead.
  { intros k e Hk Hdl. unfold live, expired. rewrite Hk, Hdl.
    destruct (Z.leb_spec (clock (cache w) + 3600) (clock (cache w2))); [done|lia]. }
  assert (live (cache w2) hash_key = None ∧ live (cache w2) list_key = None)
    as [Hh Hl].
  { destruct (decide (rated_movies = [])) as [->|Hne].
    - destruct (cache_user_rated_movies_nil_run w user_id)
        as (w1' & Hrun' & _ & Hgone & Hjson).
      rewrite Hrun in Hrun'. injection Hrun' as <-.
      split.
      + unfold live. fold hash_key in Hgone. by rewrite Hhash, Hgone.
      + eapply Hdead; [by rewrite Hlist|done].
    - destruct (cache_user_rated_movies_run w user_id rated_movies Hne Htype)
        as (w1' & h & Hrun' & _ & Hlh & Hll).
      rewrite Hrun in Hrun'. injection Hrun' as <-.
      apply live_Some in Hlh as [Hlh _]. apply live_Some in Hll as [Hll _].
      split; (eapply Hdead; [by rewrite ?Hhash, ?Hlist|done]). }
  split; [done|]. split; [done|].
  eexists. split.
  - unfold get_cached_user_ratings. run. unfold redis_hgetall. fold hash_key.
    rewrite Hh. simpl. rewrite decide_True by apply map_Forall_empty.
    by rewrite omap_empty.
  - simpl. rewrite cache_writes_app. simpl. by rewrite app_nil_r.
Qed.

(** ** Logging in *)

(** The loop of [prompt_for_user_id] over lines that are not integers
    followed by one that is. *)
Lemma prompt_for_user_id_loop_run (bad : list string) (good : string)
    (rest : list string) (n : Z) (fuel : nat) (w : world) :
  stdin w = bad ++ good :: rest →
  Forall (λ line, py_int (str_strip line) = None) bad →
  py_int (str_strip good) = Some n →
  (length bad < fuel)%nat →
  ∃ t,
    prompt_for_user_id_loop fuel w
    = (Ok n, World (cache w) (neo w) rest (trace w ++ t))
    ∧ printed t
      = replicate (length bad) ("User ID must be an integer. Please try again." +:+ nl)
    ∧ redis_cmds t = [] ∧ neo_runs t = [].
Proof.
  revert fuel w. induction bad as [|line bad IH]; intros fuel w Hin Hbad Hgood Hfuel.
  - destruct fuel as [|fuel]; [simpl in Hfuel; lia|].
    simpl in Hin. simpl. run. rewrite Hin. simpl. rewrite Hgood.
    eexists [_]. split; [reflexivity|done].
  - destruct fuel as [|fuel]; [simpl in Hfuel; lia|].
    apply Forall_cons in Hbad as [Hline Hbad].
    simpl in Hin. simpl. run. rewrite Hin. simpl. rewrite Hline.
    match goal with |- context [prompt_for_user_id_loop fuel ?w0] =>
      destruct (IH fuel w0) as (t & -> & Hp & Hr & Hn) end; try done.
    { simpl in Hfuel. lia. }
    simpl. rewrite <- !app_assoc. eexists. split; [reflexivity|].
    simpl. rewrite Hp, Hr, Hn. done.
Qed.

(** X6.  The log-in prompt asks until it is given an integer.  When the
    console holds lines that [int] rejects and then one it accepts,
    [prompt_for_user_id] returns that integer, having read exactly those
    lines and answered each rejected one with the same message; it touches
    neither store. *)
Theorem prompt_for_user_id_retries (w : world) (bad : list string) (good : string)
    (rest : list string) (n : Z) :
  stdin w = bad ++ good :: rest →
  Forall (λ line, py_int (str_strip line) = None) bad →
  py_int (str_strip good) = Some n →
  ∃ w',
    prompt_for_user_id w = (Ok n, w')
    ∧ stdin w' = rest
    ∧ cache w' = cache w ∧ neo w' = neo w
    ∧ printed (trace w')
      = printed (trace w)
        ++ replicate (length bad) ("User ID must be an integer. Please try again." +:+ nl)
    ∧ redis_cmds (trace w') = redis_cmds (trace w)
    ∧ neo_runs (trace w') = neo_runs (trace w).
Proof.
  intros Hin Hbad Hgood. unfold prompt_for_user_id.
  destruct (prompt_for_user_id_loop_run bad good rest n (S (length (stdin w))) w)
    as (t & -> & Hp & Hr & Hn); try done.
  { rewrite Hin, length_app. simpl. lia. }
  eexists. split; [reflexivity|]. simpl.
  rewrite printed_app, redis_cmds_app, neo_runs_app, Hp, Hr, Hn, !app_nil_r. done.
Qed.

(** X7.  A console that ends before an integer is typed ends the program
    with [EOFError]: [prompt_for_user_id] answers each line, asks once
    more, and the [input] that finds nothing raises; only [ValueError] is
    caught in the loop. *)
Theorem prompt_for_user_id_end_of_input (w : world) :
  Forall (λ line, py_int (str_strip line) = None) (stdin w) →
  ∃ w',
    prompt_for_user_id w = (Raise EOFError, w')
    ∧ stdin w' = []
    ∧ cache w' = cache w ∧ neo w' = neo w
    ∧ printed (trace w')
      = printed (trace w)
        ++ replicate (length (stdin w))
             ("User ID must be an integer. Please try again." +:+ nl).
Proof.
  unfold prompt_for_user_id.
  assert (∀ lines (w0 : world), stdin w0 = lines →
            Forall (λ line, py_int (str_strip line) = None) lines →
            ∃ t, prompt_for_user_id_loop (S (length lines)) w0
                 = (Raise EOFError, World (cache w0) (neo w0) [] (trace w0 ++ t))
                 ∧ printed t
                   = replicate (length lines)
                       ("User ID must be an integer. Please try again." +:+ nl))
    as Hloop.
  { induction lines as [|line lines IH]; intros w0 Hin Hbad.
    - simpl. run. rewrite Hin. eexists [_]. split; [reflexivity|done].
    - apply Forall_cons in Hbad as [Hline Hbad].
      change (prompt_for_user_id_loop (S (length (line :: lines))) w0)
        with ((raw ← input "Enter your user ID: ";
               match py_int (str_strip raw) with
               | Some n => mret n
               | None =>
                   print ("User ID must be an integer. Please try again." +:+ nl);;
                   prompt_for_user_id_loop (S (length lines))
               end) w0).
      unfold mbind, M_bind at 1, input. rewrite Hin. rewrite Hline.
      unfold M_bind at 1, print, emit.
      match goal with |- context [prompt_for_user_id_loop _ ?w1] =>
        destruct (IH w1) as (t & -> & Hp) end; try done.
      cbn [cache neo stdin trace]. rewrite <- !app_assoc.
      eexists. split; [reflexivity|]. simpl. by rewrite Hp. }
  intros Hbad. destruct (Hloop (stdin w) w eq_refl Hbad) as (t & -> & Hp).
  eexists. split; [reflexivity|]. simpl. by rewrite printed_app, Hp.
Qed.

(** X8.  [get_or_create_user] never leaves a profile without a name and
    never asks a named user for one.  A user whose node has a name is
    welcomed back: no line is read and the graph is not written.  For a
    node without a name, and for a user id the graph does not have, one
    line is read; the name is that line stripped, or [User<id>] when that
    is empty, so it is never empty; it is written by the one statement of
    the case; and it is what the call returns.  Redis is not involved. *)
Theorem get_or_create_user_names (w : world) (user_id : Z) (line : string)
    (rest : list string) :
  let typed := if str_truthy (str_strip line) then str_strip line
               else "User" +:+ pretty user_id in
  stdin w = line :: rest →
  str_truthy typed = true
  ∧ ∃ w',
      cache w' = cache w
      ∧ redis_cmds (trace w') = redis_cmds (trace w)
      ∧ match run_user_name (neo w) user_id with
        | Some (Some existing_name) =>
            get_or_create_user user_id w = (Ok existing_name, w')
            ∧ stdin w' = stdin w ∧ neo w' = neo w
            ∧ neo_runs (trace w') = neo_runs (trace w) ++ [CyUserName user_id]
        | Some None =>
            get_or_create_user user_id w = (Ok typed, w')
            ∧ stdin w' = rest ∧ neo w' = run_set_name (neo w) user_id typed
            ∧ neo_runs (trace w')
              = neo_runs (trace w) ++ [CyUserName user_id; CySetName user_id typed]
        | None =>
            get_or_create_user user_id w = (Ok typed, w')
            ∧ stdin w' = rest ∧ neo w' = run_merge_user (neo w) user_id typed
            ∧ neo_runs (trace w')
              = neo_runs (trace w) ++ [CyUserName user_id; CyMergeUser user_id typed]
        end.
Proof.
  intros typed Hin. split.
  { unfold typed. destruct (str_truthy (str_strip line)) eqn:E; [done|].
    unfold String.append. done. }
  unfold get_or_create_user. run.
  destruct (run_user_name (neo w) user_id) as [[existing|]|]; run.
  - eexists. split; [|split; [|split; [reflexivity|]]]; simpl; try done.
    + by rewrite !redis_cmds_app, !app_nil_r.
    + rewrite !neo_runs_app. simpl. by rewrite app_nil_r.
  - rewrite Hin. simpl. fold typed.
    eexists. split; [|split; [|split; [reflexivity|]]]; simpl; try done.
    + by rewrite !redis_cmds_app, !app_nil_r.
    + rewrite !neo_runs_app. simpl. by rewrite !app_nil_r, <- !app_assoc.
  - rewrite Hin. simpl. fold typed.
    eexists. split; [|split; [|split; [reflexivity|]]]; simpl; try done.
    + by rewrite !redis_cmds_app, !app_nil_r.
    + rewrite !neo_runs_app. simpl. by rewrite !app_nil_r, <- !app_assoc.
Qed.

(** X9.  The log-in of a user with a name, on a Redis that has no live
    rating hash for them.  One line is read; the graph is asked for the
    name and for the rated movies and is not written; the session starts
    with the user's id, with the mapping of the rated movies the graph
    returned as the in-memory ratings, and with no recommendations; and
    the rating hash in Redis has exactly the movies of that mapping.  The
    last hypothesis is that [float(repr(x))] is [x] for those ratings. *)
Theorem login_loads_the_graph_ratings (w : world) (line : string)
    (rest : list string) (user_id : Z) (name : string) :
  let rated_movies :=
    map (λ record, Rated (pretty (row_movie_id record)) (row_title record)
                         (row_rating record))
        (run_user_rated (neo w) user_id) in
  stdin w = line :: rest →
  py_int (str_strip line) = Some user_id →
  run_user_name (neo w) user_id = Some (Some name) →
  live (cache w) (ratings_hash_key user_id) = None →
  (∀ m, m ∈ rated_movies →
        py_float (float_repr (rated_rating m)) = Some (rated_rating m)) →
  ∃ w' h,
    run_user_application_login w
    = (Ok (Session user_id (rating_mapping rated_movies) []), w')
    ∧ stdin w' = rest
    ∧ neo w' = neo w
    ∧ neo_runs (trace w')
      = neo_runs (trace w) ++ [CyUserName user_id; CyUserRated user_id]
    ∧ redis_hgetall (cache w') (ratings_hash_key user_id) = Ok h
    ∧ ∀ movie_id, is_Some (h !! movie_id)
                  ↔ is_Some (rating_mapping rated_movies !! movie_id).
Proof.
  intros rated_movies Hin Hint Hname Hfresh Hfloat.
  destruct (prompt_for_user_id_loop_run [] line rest user_id (S (length (stdin w))) w)
    as (t & Hprompt & _ & _ & Hn); try done.
  { simpl. lia. }
  set (w1 := World (cache w) (neo w) rest (trace w ++ t)) in Hprompt.
  set (w2 := World (cache w) (neo w) rest
               (((trace w ++ t) ++ [Neo4jRun (CyUserName user_id)])
                ++ [Printed (nl +:+ "Welcome back, " +:+ name +:+ "!" +:+ nl)])).
  assert (get_or_create_user user_id w1 = (Ok name, w2)) as Huser.
  { unfold get_or_create_user. run. rewrite Hname. reflexivity. }
  set (w3 := World (cache w) (neo w) rest (trace w2 ++ [Neo4jRun (CyUserRated user_id)])).
  assert (get_user_rated_movies user_id w2 = (Ok rated_movies, w3)) as Hrated
    by reflexivity.
  destruct (load_then_read_ratings w3 user_id rated_movies Hfresh Hfloat)
    as (w4 & w5 & Hload & Hget & Hc & Hw & _).
  assert (∃ h, redis_hgetall (cache w5) (ratings_hash_key user_id) = Ok h
               ∧ rating_mapping rated_movies = omap py_float h
               ∧ map_Forall (λ _ v, is_Some (py_float v)) h) as (h & Hall & Hmap & Hok).
  { destruct (get_cached_user_ratings_inv _ _ _ _ Hget) as (h & Hall & Hok & Hmap).
    exists h. by rewrite Hc. }
  exists w5, h. split.
  { unfold run_user_application_login.
    erewrite bind_run by exact Hprompt.
    erewrite bind_run by exact Huser.
    erewrite bind_run by exact Hrated.
    erewrite bind_run by exact Hload.
    erewrite bind_run by exact Hget.
    reflexivity. }
  assert (stdin w5 = rest ∧ neo w5 = neo w ∧ neo_runs (trace w5) = neo_runs (trace w3))
    as (Hs5 & Hn5 & Hr5).
  { destruct (cache_user_rated_movies_frame _ _ _ _ _ _ Hload) as (Ha & Hb & Hd & _).
    destruct (get_cached_user_ratings_frame _ _ _ _ Hget) as (_ & Ha' & Hb' & Hd' & _).
    by rewrite Ha', Hb', Hd', Ha, Hb, Hd. }
  split; [done|]. split; [done|]. split.
  { rewrite Hr5. simpl. rewrite !neo_runs_app, Hn. simpl.
    by rewrite !app_nil_r, <- !app_assoc. }
  split; [done|].
  intros movie_id. rewrite Hmap, lookup_omap.
  destruct (h !! movie_id) as [v|] eqn:Hv; simpl.
  - destruct (Hok movie_id v Hv) as [x ->]. split; eauto.
  - split; intros [? ?]; done.
Qed.

(** ** Searching *)

(** X10.  A blank search term ends either search at once: one line is
    read, the function says so and returns, and Redis is sent nothing. *)
Theorem search_blank_term (w : world) (user_id : Z)
    (user_ratings : gmap string pyfloat) (line : string) (rest : list string) :
  str_truthy (str_strip line) = false →
  (∃ w',
     redis_fulltext_search_demo (typing (line :: rest) w) = (Ok tt, w')
     ∧ stdin w' = rest ∧ cache w' = cache w
     ∧ redis_cmds (trace w') = redis_cmds (trace w)
     ∧ printed (trace w') = printed (trace w) ++ ["Empty search, returning." +:+ nl])
  ∧ (∃ w',
       search_movies_with_user_context user_id user_ratings (typing (line :: rest) w)
       = (Ok tt, w')
       ∧ stdin w' = rest ∧ cache w' = cache w
       ∧ redis_cmds (trace w') = redis_cmds (trace w)
       ∧ printed (trace w')
         = printed (trace w) ++ ["Empty search; returning to menu." +:+ nl]).
Proof.
  intros Hblank. split.
  - unfold redis_fulltext_search_demo. run. rewrite Hblank. simpl.
    eexists. split; [reflexivity|]. simpl.
    rewrite !redis_cmds_app, !printed_app. simpl. by rewrite !app_nil_r.
  - unfold search_movies_with_user_context. run. rewrite Hblank. simpl.
    eexists. split; [reflexivity|]. simpl.
    rewrite !redis_cmds_app, !printed_app. simpl. by rewrite !app_nil_r.
Qed.

(** X11.  The full-text demo asks for exactly [page_size] results: the
    number typed at the second prompt, 10 when that is blank or not an
    integer, raised to 1 and lowered to 10. *)
Theorem fulltext_search_page_size (w : world) (line max_line : string)
    (rest : list string) :
  let term := str_strip line in
  str_truthy term = true →
  ∃ o w',
    redis_fulltext_search_demo (typing (line :: max_line :: rest) w) = (o, w')
    ∧ stdin w' = rest
    ∧ redis_cmds (trace w')
      = redis_cmds (trace w) ++ [FT_SEARCH term 0 (page_size max_line)].
Proof.
  intros term Htruthy.
  unfold redis_fulltext_search_demo. run. fold term. rewrite Htruthy. simpl.
  set (n := if 10 <? _ then 10 else _).
  assert (n = page_size max_line) as Hn.
  { subst n. unfold page_size.
    set (asked := if negb (str_truthy (str_strip max_line)) then 10
                  else match py_int (str_strip max_line) with
                       | Some n => n
                       | None => 10
                       end).
    assert ((if str_truthy (str_strip max_line)
             then default 10 (py_int (str_strip max_line)) else 10) = asked) as ->.
    { subst asked. destruct (str_truthy (str_strip max_line)); [|done].
      by destruct (py_int (str_strip max_line)). }
    clearbody asked.
    destruct (Z.ltb_spec asked 1); [destruct (Z.ltb_spec 10 1)|
                                    destruct (Z.ltb_spec 10 asked)]; lia. }
  rewrite <- Hn. clearbody n.
  destruct (ft_search (cache w) term 0 n) as [res|]; simpl.
  - destruct ((total res =? 0) || Nat.eqb (length (docs res)) 0); simpl.
    + eexists _, _. split; [reflexivity|]. simpl. split; [done|].
      rewrite !redis_cmds_app. simpl. by rewrite !app_nil_r.
    + match goal with |- context [for_each show_plain_doc ?l ?w0] =>
        destruct (for_each_show_plain_frame l w0) as (w' & -> & Hcmds & Hin) end.
      eexists _, _. split; [reflexivity|]. simpl. split; [done|].
      rewrite redis_cmds_app, Hcmds. simpl.
      rewrite !redis_cmds_app. simpl. by rewrite !app_nil_r.
  - eexists _, _. split; [reflexivity|]. simpl. split; [done|].
    rewrite !redis_cmds_app. simpl. by rewrite !app_nil_r.
Qed.

(** X12.  A search the engine refuses is not an error of the program.
    When the engine raises on the query, each search prints that the
    search failed, with the engine's message, and returns normally,
    having printed nothing else and left Redis as it was. *)
Theorem search_engine_error_is_caught (w : world) (user_id : Z)
    (user_ratings : gmap string pyfloat) (line max_line : string)
    (rest : list string) :
  let term := str_strip line in
  let message := "Error executing search: " +:+ exn_message ResponseError in
  str_truthy term = true →
  (ft_search (cache w) term 0 (page_size max_line) = None →
   ∃ w',
     redis_fulltext_search_demo (typing (line :: max_line :: rest) w) = (Ok tt, w')
     ∧ cache w' = cache w
     ∧ printed (trace w') = printed (trace w) ++ [message])
  ∧ (ft_search (cache w) (title_query term) 0 10 = None →
     ∃ w',
       search_movies_with_user_context user_id user_ratings (typing (line :: rest) w)
       = (Ok tt, w')
       ∧ cache w' = cache w
       ∧ printed (trace w') = printed (trace w) ++ [message]).
Proof.
  intros term message Htruthy. split; intros Hfail.
  - unfold redis_fulltext_search_demo. run. fold term. rewrite Htruthy. simpl.
    set (n := if 10 <? _ then 10 else _).
    assert (n = page_size max_line) as Hn.
    { subst n. unfold page_size.
    set (asked := if negb (str_truthy (str_strip max_line)) then 10
                  else match py_int (str_strip max_line) with
                       | Some n => n
                       | None => 10
                       end).
    assert ((if str_truthy (str_strip max_line)
             then default 10 (py_int (str_strip max_line)) else 10) = asked) as ->.
    { subst asked. destruct (str_truthy (str_strip max_line)); [|done].
      by destruct (py_int (str_strip max_line)). }
    clearbody asked.
    destruct (Z.ltb_spec asked 1); [destruct (Z.ltb_spec 10 1)|
                                    destruct (Z.ltb_spec 10 asked)]; lia. }
    rewrite Hn, Hfail. simpl.
    eexists. split; [reflexivity|]. simpl.
    rewrite !printed_app. simpl. by rewrite !app_nil_r.
  - unfold search_movies_with_user_context. run. fold term. rewrite Htruthy. simpl.
    change (if has_space term then "@title:(" +:+ term +:+ ")" else "@title:" +:+ term)
      with (title_query term).
    rewrite Hfail. simpl.
    eexists. split; [reflexivity|]. simpl.
    rewrite !printed_app. simpl. by rewrite !app_nil_r.
Qed.

Lemma after_prefix_append (p s : string) : after_prefix p (p +:+ s) = Some s.
Proof.
  induction p as [|c p IH]; [done|].
  change (String c p +:+ s) with (String c (p +:+ s)). simpl.
  by rewrite Ascii.eqb_refl.
Qed.

(** X13.  The key of a movie hash leads back to the movie.  For a search
    result whose key is [movie:<id>], as [load_movies_from_neo4j_into_redis]
    names its hashes, the id shown is [<id>], and the result is marked as
    seen exactly when [<id>] is a key of the in-memory ratings, with the
    rating of that key; a result under any key that does not start with
    [movie:] is looked up by its whole key. *)
Theorem search_result_of_movie_key (user_ratings : gmap string pyfloat) (d : doc) :
  (∀ movie_id,
     doc_id d = movie_key movie_id →
     doc_movie_key d = movie_id
     ∧ (has_seen user_ratings d = true ↔ is_Some (user_ratings !! movie_id))
     ∧ user_rating_str user_ratings d
       = from_option (float_fmt 1) "N/A" (user_ratings !! movie_id))
  ∧ (after_prefix "movie:" (doc_id d) = None → doc_movie_key d = doc_id d).
Proof.
  split.
  - intros movie_id Hid.
    assert (doc_movie_key d = movie_id) as Hkey.
    { unfold doc_movie_key. rewrite Hid. unfold movie_key.
      by rewrite after_prefix_append. }
    split; [done|].
    unfold user_rating_str, has_seen, dict_contains. rewrite Hkey.
    destruct (user_ratings !! movie_id) as [x|]; simpl.
    + split; [split; eauto|done].
    + split; [split; [done|by intros [? ?]]|done].
  - intros Hnone. unfold doc_movie_key. by rewrite Hnone.
Qed.

(** ** Displaying recommendations *)

(** The title loop reads one title per recommendation and changes
    nothing but the titles. *)
Lemma enrich_titles_shape (top_5 : list rec) (w : world) :
  ∃ t,
    enrich_titles top_5 w
    = (Ok (map (with_title (cache w)) top_5),
       World (cache w) (neo w) (stdin w) (trace w ++ t))
    ∧ redis_cmds t
      = map (λ rec, HGET (movie_key (pretty (rec_movie_id rec))) "title") top_5
    ∧ neo_runs t = [] ∧ printed t = [].
Proof.
  revert w. induction top_5 as [|rec rest IH]; intros w.
  - exists []. simpl. rewrite app_nil_r. by destruct w.
  - cbn [enrich_titles].
    set (key := movie_key (pretty (rec_movie_id rec))).
    set (w0 := World (cache w) (neo w) (stdin w) (trace w ++ [RedisCmd (HGET key "title")])).
    assert (lookup_title key w
            = (Ok (match redis_hget (cache w) key "title" with
                   | Ok title => title
                   | Raise _ => None
                   end), w0)) as Hlook.
    { unfold lookup_title. run. by destruct (redis_hget (cache w) key "title"). }
    erewrite bind_run by exact Hlook.
    destruct (IH w0) as (t & Hrest & Hcmds & Hruns & Hprinted).
    erewrite bind_run by exact Hrest.
    exists (RedisCmd (HGET key "title") :: t). split.
    + unfold mret, M_ret. cbn [map]. unfold with_title at 2, title_shown. fold key.
      subst w0. cbn [cache neo stdin trace]. rewrite <- app_assoc.
      by destruct (redis_hget (cache w) key "title") as [[title|]|e].
    + cbn [map]. fold key. simpl. rewrite Hcmds, Hruns, Hprinted. done.
Qed.

Lemma print_recommendations_frame (top_5 : list rec) (idx : Z) (w : world) :
  ∃ t,
    print_recommendations idx top_5 w
    = (Ok tt, World (cache w) (neo w) (stdin w) (trace w ++ t))
    ∧ redis_cmds t = [] ∧ neo_runs t = []
    ∧ length (printed t) = length top_5.
Proof.
  revert idx w. induction top_5 as [|rec rest IH]; intros idx w.
  - exists []. simpl. rewrite app_nil_r. by destruct w.
  - cbn [print_recommendations]. erewrite bind_run by reflexivity.
    match goal with |- context [print_recommendations ?i rest ?w0] =>
      destruct (IH i w0) as (t & -> & Hc & Hn & Hp) end.
    cbn [cache neo stdin trace]. rewrite <- app_assoc.
    eexists. split; [reflexivity|]. simpl. rewrite Hc, Hn, Hp. done.
Qed.

(** What a call of [get_recommendations_for_user] sends to Redis: the
    read of its key, and after a miss the write of it. *)
Lemma get_recommendations_commands (w w1 : world) (user_id k ttl : Z)
    (o : outcome (list rec)) :
  get_recommendations_for_user user_id k ttl w = (o, w1) →
  stdin w1 = stdin w
  ∧ ∃ cs,
      redis_cmds (trace w1) = redis_cmds (trace w) ++ cs
      ∧ (cs = [GET (recs_cache_key user_id k)]
         ∨ ∃ payload, cs = [GET (recs_cache_key user_id k);
                            SETEX (recs_cache_key user_id k) ttl payload]).
Proof.
  unfold get_recommendations_for_user. run.
  destruct (redis_get (cache w) (recs_cache_key user_id k)) as [[cached|]|e]; simpl.
  - destruct (json_loads_recs cached) as [recs|]; simpl.
    + intros [= <- <-]. simpl. split; [done|].
      rewrite !redis_cmds_app. simpl. rewrite ?app_nil_r, <- ?app_assoc.
      eexists. split; [reflexivity|]. by left.
    + destruct (redis_setex _ _ _ _); intros [= <- <-]; simpl; (split; [done|]);
        rewrite !redis_cmds_app; simpl; rewrite !app_nil_r, <- !app_assoc;
        eexists; (split; [reflexivity|]); right; by eexists.
  - destruct (redis_setex _ _ _ _); intros [= <- <-]; simpl; (split; [done|]);
      rewrite !redis_cmds_app; simpl; rewrite !app_nil_r, <- !app_assoc;
      eexists; (split; [reflexivity|]); right; by eexists.
  - intros [= <- <-]. simpl. split; [done|].
    rewrite !redis_cmds_app. simpl. rewrite ?app_nil_r, <- ?app_assoc.
    eexists. split; [reflexivity|]. by left.
Qed.

Lemma filter_sublist {A} (f : A → bool) (l : list A) : List.filter f l `sublist_of` l.
Proof.
  induction l as [|x l IH]; simpl; [constructor|].
  destruct (f x); by constructor.
Qed.

(** The three stages of [display_top_5_recommendations]. *)
Lemma display_top_5_run (w : world) (user_id : Z)
    (user_ratings : gmap string pyfloat) (all_recs : list rec) (w1 : world) :
  get_recommendations_for_user user_id 20 600 w = (Ok all_recs, w1) →
  ∃ t,
    display_top_5_recommendations user_id user_ratings w
    = (Ok (map (with_title (cache w1)) (take 5 (unseen user_ratings all_recs))),
       World (cache w1) (neo w1) (stdin w1) (trace w1 ++ t))
    ∧ redis_cmds t
      = map (λ rec, HGET (movie_key (pretty (rec_movie_id rec))) "title")
            (take 5 (unseen user_ratings all_recs))
    ∧ neo_runs t = [].
Proof.
  intros Hget. unfold display_top_5_recommendations.
  erewrite bind_run by exact Hget.
  destruct all_recs as [|rec0 recs0].
  { run. eexists [_]. split; [reflexivity|]. done. }
  cbv beta iota. set (all_recs := rec0 :: recs0) in *. clearbody all_recs.
  set (top_5 := take 5 (unseen user_ratings all_recs)).
  destruct top_5 as [|rec1 recs1].
  { run. eexists [_]. split; [reflexivity|]. done. }
  cbv beta iota. set (top_5 := rec1 :: recs1) in *. clearbody top_5.
  destruct (enrich_titles_shape top_5 w1) as (t1 & Henrich & Hc1 & Hn1 & _).
  erewrite bind_run by exact Henrich.
  erewrite bind_run by reflexivity.
  edestruct (print_recommendations_frame (map (with_title (cache w1)) top_5) 1)
    as (t2 & Hprint & Hc2 & Hn2 & _).
  erewrite bind_run by exact Hprint.
  erewrite bind_run by reflexivity.
  unfold mret, M_ret. cbn [cache neo stdin trace].
  rewrite <- !app_assoc.
  eexists. split; [reflexivity|].
  rewrite !redis_cmds_app, !neo_runs_app, Hc1, Hc2, Hn1, Hn2. simpl.
  by rewrite !app_nil_r.
Qed.

(** X14.  What [display_top_5_recommendations] returns is the first five
    of the user's twenty recommendations that are not keys of the ratings
    passed in, in the order of the recommendations, each with the title
    its movie hash has at that moment or the placeholder.  So there are
    at most five, their ids are a sub-sequence of the recommended ids,
    and every one carries a title that is not empty. *)
Theorem display_top_5_first_five_unseen (w w' : world) (user_id : Z)
    (user_ratings : gmap string pyfloat) (recs : list rec) :
  display_top_5_recommendations user_id user_ratings w = (Ok recs, w') →
  ∃ all_recs w1,
    get_recommendations_for_user user_id 20 600 w = (Ok all_recs, w1)
    ∧ cache w' = cache w1
    ∧ recs = map (with_title (cache w')) (take 5 (unseen user_ratings all_recs))
    ∧ (length recs ≤ 5)%nat
    ∧ map rec_movie_id recs `sublist_of` map rec_movie_id all_recs
    ∧ Forall (λ rec, ∃ title, rec_title rec = Some title ∧ str_truthy title = true)
             recs.
Proof.
  intros Hrun.
  destruct (get_recommendations_for_user user_id 20 600 w) as [[all_recs|e] w1] eqn:Hget.
  2: { unfold display_top_5_recommendations in Hrun.
       erewrite bind_raise in Hrun by exact Hget. done. }
  destruct (display_top_5_run w user_id user_ratings all_recs w1 Hget)
    as (t & Hdisplay & _).
  rewrite Hdisplay in Hrun. injection Hrun as <- <-.
  exists all_recs, w1. split; [done|]. split; [done|]. split; [done|].
  split; [|split].
  - rewrite length_map, length_take. lia.
  - rewrite <- list_fmap_compose.
    change (rec_movie_id ∘ with_title (cache w1)) with rec_movie_id.
    apply fmap_sublist. etrans; [apply sublist_take|apply filter_sublist].
  - apply Forall_forall. intros rec Hin.
    apply list_elem_of_fmap in Hin as (rec0 & -> & _).
    eexists. split; [reflexivity|].
    unfold title_shown.
    destruct (redis_hget _ _ _) as [[title|]|e]; try done.
    by destruct (str_truthy title) eqn:E.
Qed.

(** X15.  The footprint of [display_top_5_recommendations].  However it
    ends, it reads no console line and leaves the graph as it was; every
    command it sends to Redis is the read or the write of the user's
    entry for twenty recommendations or the read of a movie's title; and
    no user's cached ratings are read or changed by it. *)
Theorem display_top_5_footprint (w w' : world) (user_id : Z)
    (user_ratings : gmap string pyfloat) (o : outcome (list rec)) :
  display_top_5_recommendations user_id user_ratings w = (o, w') →
  stdin w' = stdin w
  ∧ neo w' = neo w
  ∧ (∃ cs, redis_cmds (trace w') = redis_cmds (trace w) ++ cs
           ∧ Forall (display_command user_id) cs)
  ∧ ∀ u, keyspace (cache w') !! ratings_hash_key u
         = keyspace (cache w) !! ratings_hash_key u
         ∧ keyspace (cache w') !! ratings_list_key u
           = keyspace (cache w) !! ratings_list_key u.
Proof.
  intros Hrun.
  destruct (get_recommendations_for_user user_id 20 600 w) as [o1 w1] eqn:Hget.
  destruct (get_recommendations_commands _ _ _ _ _ _ Hget) as (Hin & cs & Hcs & Hshape).
  destruct (get_recommendations_writes _ _ _ _ _ _ Hget) as (Hneo & _).
  assert (Forall (display_command user_id) cs) as Hcs_ok.
  { destruct Hshape as [->|[payload ->]].
    - apply Forall_cons. split; [by left|constructor].
    - apply Forall_cons. split; [by left|].
      apply Forall_cons. split; [right; left; by eexists|constructor]. }
  assert (∀ u, keyspace (cache w1) !! ratings_hash_key u
               = keyspace (cache w) !! ratings_hash_key u
               ∧ keyspace (cache w1) !! ratings_list_key u
                 = keyspace (cache w) !! ratings_list_key u) as Hkeys.
  { intros u.
    destruct (get_recommendations_cache _ _ _ _ _ _ Hget) as [->|[e ->]]; [done|].
    simpl. rewrite !lookup_insert_ne; [done|..].
    - apply recs_key_ne_list_key.
    - apply recs_key_ne_hash_key. }
  destruct o1 as [all_recs|e].
  - destruct (display_top_5_run w user_id user_ratings all_recs w1 Hget)
      as (t & Hdisplay & Hcmds & Hruns).
    rewrite Hdisplay in Hrun. injection Hrun as <- <-. simpl.
    split; [done|]. split; [done|]. split; [|done].
    exists (cs ++ redis_cmds t). split.
    + by rewrite redis_cmds_app, Hcs, app_assoc.
    + apply Forall_app. split; [done|]. rewrite Hcmds.
      apply Forall_fmap, Forall_forall. intros rec _. right. right. by eexists.
  - unfold display_top_5_recommendations in Hrun.
    erewrite bind_raise in Hrun by exact Hget. injection Hrun as <- <-.
    split; [done|]. split; [done|]. split; [|done].
    exists cs. done.
Qed.

(** ** Rating *)

(** X16.  A rating that is given up at the first prompt costs nothing.
    When there is nothing to rate, or the line typed for the choice is
    blank, is not an integer, or is a number outside the list,
    [rate_movie] prints one line and returns: the list and the in-memory
    ratings are the ones passed in, no command went to Redis (not even
    the look-up of a title), no statement to the graph, and of the
    console only the line of the choice was read, none at all when the
    list is empty. *)
Theorem rate_movie_cancelled_at_choice (w : world) (user_id : Z)
    (recommendations : list rec) (user_ratings : gmap string pyfloat) :
  (recommendations = []
   ∨ ∃ choice rest,
       stdin w = choice :: rest
       ∧ (str_truthy (str_strip choice) = false
          ∨ py_int (str_strip choice) = None
          ∨ ∃ idx, py_int (str_strip choice) = Some idx
                   ∧ (idx < 1 ∨ Z.of_nat (length recommendations) < idx))) →
  ∃ message w',
    rate_movie user_id recommendations user_ratings w
    = (Ok (recommendations, user_ratings), w')
    ∧ cache w' = cache w ∧ neo w' = neo w
    ∧ redis_cmds (trace w') = redis_cmds (trace w)
    ∧ neo_runs (trace w') = neo_runs (trace w)
    ∧ printed (trace w') = printed (trace w) ++ [message]
    ∧ stdin w' = match recommendations with [] => stdin w | _ :: _ => tail (stdin w) end.
Proof.
  intros Hcancel. unfold rate_movie.
  destruct recommendations as [|rec0 recs0].
  { run. eexists _, _. split; [reflexivity|]. simpl.
    rewrite redis_cmds_app, neo_runs_app, printed_app. simpl.
    by rewrite !app_nil_r. }
  destruct Hcancel as [?|(choice & rest & Hin & Hwhy)]; [done|].
  cbv beta iota. set (recommendations := rec0 :: recs0) in *. clearbody recommendations.
  run. rewrite Hin. simpl.
  destruct (str_truthy (str_strip choice)) eqn:Etruthy; simpl.
  2: { eexists _, _. split; [reflexivity|]. simpl.
       rewrite !redis_cmds_app, !neo_runs_app, !printed_app. simpl.
       by rewrite !app_nil_r. }
  destruct (py_int (str_strip choice)) as [idx|] eqn:Eint.
  2: { eexists _, _. split; [reflexivity|]. simpl.
       rewrite !redis_cmds_app, !neo_runs_app, !printed_app. simpl.
       by rewrite !app_nil_r. }
  destruct Hwhy as [?|[?|(idx' & [= <-] & Hrange)]]; [done..|].
  assert ((idx <? 1) || (Z.of_nat (length recommendations) <? idx) = true) as ->.
  { apply orb_true_iff. destruct Hrange; [left|right]; by apply Z.ltb_lt. }
  eexists _, _. split; [reflexivity|]. simpl.
  rewrite !redis_cmds_app, !neo_runs_app, !printed_app. simpl.
  by rewrite !app_nil_r.
Qed.

(** Step 3 when there is an average: the field is written into the movie
    hash, or Redis refuses and a warning is printed instead. *)
Lemma store_avg_rating_some (w0 : world) (redis_key : string) (avg : pyfloat) :
  ∃ c warning,
    store_avg_rating redis_key (Some avg) w0
    = (Ok tt, World c (neo w0) (stdin w0)
                (trace w0 ++ RedisCmd (HSET redis_key {["avg_rating" := float_repr avg]})
                          :: map Printed warning))
    ∧ match redis_hset (cache w0) redis_key {["avg_rating" := float_repr avg]} with
      | Ok r => c = r ∧ warning = []
      | Raise e =>
          c = cache w0
          ∧ warning = ["Warning: failed to update avg_rating in Redis: "
                       +:+ exn_message e]
      end.
Proof.
  unfold store_avg_rating. run.
  destruct (redis_hset (cache w0) redis_key {["avg_rating" := float_repr avg]})
    as [r'|e]; simpl.
  - by exists r', [].
  - eexists _, [_]. rewrite <- app_assoc. split; [reflexivity|done].
Qed.

(** Steps 1 to 4 when step 2 yields an average. *)
Lemma rate_movie_store_with_average (w : world) (user_id : Z)
    (movie_id title : string) (rating : pyfloat)
    (user_ratings : gmap string pyfloat) (movie_int : Z) (avg : pyfloat) :
  let hash_key := ratings_hash_key user_id in
  let field := {["avg_rating" := float_repr avg]} : gmap string string in
  py_int movie_id = Some movie_int →
  (∀ s dl, live (cache w) hash_key ≠ Some (REntry (RString s) dl)) →
  recomputed (neo w) user_id movie_int rating = Some avg →
  ∃ w' c warning h,
    rate_movie_store user_id movie_id title rating user_ratings w
    = (Ok (<[movie_id := rating]> user_ratings), w')
    ∧ match redis_hset (cache w) (movie_key movie_id) field with
      | Ok r => c = r ∧ warning = []
      | Raise e =>
          c = cache w
          ∧ warning = ["Warning: failed to update avg_rating in Redis: "
                       +:+ exn_message e]
      end
    ∧ live (cache w') (movie_key movie_id) = live c (movie_key movie_id)
    ∧ printed (trace w')
      = printed (trace w) ++ warning
        ++ [nl +:+ "You rated '" +:+ title +:+ "' (movie " +:+ movie_id +:+ ") with "
            +:+ float_fmt 1 rating +:+ " stars.";
            "New average rating for this movie is " +:+ float_fmt 2 avg +:+ "." +:+ nl]
    ∧ neo w' = run_merge_rated (neo w) user_id movie_int rating
    ∧ redis_hgetall (cache w') hash_key = Ok h
    ∧ h !! movie_id = Some (float_repr rating).
Proof.
  intros hash_key field Hint Htype Havg.
  set (w2 := World (cache w) (run_merge_rated (neo w) user_id movie_int rating)
                   (stdin w)
                   ((trace w ++ [Neo4jRun (CyMergeRated user_id movie_int rating)])
                    ++ [Neo4jRun (CyAvgRating movie_int)])).
  destruct (store_avg_rating_some w2 (movie_key movie_id) avg)
    as (c & warning & Hstep3 & Hc).
  fold field in Hstep3, Hc. simpl in Hc.
  assert (live c hash_key = live (cache w) hash_key) as Hlive.
  { destruct (redis_hset (cache w) (movie_key movie_id) field) as [r|e] eqn:E.
    - destruct Hc as [-> _]. apply redis_hset_frame in E as [Hclock Hkeys].
      apply live_frame; [done|]. apply Hkeys.
      intros E. symmetry in E. by apply movie_key_ne_hash_key in E.
    - by destruct Hc as [-> _]. }
  destruct (redis_hset_ok c hash_key {[movie_id := float_repr rating]})
    as (h & Hall & Hset & Hnew).
  { apply insert_non_empty. }
  { intros s dl. rewrite Hlive. apply Htype. }
  eexists _, c, warning, _. split.
  { unfold rate_movie_store. rewrite Hint.
    erewrite bind_run by reflexivity.
    erewrite bind_run by reflexivity.
    unfold recomputed in Havg. cbv beta zeta. cbn [neo]. rewrite Havg. fold w2.
    erewrite bind_run by exact Hstep3.
    erewrite bind_run
      by (unfold r_hset, redis_write; simpl; unfold hash_key in Hset;
          rewrite Hset; reflexivity).
    erewrite bind_run by reflexivity.
    erewrite bind_run by reflexivity.
    reflexivity. }
  simpl. split; [done|]. split.
  { apply live_put_ne. intros E. symmetry in E. by apply movie_key_ne_hash_key in E. }
  split.
  { rewrite !printed_app.
    change (printed (RedisCmd (HSET (movie_key movie_id) field) :: map Printed warning))
      with (printed (map Printed warning)).
    rewrite printed_map_Printed. simpl. by rewrite !app_nil_r, <- !app_assoc. }
  split; [done|].
  split.
  { unfold redis_hgetall. rewrite live_put_eq by done. reflexivity. }
  apply lookup_union_Some_l, lookup_singleton_eq.
Qed.

(** Up to its store phase, an accepted rating prints nothing. *)
Lemma rate_movie_accepted_quiet (w : world) (user_id : Z) (recommendations : list rec)
    (user_ratings : gmap string pyfloat) (movie : rec) (rating : pyfloat) :
  submits recommendations w movie rating →
  ∃ title recs1 w1,
    cache w1 = cache w ∧ neo w1 = neo w
    ∧ printed (trace w1) = printed (trace w)
    ∧ rate_movie user_id recommendations user_ratings w
      = match rate_movie_store user_id (pretty (rec_movie_id movie)) title rating
                user_ratings w1 with
        | (Ok user_ratings', w') => (Ok (recs1, user_ratings'), w')
        | (Raise e, w') => (Raise e, w')
        end.
Proof.
  intros (choice & rating_str & rest & idx & Hin & Htruthy & Hint & Hrange & Hmovie
          & Hfloat & Hlo & Hhi).
  unfold rate_movie.
  destruct recommendations as [|rec0 recs0]; [simpl in Hrange; lia|].
  cbv beta iota. set (recommendations := rec0 :: recs0) in *. clearbody recommendations.
  run. rewrite Hin. simpl. rewrite Htruthy. simpl. rewrite Hint.
  destruct (Z.ltb_spec idx 1) as [|_]; [lia|].
  destruct (Z.ltb_spec (Z.of_nat (length recommendations)) idx) as [|_]; [lia|].
  simpl. rewrite Hmovie.
  destruct (negb (opt_truthy (rec_title movie))
            || bool_decide (rec_title movie = Some "(no title)")).
  - match goal with |- context [lookup_title ?k ?w0] =>
      destruct (lookup_title_run k w0) as [t ->] end.
    destruct (opt_truthy t); run; rewrite Hfloat, Hlo, Hhi; simpl;
      (eexists _, _, _; split; [|split; [|split; [|reflexivity]]]);
      simpl; try done; rewrite ?printed_app; simpl; by rewrite ?app_nil_r.
  - run. rewrite Hfloat, Hlo, Hhi. simpl.
    (eexists _, _, _; split; [|split; [|split; [|reflexivity]]]);
      simpl; try done; rewrite ?printed_app; simpl; by rewrite ?app_nil_r.
Qed.

(** X17.  The new average goes into the movie hash as one field.  When a
    rating is accepted, step 2 yields an average and the movie's key does
    not hold a string, the movie hash afterwards has the [repr] of that
    average under [avg_rating] and every other field as before: title,
    genres and year are not touched, and a hash that did not exist is
    created with that one field.  Two lines are printed, the
    confirmation and the new average to two places, and no warning. *)
Theorem rate_movie_updates_average_field (w : world) (user_id : Z)
    (recommendations : list rec) (user_ratings : gmap string pyfloat)
    (movie : rec) (rating : pyfloat) (movie_int : Z) (avg : pyfloat) :
  let movie_id := pretty (rec_movie_id movie) in
  submits recommendations w movie rating →
  py_int movie_id = Some movie_int →
  (∀ s dl, live (cache w) (ratings_hash_key user_id) ≠ Some (REntry (RString s) dl)) →
  (∀ s dl, live (cache w) (movie_key movie_id) ≠ Some (REntry (RString s) dl)) →
  recomputed (neo w) user_id movie_int rating = Some avg →
  ∃ recs' w' before after title,
    rate_movie user_id recommendations user_ratings w
    = (Ok (recs', <[movie_id := rating]> user_ratings), w')
    ∧ redis_hgetall (cache w) (movie_key movie_id) = Ok before
    ∧ redis_hgetall (cache w') (movie_key movie_id) = Ok after
    ∧ after !! "avg_rating" = Some (float_repr avg)
    ∧ (∀ field, field ≠ "avg_rating" → after !! field = before !! field)
    ∧ printed (trace w')
      = printed (trace w)
        ++ [nl +:+ "You rated '" +:+ title +:+ "' (movie " +:+ movie_id +:+ ") with "
            +:+ float_fmt 1 rating +:+ " stars.";
            "New average rating for this movie is " +:+ float_fmt 2 avg +:+ "." +:+ nl].
Proof.
  intros movie_id Hsub Hint Htype Hmovie Havg.
  destruct (rate_movie_accepted_quiet w user_id recommendations user_ratings movie
              rating Hsub)
    as (title & recs1 & w1 & Hc & Hn & Hp & ->).
  fold movie_id.
  destruct (rate_movie_store_with_average w1 user_id movie_id title rating
              user_ratings movie_int avg Hint)
    as (w' & c & warning & h & -> & Hstep3 & Hlive & Hprinted & _).
  { rewrite Hc. apply Htype. }
  { by rewrite Hn. }
  rewrite Hc in Hstep3.
  destruct (redis_hset_ok (cache w) (movie_key movie_id)
              {["avg_rating" := float_repr avg]})
    as (before & Hall & Hset & Hnew); [apply insert_non_empty|done|].
  rewrite Hset in Hstep3. destruct Hstep3 as [-> ->].
  rewrite live_put_eq in Hlive by done.
  exists recs1, w', before, ({["avg_rating" := float_repr avg]} ∪ before), title.
  split; [done|]. split; [done|]. split.
  { unfold redis_hgetall. by rewrite Hlive. }
  split; [apply lookup_union_Some_l, lookup_singleton_eq|].
  split; [|by rewrite Hprinted, Hp].
  intros field Hfield. rewrite lookup_union_r; [done|].
  by apply lookup_singleton_ne.
Qed.

(** X18.  A failure of step 3 does not stop the rating.  When the movie's
    key holds a string, so that Redis refuses the update of the average,
    the refusal is caught: a warning with Redis's message is printed, the
    key is left as it was, and the call goes on to record the rating in
    the user's hash and in memory and to print the confirmation and the
    average, returning normally.  These three lines are all it prints. *)
Theorem rate_movie_survives_movie_key_error (w : world) (user_id : Z)
    (recommendations : list rec) (user_ratings : gmap string pyfloat)
    (movie : rec) (rating : pyfloat) (movie_int : Z) (avg : pyfloat)
    (s : string) (dl : option Z) :
  let movie_id := pretty (rec_movie_id movie) in
  submits recommendations w movie rating →
  py_int movie_id = Some movie_int →
  (∀ s dl, live (cache w) (ratings_hash_key user_id) ≠ Some (REntry (RString s) dl)) →
  live (cache w) (movie_key movie_id) = Some (REntry (RString s) dl) →
  recomputed (neo w) user_id movie_int rating = Some avg →
  ∃ recs' w' h title,
    rate_movie user_id recommendations user_ratings w
    = (Ok (recs', <[movie_id := rating]> user_ratings), w')
    ∧ live (cache w') (movie_key movie_id) = Some (REntry (RString s) dl)
    ∧ redis_hgetall (cache w') (ratings_hash_key user_id) = Ok h
    ∧ h !! movie_id = Some (float_repr rating)
    ∧ neo w' = run_merge_rated (neo w) user_id movie_int rating
    ∧ printed (trace w')
      = printed (trace w)
        ++ ["Warning: failed to update avg_rating in Redis: " +:+ exn_message WrongType;
            nl +:+ "You rated '" +:+ title +:+ "' (movie " +:+ movie_id +:+ ") with "
            +:+ float_fmt 1 rating +:+ " stars.";
            "New average rating for this movie is " +:+ float_fmt 2 avg +:+ "." +:+ nl].
Proof.
  intros movie_id Hsub Hint Htype Hmovie Havg.
  destruct (rate_movie_accepted_quiet w user_id recommendations user_ratings movie
              rating Hsub)
    as (title & recs1 & w1 & Hc & Hn & Hp & ->).
  fold movie_id.
  destruct (rate_movie_store_with_average w1 user_id movie_id title rating
              user_ratings movie_int avg Hint)
    as (w' & c & warning & h & -> & Hstep3 & Hlive & Hprinted & Hneo & Hall & Hfield).
  { rewrite Hc. apply Htype. }
  { by rewrite Hn. }
  rewrite Hc in Hstep3.
  assert (redis_hset (cache w) (movie_key movie_id) {["avg_rating" := float_repr avg]}
          = Raise WrongType) as Hset.
  { unfold redis_hset. rewrite decide_False by apply insert_non_empty.
    by rewrite Hmovie. }
  rewrite Hset in Hstep3. destruct Hstep3 as [-> ->].
  exists recs1, w', h, title.
  split; [done|]. split; [by rewrite Hlive|]. split; [done|]. split; [done|].
  split; [by rewrite Hneo, Hn|by rewrite Hprinted, Hp].
Qed.



(** ** The session *)

Lemma bind_inv {A B} (c : M A) (f : A → M B) (w w' : world) (b : B) :
  (c ≫= f) w = (Ok b, w') → ∃ a w1, c w = (Ok a, w1) ∧ f a w1 = (Ok b, w').
Proof.
  unfold mbind, M_bind. destruct (c w) as [[a|e] w1]; [eauto|done].
Qed.

(** The search with user context only reads Redis. *)
Lemma search_with_context_cache (w w' : world) (user_id : Z)
    (user_ratings : gmap string pyfloat) (o : outcome unit) :
  search_movies_with_user_context user_id user_ratings w = (o, w') →
  cache w' = cache w.
Proof.
  unfold search_movies_with_user_context. run.
  destruct (stdin w) as [|line rest]; simpl; [by intros [= <- <-]|].
  destruct (str_truthy (str_strip line)); simpl; [|by intros [= <- <-]].
  destruct (ft_search _ _ _ _) as [res|]; simpl; [|by intros [= <- <-]].
  destruct (total res =? 0); simpl; [by intros [= <- <-]|].
  rewrite for_each_show_doc. simpl. by intros [= <- <-].
Qed.

(** What an HGETALL sees depends on the key's entry and the clock. *)
Lemma redis_hgetall_frame (r r' : redis) (k : string) :
  clock r' = clock r → keyspace r' !! k = keyspace r !! k →
  redis_hgetall r' k = redis_hgetall r k.
Proof. intros Hc Hk. unfold redis_hgetall. by rewrite (live_frame r r' k). Qed.

(** A run of steps 1 to 4 that completes has put the rating into the
    user's hash and into memory. *)
Lemma rate_movie_store_inv (w w' : world) (user_id : Z) (movie_id title : string)
    (rating : pyfloat) (user_ratings user_ratings' : gmap string pyfloat)
    (h : gmap string string) :
  redis_hgetall (cache w) (ratings_hash_key user_id) = Ok h →
  rate_movie_store user_id movie_id title rating user_ratings w
  = (Ok user_ratings', w') →
  user_ratings' = <[movie_id := rating]> user_ratings
  ∧ redis_hgetall (cache w') (ratings_hash_key user_id)
    = Ok ({[movie_id := float_repr rating]} ∪ h).
Proof.
  intros Hall. unfold rate_movie_store.
  destruct (py_int movie_id) as [movie_int|]; [|done].
  intros Hrun.
  apply bind_inv in Hrun as ([] & w1 & Hstep1 & Hrun).
  apply bind_inv in Hrun as (avg_record & w2 & Hstep2 & Hrun).
  apply bind_inv in Hrun as ([] & w3 & Hstep3 & Hrun).
  apply bind_inv in Hrun as ([] & w4 & Hstep4 & Hrun).
  apply bind_inv in Hrun as ([] & w5 & Hprint & Hrun).
  apply bind_inv in Hrun as ([] & w6 & Hprint' & Hrun).
  injection Hrun as <- <-. split; [done|].
  assert (cache w2 = cache w) as Hc2.
  { revert Hstep1 Hstep2. run. by intros [= <-] [= _ <-]. }
  destruct (store_avg_rating_run w2 (movie_key movie_id)
              match avg_record with Some avg_rating => avg_rating | None => None end)
    as (c & tr & Hrun3 & Hclock & Hkeys & _).
  rewrite Hrun3 in Hstep3. injection Hstep3 as <-.
  assert (redis_hgetall c (ratings_hash_key user_id) = Ok h) as Hall3.
  { rewrite <- Hall, <- Hc2. apply redis_hgetall_frame; [done|].
    apply Hkeys. left. intros E. symmetry in E. by apply movie_key_ne_hash_key in E. }
  assert (cache w6 = cache w4) as Hc6.
  { revert Hprint Hprint'. run. intros [= <-].
    destruct avg_record as [[avg|]|]; run; by intros [= <-]. }
  rewrite Hc6. revert Hstep4. run.
  destruct (redis_hset c (ratings_hash_key user_id) {[movie_id := float_repr rating]})
    as [r'|e] eqn:Hset; [|done].
  intros [= <-]. simpl.
  destruct (redis_hset_ok c (ratings_hash_key user_id) {[movie_id := float_repr rating]})
    as (h0 & Hall0 & Hset0 & Hnew).
  { apply insert_non_empty. }
  { intros s dl Hlive. unfold redis_hgetall in Hall3. by rewrite Hlive in Hall3. }
  rewrite Hall3 in Hall0. injection Hall0 as <-.
  rewrite Hset in Hset0. injection Hset0 as ->.
  unfold redis_hgetall. by rewrite live_put_eq.
Qed.

(** However [rate_movie] gets there, a call that completes has either
    left the rating cache and the in-memory ratings alone or added the
    same movie to both. *)
Lemma rate_movie_inv (w w' : world) (user_id : Z) (recommendations recs' : list rec)
    (user_ratings user_ratings' : gmap string pyfloat) (h : gmap string string) :
  redis_hgetall (cache w) (ratings_hash_key user_id) = Ok h →
  rate_movie user_id recommendations user_ratings w = (Ok (recs', user_ratings'), w') →
  (user_ratings' = user_ratings ∧ cache w' = cache w)
  ∨ ∃ movie_id rating,
      user_ratings' = <[movie_id := rating]> user_ratings
      ∧ redis_hgetall (cache w') (ratings_hash_key user_id)
        = Ok ({[movie_id := float_repr rating]} ∪ h).
Proof.
  intros Hall. unfold rate_movie.
  destruct recommendations as [|rec0 recs0].
  { run. intros [= <- <- <-]. by left. }
  cbv beta iota. set (recommendations := rec0 :: recs0) in *. clearbody recommendations.
  run.
  destruct (stdin w) as [|choice rest]; simpl; [done|].
  destruct (str_truthy (str_strip choice)); simpl; [|intros [= <- <- <-]; by left].
  destruct (py_int (str_strip choice)) as [idx|]; [|intros [= <- <- <-]; by left].
  destruct (if (idx <? 1) || (Z.of_nat (length recommendations) <? idx)
            then None else recommendations !! Z.to_nat (idx - 1)) as [movie|];
    [|intros [= <- <- <-]; by left].
  assert (∀ title recs1 w1,
    cache w1 = cache w →
    (raw ← input ("Enter your rating for '" +:+ title +:+ "' (0.5 - 5.0): ");
     let rating_str := str_strip raw in
     match py_float rating_str with
     | None =>
         print ("Invalid rating. Rating cancelled." +:+ nl);;
         mret (recs1, user_ratings)
     | Some rating_val =>
         if negb (float_le lit_0_5 rating_val && float_le rating_val lit_5_0)
         then
           print ("Rating must be between 0.5 and 5.0. Rating cancelled." +:+ nl);;
           mret (recs1, user_ratings)
         else
           user_ratings ← rate_movie_store user_id (pretty (rec_movie_id movie))
                            title rating_val user_ratings;
           mret (recs1, user_ratings)
     end) w1 = (Ok (recs', user_ratings'), w') →
    (user_ratings' = user_ratings ∧ cache w' = cache w)
    ∨ ∃ movie_id rating,
        user_ratings' = <[movie_id := rating]> user_ratings
        ∧ redis_hgetall (cache w') (ratings_hash_key user_id)
          = Ok ({[movie_id := float_repr rating]} ∪ h)) as Hrating.
  { intros title recs1 w1 Hc Hrun.
    apply bind_inv in Hrun as (raw & w2 & Hinput & Hrun).
    assert (cache w2 = cache w) as Hc2.
    { revert Hinput. unfold input. destruct (stdin w1); simpl; [done|].
      intros [= _ <-]. done. }
    cbv zeta in Hrun.
    destruct (py_float (str_strip raw)) as [rating|].
    2: { revert Hrun. run. intros [= <- <- <-]. by left. }
    destruct (negb (float_le lit_0_5 rating && float_le rating lit_5_0)).
    { revert Hrun. run. intros [= <- <- <-]. by left. }
    apply bind_inv in Hrun as (ur & w3 & Hstore & Hrun).
    injection Hrun as <- <- <-.
    right. exists (pretty (rec_movie_id movie)), rating.
    eapply rate_movie_store_inv; [|exact Hstore]. by rewrite Hc2. }
  destruct (negb (opt_truthy (rec_title movie))
            || bool_decide (rec_title movie = Some "(no title)")).
  - match goal with |- context [lookup_title ?k ?w0] =>
      destruct (lookup_title_run k w0) as [t ->] end.
    destruct (opt_truthy t); apply Hrating; done.
  - apply Hrating; done.
Qed.

(** X20.  Throughout a session, whatever Redis holds as the user's rated
    movies is known to the session: the live rating hash of the user has
    no movie id that is not a key of the in-memory ratings.  The log-in
    establishes this; a turn of the menu that returns to the menu keeps
    it, whichever option is taken and however it goes, and does not
    change the user; and so does any lapse of time, by which the hash can
    only disappear.  This is the session by itself: a second console of
    the same user writes to the same hash. *)
Theorem session_knows_cached_ratings :
  (∀ (w w' : world) (s : session),
     run_user_application_login w = (Ok s, w') → cache_within_memory s w')
  ∧ (∀ (w w' : world) (s s' : session),
       cache_within_memory s w →
       run_user_application_menu s w = (Ok (Some s'), w') →
       cache_within_memory s' w' ∧ s_user_id s' = s_user_id s)
  ∧ (∀ (w : world) (s : session) (d : Z),
       cache_within_memory s w → 0 ≤ d → cache_within_memory s (later d w)).
Proof.
  split; [|split].
  - intros w w' s Hrun. unfold run_user_application_login in Hrun.
    apply bind_inv in Hrun as (user_id & w1 & _ & Hrun).
    apply bind_inv in Hrun as (user_name & w2 & _ & Hrun).
    apply bind_inv in Hrun as (rated_movies & w3 & _ & Hrun).
    apply bind_inv in Hrun as ([] & w4 & _ & Hrun).
    apply bind_inv in Hrun as (user_ratings & w5 & Hget & Hrun).
    injection Hrun as <- <-.
    destruct (get_cached_user_ratings_inv _ _ _ _ Hget) as (h & Hall & Hok & ->).
    destruct (get_cached_user_ratings_frame _ _ _ _ Hget) as (Hc & _).
    exists h. simpl. split; [by rewrite Hc|].
    intros movie_id [v Hv]. rewrite lookup_omap, Hv. simpl. exact (Hok _ _ Hv).
  - intros w w' s s' (h & Hall & Hsub) Hrun.
    unfold run_user_application_menu in Hrun.
    do 5 (apply bind_inv in Hrun as ([] & ? & [= <-] & Hrun)).
    apply bind_inv in Hrun as (raw & w1 & Hinput & Hrun).
    assert (cache w1 = cache w) as Hc1.
    { revert Hinput. unfold input. simpl. destruct (stdin w); simpl; [done|].
      intros [= _ <-]. done. }
    cbv zeta in Hrun.
    destruct (String.eqb (str_strip raw) "1").
    { apply bind_inv in Hrun as ([] & w2 & Hsearch & Hrun).
      injection Hrun as <- <-. split; [|done].
      apply search_with_context_cache in Hsearch.
      exists h. by rewrite Hsearch, Hc1. }
    destruct (String.eqb (str_strip raw) "2").
    { apply bind_inv in Hrun as (recs & w2 & Hdisplay & Hrun).
      injection Hrun as <- <-. split; [|done].
      exists h. simpl. split; [|done].
      rewrite <- Hall, <- Hc1.
      destruct (get_recommendations_for_user (s_user_id s) 20 600 w1)
        as [[all_recs|e] w1'] eqn:Hget.
      2: { unfold display_top_5_recommendations in Hdisplay.
           erewrite bind_raise in Hdisplay by exact Hget. done. }
      destruct (display_top_5_run w1 (s_user_id s) (s_user_ratings s) all_recs w1' Hget)
        as (t & Hd & _).
      rewrite Hd in Hdisplay. injection Hdisplay as _ <-. simpl.
      destruct (get_recommendations_cache _ _ _ _ _ _ Hget) as [->|[e ->]]; [done|].
      apply redis_hgetall_frame; [done|]. simpl.
      apply lookup_insert_ne, recs_key_ne_hash_key. }
    destruct (String.eqb (str_strip raw) "3").
    { destruct (s_last_recommendations s) as [|rec0 recs0] eqn:Elast.
      { apply bind_inv in Hrun as ([] & w2 & [= <-] & Hrun).
        injection Hrun as <- <-. split; [|done]. exists h. simpl. by rewrite Hc1. }
      apply bind_inv in Hrun as ([recs user_ratings'] & w2 & Hrate & Hrun).
      injection Hrun as <- <-. split; [|done]. simpl.
      eapply rate_movie_inv in Hrate; [|by rewrite Hc1].
      destruct Hrate as [[-> Hc2]|(movie_id & rating & -> & Hall2)].
      - exists h. by rewrite Hc2, Hc1.
      - eexists. split; [exact Hall2|]. simpl.
        intros m [v Hv]. destruct (decide (m = movie_id)) as [->|Hne].
        + rewrite lookup_insert_eq. by eexists.
        + rewrite lookup_insert_ne by done. apply Hsub.
          apply lookup_union_Some_raw in Hv as [Hv|[_ Hv]]; [|by eexists].
          apply lookup_singleton_Some in Hv as [-> _]. done. }
    destruct (String.eqb (str_strip raw) "0").
    { apply bind_inv in Hrun as ([] & w2 & _ & Hrun). done. }
    apply bind_inv in Hrun as ([] & w2 & [= <-] & Hrun).
    injection Hrun as <- <-. split; [|done]. exists h. simpl. by rewrite Hc1.
  - intros w s d (h & Hall & Hsub) Hd.
    unfold cache_within_memory, later, redis_hgetall, live, advance in *. simpl.
    destruct (keyspace (cache w) !! ratings_hash_key (s_user_id s)) as [e|];
      [|exists ∅; split; [done|]; intros m [? Hm]; by rewrite lookup_empty in Hm].
    unfold expired in *.
    destruct (deadline e) as [t|]; [|by exists h].
    destruct (Z.leb_spec t (clock (cache w) + d)).
    + exists ∅. split; [done|]. intros m [? Hm]. by rewrite lookup_empty in Hm.
    + destruct (Z.leb_spec t (clock (cache w))); [lia|]. by exists h.
Qed.

(** X21.  In a session that knows the cached ratings, the recommendations
    shown leave out every movie of the user's rating hash in Redis: none
    of the movies [display_top_5_recommendations] returns for the
    session's user and in-memory ratings is a field of that hash, before
    or after the call. *)
Theorem display_top_5_skips_cached_ratings (w w' : world) (s : session)
    (recs : list rec) :
  cache_within_memory s w →
  display_top_5_recommendations (s_user_id s) (s_user_ratings s) w = (Ok recs, w') →
  ∃ h,
    redis_hgetall (cache w) (ratings_hash_key (s_user_id s)) = Ok h
    ∧ redis_hgetall (cache w') (ratings_hash_key (s_user_id s)) = Ok h
    ∧ ∀ rec, rec ∈ recs → h !! pretty (rec_movie_id rec) = None.
Proof.
  intros (h & Hall & Hsub) Hdisplay.
  destruct (get_recommendations_for_user (s_user_id s) 20 600 w)
    as [[all_recs|e] w1] eqn:Hget.
  2: { unfold display_top_5_recommendations in Hdisplay.
       erewrite bind_raise in Hdisplay by exact Hget. done. }
  destruct (display_top_5_run w (s_user_id s) (s_user_ratings s) all_recs w1 Hget)
    as (t & Hd & _).
  rewrite Hd in Hdisplay. injection Hdisplay as <- <-.
  exists h. split; [done|]. split.
  - rewrite <- Hall. simpl.
    destruct (get_recommendations_cache _ _ _ _ _ _ Hget) as [->|[e ->]]; [done|].
    apply redis_hgetall_frame; [done|]. simpl.
    apply lookup_insert_ne, recs_key_ne_hash_key.
  - intros rec Hin. apply list_elem_of_fmap in Hin as (rec0 & -> & Hin).
    simpl. apply elem_of_take in Hin as (i & Hin & _).
    apply list_elem_of_lookup_2 in Hin. apply unseen_spec in Hin.
    destruct (h !! pretty (rec_movie_id rec0)) as [v|] eqn:Hv; [|done].
    destruct (Hsub _ (mk_is_Some _ _ Hv)) as [x Hx]. by rewrite Hin in Hx.
Qed.


(** A turn of the menu on an idle line. *)
Lemma menu_idle_turn (w : world) (s : session) (line : string) (rest : list string) :
  stdin w = line :: rest →
  idle_choice s line = true →
  ∃ t,
    run_user_application_menu s w
    = (Ok (Some s), World (cache w) (neo w) rest (trace w ++ t))
    ∧ redis_cmds t = [] ∧ neo_runs t = [].
Proof.
  intros Hin Hidle. unfold idle_choice in Hidle. cbv zeta in Hidle.
  apply andb_true_iff in Hidle as [Hidle Hthree].
  apply andb_true_iff in Hidle as [Hidle Hzero].
  apply andb_true_iff in Hidle as [Hone Htwo].
  apply negb_true_iff in Hzero, Hone, Htwo.
  unfold run_user_application_menu. run. rewrite Hin. simpl.
  rewrite Hone, Htwo, Hzero.
  destruct (String.eqb (str_strip line) "3"); simpl in Hthree.
  - destruct (s_last_recommendations s); [|done]. run.
    rewrite <- !app_assoc. eexists. split; [reflexivity|]. done.
  - run. rewrite <- !app_assoc. eexists. split; [reflexivity|]. done.
Qed.

(** X22.  The menu loop ends when 0 is chosen, and idle lines before
    that cost nothing.  When the console holds lines that start nothing
    (no option of the menu, or option 3 while no recommendations are
    loaded) and then a 0, [run_user_application]'s loop returns after
    reading exactly those lines, with the session's stores untouched: no
    command was sent to Redis and no statement to the graph. *)
Theorem menu_loop_ends_on_zero (w : world) (s : session) (idle : list string)
    (line : string) (rest : list string) :
  stdin w = idle ++ line :: rest →
  Forall (λ line, idle_choice s line = true) idle →
  str_strip line = "0" →
  ∃ w',
    run_user_application_loop (S (length (stdin w))) s w = (Ok tt, w')
    ∧ stdin w' = rest
    ∧ cache w' = cache w ∧ neo w' = neo w
    ∧ redis_cmds (trace w') = redis_cmds (trace w)
    ∧ neo_runs (trace w') = neo_runs (trace w).
Proof.
  intros Hin Hidle Hzero.
  assert (∀ fuel (w0 : world),
            stdin w0 = idle ++ line :: rest → (length idle < fuel)%nat →
            ∃ t, run_user_application_loop fuel s w0
                 = (Ok tt, World (cache w0) (neo w0) rest (trace w0 ++ t))
                 ∧ redis_cmds t = [] ∧ neo_runs t = []) as Hloop.
  { clear w Hin. induction idle as [|first idle IH]; intros fuel w Hin Hfuel.
    - destruct fuel as [|fuel]; [simpl in Hfuel; lia|].
      simpl in Hin. cbn [run_user_application_loop].
      unfold run_user_application_menu. run. rewrite Hin. simpl. rewrite Hzero.
      simpl. rewrite <- !app_assoc. eexists. split; [reflexivity|]. done.
    - destruct fuel as [|fuel]; [simpl in Hfuel; lia|].
      apply Forall_cons in Hidle as [Hfirst Hidle].
      destruct (menu_idle_turn w s first (idle ++ line :: rest) Hin Hfirst)
        as (t1 & Hturn & Hc1 & Hn1).
      cbn [run_user_application_loop]. erewrite bind_run by exact Hturn.
      destruct (IH Hidle fuel (World (cache w) (neo w) (idle ++ line :: rest)
                                 (trace w ++ t1)))
        as (t2 & -> & Hc2 & Hn2); [done|simpl in Hfuel; lia|].
      cbn [cache neo trace]. rewrite <- app_assoc.
      eexists. split; [reflexivity|].
      by rewrite redis_cmds_app, neo_runs_app, Hc1, Hc2, Hn1, Hn2. }
  destruct (Hloop (S (length (stdin w))) w Hin) as (t & -> & Hc & Hn).
  { rewrite Hin, length_app. simpl. lia. }
  eexists. split; [reflexivity|]. simpl.
  by rewrite redis_cmds_app, neo_runs_app, Hc, Hn, !app_nil_r.
Qed.

End Further.

Section LoadingProperties.
Context `{PyFloat} `{PyStr} `{!PyJson} `{!Neo4j} `{RediSearch} `{!MovieScan}.

(** Unfold the monad and the primitive actions and compute. *)
Ltac run :=
  repeat (progress (
    unfold mbind, mret, M_bind, M_ret, print, emit, input, raise, try_except,
      redis_read, redis_write, neo_read, neo_write,
      r_get, r_setex, r_set, r_hset, r_expire, r_delete, r_hgetall, r_hget, r_search;
    simpl)).

(** ** Loading the movies *)

Lemma movie_fields_nonempty (record : movie_row) : movie_fields record ≠ ∅.
Proof. unfold movie_fields. apply insert_non_empty. Qed.

(** The loop over the records of the scan, none of whose keys holds a
    string and no two of which have the same key. *)
Lemma load_movie_records_run (result : list movie_row) (count : Z) (w : world) :
  (∀ record s dl, record ∈ result →
     live (cache w) (movie_row_key record) ≠ Some (REntry (RString s) dl)) →
  NoDup (map movie_row_key result) →
  ∃ w',
    load_movie_records result count w = (Ok (count + Z.of_nat (length result)), w')
    ∧ clock (cache w') = clock (cache w)
    ∧ (∀ k, k ∉ map movie_row_key result →
            keyspace (cache w') !! k = keyspace (cache w) !! k)
    ∧ (∀ record, record ∈ result →
         ∃ h, redis_hgetall (cache w) (movie_row_key record) = Ok h
              ∧ live (cache w') (movie_row_key record)
                = Some (REntry (RHash (movie_fields record ∪ h))
                          (from_option deadline None
                             (live (cache w) (movie_row_key record)))))
    ∧ neo w' = neo w ∧ stdin w' = stdin w
    ∧ redis_cmds (trace w')
      = redis_cmds (trace w)
        ++ map (λ record, HSET (movie_row_key record) (movie_fields record)) result
    ∧ printed (trace w') = printed (trace w)
    ∧ neo_runs (trace w') = neo_runs (trace w).
Proof.
  revert count w. induction result as [|record rest IH]; intros count w Htype Hdup.
  - exists w. simpl. rewrite Z.add_0_r, app_nil_r. repeat split; try done.
    intros record Hin. by apply elem_of_nil in Hin.
  - apply NoDup_cons in Hdup as [Hfirst Hdup]. fold (map movie_row_key rest) in *.
    destruct (redis_hset_ok (cache w) (movie_row_key record) (movie_fields record))
      as (h & Hall & Hset & Hnew).
    { apply movie_fields_nonempty. }
    { intros s dl. apply Htype. by left. }
    set (r1 := put (cache w) (movie_row_key record)
                 (REntry (RHash (movie_fields record ∪ h))
                    (from_option deadline None (live (cache w) (movie_row_key record)))))
      in *.
    set (w1 := World r1 (neo w) (stdin w)
                 (trace w ++ [RedisCmd (HSET (movie_row_key record) (movie_fields record))])).
    assert (∀ k, k ≠ movie_row_key record → live r1 k = live (cache w) k) as Hother.
    { intros k Hk. apply live_put_ne. done. }
    destruct (IH (count + 1) w1) as (w' & Hrun & Hclock & Hkeys & Hrows & Hn & Hs & Hc & Hp & Hq).
    { intros record' s dl Hin. simpl. rewrite Hother; [apply Htype; by right|].
      intros E. apply Hfirst. rewrite <- E. apply list_elem_of_fmap. by exists record'. }
    { done. }
    exists w'. split.
    { cbn [load_movie_records].
      erewrite bind_run
        by (unfold r_hset, redis_write; rewrite Hset; reflexivity).
      fold w1. rewrite Hrun. do 2 f_equal. cbn [length]. lia. }
    split; [by rewrite Hclock|]. split.
    { intros k Hk. apply not_elem_of_cons in Hk as [Hk1 Hk2].
      rewrite (Hkeys k Hk2). simpl. by rewrite lookup_insert_ne. }
    split.
    { intros record' Hin. apply elem_of_cons in Hin as [->|Hin].
      - exists h. split; [done|].
        rewrite <- (live_put_eq (cache w) (movie_row_key record) _ Hnew).
        apply live_frame; [done|]. by apply Hkeys.
      - destruct (Hrows record' Hin) as (h' & Hall' & Hlive').
        assert (movie_row_key record' ≠ movie_row_key record) as Hne.
        { intros E. apply Hfirst. rewrite <- E. apply list_elem_of_fmap. by exists record'. }
        exists h'. simpl in Hall', Hlive'. unfold redis_hgetall in *.
        rewrite Hother in Hall', Hlive' by done. done. }
    split; [done|]. split; [done|]. split.
    { rewrite Hc. simpl. rewrite redis_cmds_app. simpl. by rewrite <- app_assoc. }
    split.
    { rewrite Hp. simpl. rewrite printed_app. simpl. by rewrite app_nil_r. }
    rewrite Hq. simpl. rewrite neo_runs_app. simpl. by rewrite app_nil_r.
Qed.

(** X23.  Every movie of the scan gets its hash.  When no key of a
    scanned movie holds a string and no two scanned movies share an id,
    [load_movies_from_neo4j_into_redis] completes; it sends one HSET per
    movie, in the order of the scan, and nothing else; the hash under
    [movie:<id>] then has the id, the title, the genres and the year of
    the movie as text (an empty title for a null one, the genres joined
    with [" | "], the year 0 for a null one); and the last line printed
    gives the number of movies scanned. *)
Theorem load_movies_writes_every_movie (w : world) :
  let result := run_all_movies (neo w) in
  (∀ record s dl, record ∈ result →
     live (cache w) (movie_row_key record) ≠ Some (REntry (RString s) dl)) →
  NoDup (map movie_row_key result) →
  ∃ w',
    load_movies_from_neo4j_into_redis w = (Ok tt, w')
    ∧ redis_cmds (trace w')
      = redis_cmds (trace w)
        ++ map (λ record, HSET (movie_row_key record) (movie_fields record)) result
    ∧ printed (trace w')
      = printed (trace w)
        ++ ["Loading movies from Neo4j into Redis...";
            "Loaded " +:+ pretty (Z.of_nat (length result)) +:+ " movie hashes into Redis."]
    ∧ ∀ record, record ∈ result →
        ∃ h, redis_hgetall (cache w') (movie_row_key record) = Ok h
             ∧ h !! "movie_id" = Some (movie_id_str (mrow_movie_id record))
             ∧ h !! "title" = Some (title_str (mrow_title record))
             ∧ h !! "genres" = Some (genres_str (mrow_genres record))
             ∧ h !! "year" = Some (year_str (mrow_year record)).
Proof.
  intros result Htype Hdup.
  set (w0 := World (cache w) (neo w) (stdin w)
               (trace w ++ [Printed "Loading movies from Neo4j into Redis..."])).
  destruct (load_movie_records_run result 0 w0 Htype Hdup)
    as (w1 & Hrun & _ & _ & Hrows & _ & _ & Hc & Hp & _).
  eexists. split.
  { unfold load_movies_from_neo4j_into_redis.
    erewrite bind_run by reflexivity. fold w0.
    erewrite bind_run by reflexivity. fold result.
    erewrite bind_run by exact Hrun.
    reflexivity. }
  simpl. rewrite redis_cmds_app, printed_app, Hc, Hp. simpl.
  rewrite redis_cmds_app, printed_app. simpl.
  rewrite !app_nil_r, <- !app_assoc. split; [done|]. split; [done|].
  intros record Hin. destruct (Hrows record Hin) as (h & _ & Hlive).
  eexists. split; [unfold redis_hgetall; by rewrite Hlive|].
  unfold movie_fields.
  split; [|split; [|split]]; apply lookup_union_Some_l;
    repeat (first [by apply lookup_insert_eq
                  | rewrite lookup_insert_ne by done]).
Qed.

(** X24.  Reloading the movies wipes nothing.  Under the same
    hypotheses, a field of a movie hash other than the four that are
    written (the average that [rate_movie] stores, for one) is after the
    load what it was before; the key of a scanned movie keeps its expiry,
    none if it had none or was not there; every key that is not the key
    of a scanned movie, such as a user's cached ratings or
    recommendations, is as before; and the graph is not changed. *)
Theorem load_movies_keeps_the_rest (w : world) :
  let result := run_all_movies (neo w) in
  (∀ record s dl, record ∈ result →
     live (cache w) (movie_row_key record) ≠ Some (REntry (RString s) dl)) →
  NoDup (map movie_row_key result) →
  ∃ w',
    load_movies_from_neo4j_into_redis w = (Ok tt, w')
    ∧ neo w' = neo w
    ∧ clock (cache w') = clock (cache w)
    ∧ (∀ record, record ∈ result →
         ∃ before after e,
           redis_hgetall (cache w) (movie_row_key record) = Ok before
           ∧ redis_hgetall (cache w') (movie_row_key record) = Ok after
           ∧ (∀ field, field ∉ ["movie_id"; "title"; "genres"; "year"] →
                       after !! field = before !! field)
           ∧ live (cache w') (movie_row_key record) = Some e
           ∧ deadline e
             = from_option deadline None (live (cache w) (movie_row_key record)))
    ∧ (∀ k, k ∉ map movie_row_key result →
            keyspace (cache w') !! k = keyspace (cache w) !! k)
    ∧ ∀ u k, keyspace (cache w') !! ratings_hash_key u
             = keyspace (cache w) !! ratings_hash_key u
             ∧ keyspace (cache w') !! recs_cache_key u k
               = keyspace (cache w) !! recs_cache_key u k.
Proof.
  intros result Htype Hdup.
  set (w0 := World (cache w) (neo w) (stdin w)
               (trace w ++ [Printed "Loading movies from Neo4j into Redis..."])).
  destruct (load_movie_records_run result 0 w0 Htype Hdup)
    as (w1 & Hrun & Hclock & Hkeys & Hrows & Hn & _).
  eexists. split.
  { unfold load_movies_from_neo4j_into_redis.
    erewrite bind_run by reflexivity. fold w0.
    erewrite bind_run by reflexivity. fold result.
    erewrite bind_run by exact Hrun.
    reflexivity. }
  simpl. split; [done|]. split; [done|]. split; [|split; [done|]].
  - intros record Hin. destruct (Hrows record Hin) as (h & Hall & Hlive).
    eexists h, _, _. split; [done|]. split; [unfold redis_hgetall; by rewrite Hlive|].
    split; [|split; [exact Hlive|done]].
    intros field Hfield. apply lookup_union_r. unfold movie_fields.
    repeat (rewrite lookup_insert_ne
              by (intros <-; apply Hfield; repeat constructor)).
    apply lookup_singleton_ne. intros <-. apply Hfield. repeat constructor.
  - intros u k. split; apply Hkeys; intros Hin;
      apply list_elem_of_fmap in Hin as (record & E & _).
    + symmetry in E. by apply movie_key_ne_hash_key in E.
    + by apply recs_key_ne_movie_key in E.
Qed.


Lemma load_movie_records_app (l1 l2 : list movie_row) (count : Z) (w : world) :
  load_movie_records (l1 ++ l2) count w
  = (load_movie_records l1 count ≫= load_movie_records l2) w.
Proof.
  revert count w. induction l1 as [|record l1 IH]; intros count w; [done|].
  cbn [app load_movie_records]. unfold mbind, M_bind.
  destruct (r_hset (movie_row_key record) (movie_fields record) w) as [[[]|e] w1];
    [|reflexivity].
  rewrite IH. reflexivity.
Qed.

(** X25.  A key that holds a string stops the load half way.  When the
    scan reaches a movie whose key holds a string, the HSET for it is
    refused and the refusal is not caught: the load ends with Redis's
    error, the movies before that one are loaded, no later one is tried,
    and the closing line with the count is not printed. *)
Theorem load_movies_stops_at_a_string_key (w : world) (before after : list movie_row)
    (record : movie_row) (s : string) (dl : option Z) :
  run_all_movies (neo w) = before ++ record :: after →
  (∀ loaded s dl, loaded ∈ before →
     live (cache w) (movie_row_key loaded) ≠ Some (REntry (RString s) dl)) →
  NoDup (map movie_row_key (before ++ [record])) →
  live (cache w) (movie_row_key record) = Some (REntry (RString s) dl) →
  ∃ w',
    load_movies_from_neo4j_into_redis w = (Raise WrongType, w')
    ∧ redis_cmds (trace w')
      = redis_cmds (trace w)
        ++ map (λ record, HSET (movie_row_key record) (movie_fields record))
               (before ++ [record])
    ∧ printed (trace w')
      = printed (trace w) ++ ["Loading movies from Neo4j into Redis..."]
    ∧ (∀ loaded, loaded ∈ before →
         ∃ h, redis_hgetall (cache w') (movie_row_key loaded) = Ok h
              ∧ h !! "movie_id" = Some (movie_id_str (mrow_movie_id loaded)))
    ∧ ∀ k, k ∉ map movie_row_key before →
           keyspace (cache w') !! k = keyspace (cache w) !! k.
Proof.
  intros Hscan Htype Hdup Hstring.
  rewrite map_app in Hdup. apply NoDup_app in Hdup as (Hdup & Hfresh & _).
  assert (movie_row_key record ∉ map movie_row_key before) as Hnot.
  { intros Hin. apply (Hfresh _ Hin). simpl. by left. }
  set (w0 := World (cache w) (neo w) (stdin w)
               (trace w ++ [Printed "Loading movies from Neo4j into Redis..."])).
  destruct (load_movie_records_run before 0 w0 Htype Hdup)
    as (w1 & Hrun & Hclock & Hkeys & Hrows & _ & _ & Hc & Hp & _).
  assert (redis_hset (cache w1) (movie_row_key record) (movie_fields record)
          = Raise WrongType) as Hset.
  { unfold redis_hset. rewrite decide_False by apply movie_fields_nonempty.
    rewrite (live_frame (cache w) (cache w1)), Hstring; [done|done|].
    by apply Hkeys. }
  eexists. split.
  { unfold load_movies_from_neo4j_into_redis.
    erewrite bind_run by reflexivity. fold w0.
    erewrite bind_run by reflexivity. change (neo w0) with (neo w). rewrite Hscan.
    erewrite bind_raise; [reflexivity|].
    rewrite load_movie_records_app. erewrite bind_run by exact Hrun.
    cbn [load_movie_records]. erewrite bind_raise; [reflexivity|].
    unfold r_hset, redis_write. rewrite Hset. reflexivity. }
  simpl. rewrite redis_cmds_app, printed_app, Hc, Hp. simpl.
  rewrite redis_cmds_app, printed_app, map_app. simpl.
  rewrite !app_nil_r, <- !app_assoc. split; [done|]. split; [done|]. split; [|done].
  intros loaded Hin. destruct (Hrows loaded Hin) as (h & _ & Hlive).
  eexists. split; [unfold redis_hgetall; by rewrite Hlive|].
  apply lookup_union_Some_l. unfold movie_fields. by apply lookup_insert_eq.
Qed.

End LoadingProperties.

Import Dec Json Graph Search Scenario.

(** * The theorems at work

    Each statement above is applied to the catalogue, its hypotheses
    checked there by evaluation; the three statements of the specification
    that the program does not satisfy are refuted on it. *)

(** Closed equations are settled by evaluating their left-hand side. *)
Ltac evaluated :=
  lazymatch goal with
  | |- _ = ?value => vm_cast_no_check (@eq_refl _ value)
  end.


(** Loading no ratings over a hash that is there, and Ann's one rating
    into a Redis without one. *)
Lemma cache_user_rated_movies_writes_witness :
  ann_rated ≠ []
  ∧ live (cache start) (ratings_hash_key 1) = None
  ∧ (∃ w',
       cache_user_rated_movies 1 [] 3600 leftover = (Ok tt, w')
       ∧ keyspace (cache w') !! ratings_hash_key 1 = None
       ∧ live (cache w') (ratings_list_key 1)
         = Some (REntry (RString (json_dumps_rated [])) (Some 3600)))
  ∧ (∃ w' h,
       cache_user_rated_movies 1 ann_rated 3600 start
       = (Ok tt, w')
       ∧ live (cache w') (ratings_hash_key 1) = Some (REntry (RHash h) (Some 3600))
       ∧ h !! "8" = Some "4.0").
Proof.
  assert (ann_rated ≠ []) as Hne by discriminate.
  assert (live (cache start) (ratings_hash_key 1) = None) as Hnone by evaluated.
  assert (rating_mapping ann_rated !! "8" = Some (DFin 4))
    as Hfield by evaluated.
  assert (float_repr (DFin 4) = "4.0") as Hrepr by evaluated.
  split; [exact Hne|]. split; [exact Hnone|]. split.
  - destruct (cache_user_rated_movies_writes leftover 1) as [Hempty _].
    exact Hempty.
  - destruct (cache_user_rated_movies_writes start 1) as [_ Hfull].
    destruct (Hfull ann_rated Hne)
      as (w' & h & Hrun & Hhash & Hfields & _).
    { intros s dl. rewrite Hnone. discriminate. }
    exists w', h. split; [exact Hrun|]. split; [exact Hhash|].
    rewrite <- Hrepr. exact (Hfields "8" (DFin 4) Hfield).
Defined.

(** Loading Ann's one rating, for movie 8, over a hash that has a field
    for movie 5: the field stays. *)
Lemma cache_user_rated_movies_merges_witness :
  ann_rated ≠ []
  ∧ live (cache leftover) (ratings_hash_key 1)
    = Some (REntry (RHash {[ "5" := "3.0" ]}) (Some 100))
  ∧ ({[ "5" := "3.0" ]} : gmap string string) !! "5" = Some "3.0"
  ∧ ∃ w' h',
      cache_user_rated_movies 1 ann_rated 3600 leftover
      = (Ok tt, w')
      ∧ redis_hgetall (cache w') (ratings_hash_key 1) = Ok h'
      ∧ h' !! "5" = Some "3.0"
      ∧ rating_mapping ann_rated !! "5" = None.
Proof.
  assert (ann_rated ≠ []) as H1 by discriminate.
  assert (live (cache leftover) (ratings_hash_key 1)
          = Some (REntry (RHash {[ "5" := "3.0" ]}) (Some 100))) as H2 by evaluated.
  assert (({[ "5" := "3.0" ]} : gmap string string) !! "5" = Some "3.0") as H3
    by evaluated.
  assert ("5" ∉ map rated_movie_id ann_rated) as H4.
  { unfold ann_rated. cbn [map rated_movie_id]. intros Hin. apply list_elem_of_singleton in Hin.
    discriminate Hin. }
  split; [exact H1|]. split; [exact H2|]. split; [exact H3|].
  exact (cache_user_rated_movies_merges leftover 1 _ _ _ "5" "3.0" H1 H2 H3 H4).
Defined.

(** The console input ["1"], ["3.5"] against [lost_film]. *)
Lemma lost_film_submitted :
  submits [lost_film] (typing ["1"; "3.5"] start) lost_film (DFin (7 # 2)).
Proof.
  exists "1", "3.5", [], 1.
  split; [reflexivity|]. split; [evaluated|]. split; [evaluated|].
  split; [cbn [length]; lia|]. split; [reflexivity|].
  split; [evaluated|]. split; evaluated.
Defined.

(** The console input ["1"], ["4.5"] against the first recommendation. *)
Lemma star_wars_submitted :
  submits first_recs (typing ["1"; "4.5"] start) star_wars (DFin (9 # 2)).
Proof.
  exists "1", "4.5", [], 1.
  split; [reflexivity|]. split; [evaluated|]. split; [evaluated|].
  split; [unfold first_recs; cbn [length]; lia|]. split; [reflexivity|].
  split; [evaluated|]. split; evaluated.
Defined.

(** Ann rates Star Wars 4.5 and reads her cached ratings back. *)
Lemma rate_movie_updates_cached_ratings_witness :
  submits first_recs (typing ["1"; "4.5"] start) star_wars (DFin (9 # 2))
  ∧ py_int (pretty (rec_movie_id star_wars)) = Some 7
  ∧ (get_cached_user_ratings 1 (typing ["1"; "4.5"] start)).1 = Ok ∅
  ∧ py_float (float_repr (DFin (9 # 2))) = Some (DFin (9 # 2))
  ∧ ∃ recs' w' w'',
      rate_movie 1 first_recs ∅ (typing ["1"; "4.5"] start)
      = (Ok (recs', <[pretty (rec_movie_id star_wars) := DFin (9 # 2)]> ∅), w')
      ∧ get_cached_user_ratings 1 w' = (Ok (<[pretty (rec_movie_id star_wars) := DFin (9 # 2)]> ∅), w'').
Proof.
  assert (py_int (pretty (rec_movie_id star_wars)) = Some 7) as Hint by evaluated.
  assert ((get_cached_user_ratings 1 (typing ["1"; "4.5"] start)).1 = Ok ∅) as Hread
    by evaluated.
  assert (py_float (float_repr (DFin (9 # 2))) = Some (DFin (9 # 2))) as Hrepr
    by evaluated.
  split; [exact star_wars_submitted|]. split; [exact Hint|].
  split; [exact Hread|]. split; [exact Hrepr|].
  destruct (rate_movie_updates_cached_ratings (typing ["1"; "4.5"] start)
              (get_cached_user_ratings 1 (typing ["1"; "4.5"] start)).2 1
              first_recs ∅ ∅ star_wars (DFin (9 # 2)) 7
              star_wars_submitted Hint)
    as (recs' & w' & w'' & Hrun & Hget & _).
  { rewrite <- Hread. apply surjective_pairing. }
  { exact Hrepr. }
  exists recs', w', w''. split; [exact Hrun|exact Hget].
Defined.

(** A rating of 7.5, and a rating that is not a number. *)
Lemma rate_movie_rejects_invalid_rating_witness :
  py_float (str_strip "7.5") = Some (DFin (15 # 2))
  ∧ float_le lit_0_5 (DFin (15 # 2)) && float_le (DFin (15 # 2)) lit_5_0 = false
  ∧ py_float (str_strip "four") = None
  ∧ cache (rate_movie 1 first_recs ∅ (typing ["1"; "7.5"] start)).2 = cache start
  ∧ neo (rate_movie 1 first_recs ∅ (typing ["1"; "7.5"] start)).2 = neo start
  ∧ cache (rate_movie 1 first_recs ∅ (typing ["1"; "four"] start)).2 = cache start
  ∧ neo (rate_movie 1 first_recs ∅ (typing ["1"; "four"] start)).2 = neo start.
Proof.
  assert (py_float (str_strip "7.5") = Some (DFin (15 # 2))) as Hparse by evaluated.
  assert (float_le lit_0_5 (DFin (15 # 2)) && float_le (DFin (15 # 2)) lit_5_0 = false)
    as Hrange by evaluated.
  assert (py_float (str_strip "four") = None) as Htext by evaluated.
  split; [exact Hparse|]. split; [exact Hrange|]. split; [exact Htext|].
  destruct (rate_movie_rejects_invalid_rating (typing ["1"; "7.5"] start)
              (rate_movie 1 first_recs ∅ (typing ["1"; "7.5"] start)).2
              1 first_recs ∅ "1" "7.5" []
              (rate_movie 1 first_recs ∅ (typing ["1"; "7.5"] start)).1 eq_refl)
    as (Hc & Hn & _).
  { intros rating E. rewrite Hparse in E. injection E as <-. exact Hrange. }
  { apply surjective_pairing. }
  destruct (rate_movie_rejects_invalid_rating (typing ["1"; "four"] start)
              (rate_movie 1 first_recs ∅ (typing ["1"; "four"] start)).2
              1 first_recs ∅ "1" "four" []
              (rate_movie 1 first_recs ∅ (typing ["1"; "four"] start)).1 eq_refl)
    as (Hc' & Hn' & _).
  { intros rating E. rewrite Htext in E. discriminate E. }
  { apply surjective_pairing. }
  split; [exact Hc|]. split; [exact Hn|]. split; [exact Hc'|exact Hn'].
Defined.

(** Ann's first rating creates her rating hash, without a deadline. *)
Lemma rate_movie_leaves_expiry_witness :
  submits first_recs (typing ["1"; "4.5"] start) star_wars (DFin (9 # 2))
  ∧ py_int (pretty (rec_movie_id star_wars)) = Some 7
  ∧ live (cache (typing ["1"; "4.5"] start)) (ratings_hash_key 1) = None
  ∧ ∃ recs' w' e',
      rate_movie 1 first_recs ∅ (typing ["1"; "4.5"] start)
      = (Ok (recs', <[pretty (rec_movie_id star_wars) := DFin (9 # 2)]> ∅), w')
      ∧ live (cache w') (ratings_hash_key 1) = Some e'
      ∧ deadline e' = None
      ∧ ∀ d, live (advance d (cache w')) (ratings_hash_key 1) = Some e'.
Proof.
  assert (py_int (pretty (rec_movie_id star_wars)) = Some 7) as Hint by evaluated.
  assert (live (cache (typing ["1"; "4.5"] start)) (ratings_hash_key 1) = None)
    as Hnone by evaluated.
  split; [exact star_wars_submitted|]. split; [exact Hint|]. split; [exact Hnone|].
  destruct (rate_movie_leaves_expiry (typing ["1"; "4.5"] start) 1 first_recs ∅
              star_wars (DFin (9 # 2)) 7 star_wars_submitted Hint)
    as (recs' & w' & e' & Hrun & _ & Hlive & _ & Hfresh).
  { intros s dl. rewrite Hnone. discriminate. }
  destruct (Hfresh Hnone) as [Hdl Hstay].
  exists recs', w', e'.
  split; [exact Hrun|]. split; [exact Hlive|]. split; [exact Hdl|exact Hstay].
Defined.

(** Ann's top five at the start: neither is the movie she has rated. *)
Lemma display_top_5_filters_by_argument_witness :
  (display_top_5_recommendations 1 (s_user_ratings ann) start).1 = Ok shown_recs
  ∧ ∀ rec, rec ∈ shown_recs →
           s_user_ratings ann !! pretty (rec_movie_id rec) = None.
Proof.
  assert ((display_top_5_recommendations 1 (s_user_ratings ann) start).1
          = Ok shown_recs) as Hshown by evaluated.
  split; [exact Hshown|].
  destruct (display_top_5_filters_by_argument start
              (display_top_5_recommendations 1 (s_user_ratings ann) start).2
              1 (s_user_ratings ann)
              (display_top_5_recommendations 1 (s_user_ratings ann) start).1)
    as [Hfilter _].
  { apply surjective_pairing. }
  intros rec Hin. exact (Hfilter shown_recs rec Hshown Hin).
Defined.

(** C1 as stated fails.  Ann is logged in on two consoles.  On the second
    she is shown her recommendations, which caches them, and rates Star
    Wars; her cached rating mapping now has movie 7.  The first console,
    asked for its top five, still returns movie 7: it filters by the dict
    it read at log-in. *)
Lemma display_top_5_returns_cached_rated_movie :
  ∃ recs cached rec,
    (display_top_5_recommendations 1 (s_user_ratings ann) stale).1 = Ok recs
    ∧ (get_cached_user_ratings 1 stale).1 = Ok cached
    ∧ rec ∈ recs
    ∧ cached !! pretty (rec_movie_id rec) = Some (DFin (9 # 2)).
Proof.
  exists shown_recs, {[ "7" := DFin (9 # 2); "8" := DFin 4 ]}, star_wars_shown.
  split; [evaluated|]. split; [evaluated|].
  split; [apply list_elem_of_here|evaluated].
Qed.

(** Ann searches for [star] right after logging in. *)
Lemma search_annotates_from_argument_witness :
  stdin (typing ["star"] start) = ["star"]
  ∧ str_truthy (str_strip "star") = true
  ∧ ft_search (cache (typing ["star"] start)) (title_query (str_strip "star")) 0 10
    = Some star_hits
  ∧ total star_hits = 2
  ∧ ∃ w' header,
      search_movies_with_user_context 1 (s_user_ratings ann) (typing ["star"] start)
      = (Ok tt, w')
      ∧ redis_cmds (trace w')
        = redis_cmds (trace (typing ["star"] start))
          ++ [FT_SEARCH (title_query (str_strip "star")) 0 10]
      ∧ printed (trace w')
        = printed (trace (typing ["star"] start)) ++ [header]
          ++ concat (map (context_lines (s_user_ratings ann)) (docs star_hits)) ++ [""].
Proof.
  assert (str_truthy (str_strip "star") = true) as Htruthy by evaluated.
  assert (ft_search (cache (typing ["star"] start)) (title_query (str_strip "star")) 0 10
          = Some star_hits) as Hfound by evaluated.
  split; [reflexivity|]. split; [exact Htruthy|]. split; [exact Hfound|].
  split; [reflexivity|].
  destruct (search_annotates_from_argument (typing ["star"] start) 1
              (s_user_ratings ann) "star" [] star_hits eq_refl Htruthy Hfound)
    as (w' & header & Hrun & _ & Hcmds & Hprinted & _).
  { discriminate. }
  exists w', header. split; [exact Hrun|]. split; [exact Hcmds|exact Hprinted].
Defined.

(** C6 as stated fails.  Ann logged in with one rating, for Heat, and
    leaves the console for an hour, so that her cached mapping expires.
    A search for [heat] still marks the movie as seen with her rating: the
    marks come from the dict read at log-in, while the rating cache holds
    nothing for her any more. *)
Lemma search_marks_from_expired_ratings :
  ft_search (cache hour_later) (title_query (str_strip "heat")) 0 10
  = Some (SearchResult 1 [heat_doc])
  ∧ doc_movie_key heat_doc = "8"
  ∧ printed (trace (search_movies_with_user_context 1 (s_user_ratings ann)
                      (typing ["heat"] hour_later)).2)
    = [ nl +:+ "Top 1 results for " +:+ dq +:+ "heat" +:+ dq +:+ ":" +:+ nl;
        "  Movie ID     : 8";
        "  Title      : Heat";
        "  Genres     : Action | Crime";
        "  Avg Rating : N/A";
        "  Seen       : YES";
        "  Your rating: 4.0";
        "";
        "" ]
  ∧ (get_cached_user_ratings 1 hour_later).1 = Ok ∅.
Proof.
  split; [evaluated|]. split; [evaluated|]. split; evaluated.
Qed.

(** The text [star wars] typed into either search. *)
Lemma search_query_strings_witness :
  str_truthy (str_strip "star wars") = true
  ∧ (∃ o w' n,
       redis_fulltext_search_demo (typing ["star wars"; "3"] start) = (o, w')
       ∧ 1 ≤ n ≤ 10
       ∧ redis_cmds (trace w')
         = redis_cmds (trace start) ++ [FT_SEARCH (str_strip "star wars") 0 n])
  ∧ (∃ o w',
       search_movies_with_user_context 1 ∅ (typing ["star wars"] start) = (o, w')
       ∧ redis_cmds (trace w')
         = redis_cmds (trace start)
           ++ [FT_SEARCH (if has_space (str_strip "star wars")
                          then "@title:(" +:+ str_strip "star wars" +:+ ")"
                          else "@title:" +:+ str_strip "star wars") 0 10]).
Proof.
  assert (str_truthy (str_strip "star wars") = true) as Htruthy by evaluated.
  split; [exact Htruthy|].
  exact (search_query_strings start 1 ∅ "star wars" "3" [] Htruthy).
Defined.

(** C7 as stated fails: the search with user context does not pass the
    text on as typed, it scopes it to the title field. *)
Lemma search_with_context_scopes_query :
  redis_cmds (trace (search_movies_with_user_context 1 ∅ (typing ["star"] start)).2)
  = [FT_SEARCH "@title:star" 0 10]
  ∧ redis_cmds (trace (search_movies_with_user_context 1 ∅
                         (typing ["star wars"] start)).2)
    = [FT_SEARCH "@title:(star wars)" 0 10]
  ∧ "@title:star" ≠ "star"
  ∧ "@title:(star wars)" ≠ "star wars".
Proof.
  split; [evaluated|]. split; [evaluated|]. split; discriminate.
Qed.

(** * The Cypher statements

    Properties of the statements as the property graph of the runtime
    above carries them out. *)

Lemma insert_by_perm {A} (le : A → A → bool) (x : A) (l : list A) :
  insert_by le x l ≡ₚ x :: l.
Proof.
  induction l as [|y l IH]; [done|]. simpl.
  destruct (le x y); [done|]. rewrite IH. apply Permutation_swap.
Qed.

Lemma sort_by_perm {A} (le : A → A → bool) (l : list A) : sort_by le l ≡ₚ l.
Proof.
  induction l as [|x l IH]; [done|]. simpl.
  rewrite insert_by_perm. by rewrite IH.
Qed.

Lemma member_spec (x : Z) (l : list Z) : member x l = true ↔ x ∈ l.
Proof.
  unfold member. rewrite existsb_exists. split.
  - intros (y & Hin & Heq). apply Z.eqb_eq in Heq as <-. by apply list_elem_of_In.
  - intros Hin. exists x. split; [by apply list_elem_of_In|apply Z.eqb_refl].
Qed.

Lemma elem_of_filter {A} (f : A → bool) (x : A) (l : list A) :
  x ∈ List.filter f l ↔ x ∈ l ∧ f x = true.
Proof. rewrite !list_elem_of_In. apply filter_In. Qed.

(** The movies of the rows that the collaborative filter returns. *)
Lemma top_k_rows (g : cgraph) (user_id k : Z) (row : Z * dfloat) :
  row ∈ top_k g user_id k →
  (row.1 ∉ rated_by g user_id)
  ∧ ∃ e, e ∈ ratings g ∧ e.1.2 = row.1 ∧ e.1.1 ≠ user_id.
Proof.
  unfold top_k. destruct (negb (has_node (users g) user_id)).
  { intros Hin. by apply elem_of_nil in Hin. }
  cbv zeta. intros Hin.
  apply subseteq_take in Hin. rewrite sort_by_perm in Hin.
  apply list_elem_of_fmap in Hin as (movie_id & -> & Hin). simpl.
  apply elem_of_remove_dups, list_elem_of_fmap in Hin as (e & -> & Hin).
  apply elem_of_filter in Hin as (Hin & Hcond).
  apply andb_true_iff in Hcond as (Hneighbour & Hnew).
  split.
  - apply negb_true_iff in Hnew. intros Hrated. apply member_spec in Hrated.
    by rewrite Hrated in Hnew.
  - exists e. split; [done|]. split; [done|].
    apply member_spec in Hneighbour.
    apply list_elem_of_fmap in Hneighbour as (pair & -> & Hpair).
    apply subseteq_take in Hpair. rewrite sort_by_perm in Hpair.
    apply list_elem_of_fmap in Hpair as (other & -> & Hother). simpl.
    apply elem_of_remove_dups, list_elem_of_fmap in Hother as (e' & -> & He').
    apply elem_of_filter in He' as (_ & Hcond').
    apply andb_true_iff in Hcond' as (Hne & _).
    apply negb_true_iff, Z.eqb_neq in Hne. done.
Qed.

(** X26.  The collaborative filter recommends only what is new to the
    user.  Of the rows that the recommendation query returns, none is for
    a movie the user has rated, each is for a movie that somebody else
    has rated, no movie comes twice, and there are at most [k] of them;
    for a user the graph does not have there are none. *)
Theorem top_k_recommends_unrated_movies (g : cgraph) (user_id k : Z) :
  (∀ row, row ∈ top_k g user_id k →
          (row.1 ∉ rated_by g user_id)
          ∧ ∃ e, e ∈ ratings g ∧ e.1.2 = row.1 ∧ e.1.1 ≠ user_id)
  ∧ NoDup (map fst (top_k g user_id k))
  ∧ (length (top_k g user_id k) ≤ Z.to_nat k)%nat
  ∧ (has_node (users g) user_id = false → top_k g user_id k = []).
Proof.
  split; [apply top_k_rows|]. split; [|split].
  - unfold top_k. destruct (negb (has_node (users g) user_id)); [constructor|].
    cbv zeta.
    match goal with |- NoDup (map fst (take ?n (sort_by ?le (map ?f ?ids)))) =>
      set (scored := map f ids); assert (map fst scored = ids) as Hids
    end.
    { subst scored. rewrite <- list_fmap_compose. apply list_fmap_id. }
    match goal with |- NoDup (map fst (take ?n ?sorted)) =>
      apply (sublist_NoDup _ (map fst sorted));
        [|apply fmap_sublist, sublist_take]
    end.
    rewrite sort_by_perm, Hids. apply NoDup_remove_dups.
  - unfold top_k. destruct (negb (has_node (users g) user_id)); [simpl; lia|].
    cbv zeta. rewrite length_take. lia.
  - intros Hnone. unfold top_k. by rewrite Hnone.
Qed.

Lemma has_node_spec {A} (nodes : list (Z * A)) (id : Z) :
  has_node nodes id = true ↔ ∃ node, node ∈ nodes ∧ node.1 = id.
Proof.
  unfold has_node. rewrite existsb_exists. split.
  - intros (node & Hin & Heq). exists node. split; [by apply list_elem_of_In|].
    by apply Z.eqb_eq.
  - intros (node & Hin & Heq). exists node. split; [by apply list_elem_of_In|].
    by apply Z.eqb_eq.
Qed.

(** After the upsert between two nodes that exist there is an edge
    between them, with the rating given. *)
Lemma merge_rated_edge (g : cgraph) (user_id movie_id : Z) (rating : dfloat) :
  has_node (users g) user_id = true →
  has_node (movies g) movie_id = true →
  (user_id, movie_id, rating) ∈ ratings (merge_rated g user_id movie_id rating).
Proof.
  intros Hu Hm. unfold merge_rated. rewrite Hu, Hm. simpl.
  destruct (existsb (is_edge user_id movie_id) (ratings g)) eqn:Hedge; simpl.
  - apply existsb_exists in Hedge as (e & Hin & He).
    apply list_elem_of_fmap. exists e. rewrite He.
    split; [done|by apply list_elem_of_In].
  - apply elem_of_app. right. by apply list_elem_of_singleton.
Qed.

(** X27.  A movie the user has rated is not recommended to them again by
    the graph.  Once [rate_movie]'s upsert has run for a user and a movie
    that both exist, no row of the recommendation query for that user is
    for that movie, whatever [k]: when the movie is still shown, it is
    from a cached list. *)
Theorem rated_movie_leaves_the_query (g : cgraph) (user_id movie_id k : Z)
    (rating : dfloat) :
  has_node (users g) user_id = true →
  has_node (movies g) movie_id = true →
  ∀ row, row ∈ top_k (merge_rated g user_id movie_id rating) user_id k →
         row.1 ≠ movie_id.
Proof.
  intros Hu Hm row Hrow Heq.
  apply top_k_rows in Hrow as [Hnew _]. apply Hnew.
  unfold rated_by. apply list_elem_of_fmap.
  exists (user_id, movie_id, rating). split; [done|].
  apply elem_of_filter. split; [by apply merge_rated_edge|]. simpl. apply Z.eqb_refl.
Qed.

(** X28.  Rating again replaces the rating.  Two upserts for the same
    user and movie leave the graph that the second alone would have
    left; when the pair had no edge before, it has exactly one
    afterwards, with the last rating.  An upsert for a user or a movie
    that the graph does not have changes nothing. *)
Theorem merge_rated_overwrites (g : cgraph) (user_id movie_id : Z)
    (first last : dfloat) :
  merge_rated (merge_rated g user_id movie_id first) user_id movie_id last
  = merge_rated g user_id movie_id last
  ∧ (has_node (users g) user_id && has_node (movies g) movie_id = false →
     merge_rated g user_id movie_id last = g)
  ∧ (existsb (is_edge user_id movie_id) (ratings g) = false →
     List.filter (is_edge user_id movie_id)
                 (ratings (merge_rated (merge_rated g user_id movie_id first)
                                       user_id movie_id last))
     = if has_node (users g) user_id && has_node (movies g) movie_id
       then [(user_id, movie_id, last)] else []).
Proof.
  assert (is_edge user_id movie_id (user_id, movie_id, first) = true) as Hself.
  { unfold is_edge. simpl. by rewrite !Z.eqb_refl. }
  assert (∀ l, existsb (is_edge user_id movie_id) l = false →
               List.filter (is_edge user_id movie_id) l = []
               ∧ ∀ r, map (λ e, if is_edge user_id movie_id e
                                then (user_id, movie_id, r) else e) l = l) as Hnone.
  { induction l as [|e l IH]; [done|]. simpl. intros Hor.
    apply orb_false_iff in Hor as [He Hl]. rewrite He.
    destruct (IH Hl) as [-> Hmap]. split; [done|]. intros r. by rewrite Hmap. }
  assert (merge_rated (merge_rated g user_id movie_id first) user_id movie_id last
          = merge_rated g user_id movie_id last) as Htwice.
  { unfold merge_rated.
    destruct (has_node (users g) user_id && has_node (movies g) movie_id) eqn:Hnodes;
      [|by rewrite Hnodes].
    destruct (existsb (is_edge user_id movie_id) (ratings g)) eqn:Hedge; simpl;
      rewrite Hnodes.
    - assert (existsb (is_edge user_id movie_id)
                (map (λ e, if is_edge user_id movie_id e
                           then (user_id, movie_id, first) else e) (ratings g)) = true)
        as ->.
      { apply existsb_exists in Hedge as (e & Hin & He). apply existsb_exists.
        exists (user_id, movie_id, first). split; [|done].
        apply in_map_iff. exists e. by rewrite He. }
      f_equal. rewrite <- list_fmap_compose. apply list_fmap_ext.
      intros i e _. simpl. destruct (is_edge user_id movie_id e) eqn:He; [|by rewrite He].
      by rewrite Hself.
    - rewrite existsb_app. simpl. rewrite Hself, orb_true_r.
      f_equal. rewrite map_app. simpl. rewrite Hself.
      by destruct (Hnone _ Hedge) as [_ ->]. }
  split; [done|]. split.
  - intros Hnodes. unfold merge_rated. by rewrite Hnodes.
  - intros Hedge. rewrite Htwice. unfold merge_rated.
    destruct (has_node (users g) user_id && has_node (movies g) movie_id); simpl.
    + rewrite Hedge. simpl. rewrite List.filter_app. simpl.
      destruct (Hnone _ Hedge) as [-> _].
      unfold is_edge. simpl. by rewrite !Z.eqb_refl.
    + by destruct (Hnone _ Hedge) as [-> _].
Qed.

(** X29.  When the average can and cannot be recomputed.  After the
    upsert of a rating between a user and a movie that exist, the average
    query for the movie yields a value, so [rate_movie] stores an average;
    for a movie that the graph does not have and nobody has an edge to,
    the upsert matches nothing and the average is null, the case in which
    [rate_movie] reports that the average could not be recomputed. *)
Theorem average_after_rating (g : cgraph) (user_id movie_id : Z) (rating : dfloat) :
  (has_node (users g) user_id = true → has_node (movies g) movie_id = true →
   is_Some (recomputed g user_id movie_id rating))
  ∧ (has_node (movies g) movie_id = false →
     (∀ e, e ∈ ratings g → e.1.2 ≠ movie_id) →
     recomputed g user_id movie_id rating = None
     ∧ merge_rated g user_id movie_id rating = g).
Proof.
  split.
  - intros Hu Hm. unfold recomputed. simpl. unfold avg_rating.
    pose proof (merge_rated_edge g user_id movie_id rating Hu Hm) as Hedge.
    assert ((user_id, movie_id, rating)
            ∈ List.filter (λ e, e.1.2 =? movie_id)
                (ratings (merge_rated g user_id movie_id rating))) as Hin.
    { apply elem_of_filter. split; [done|]. simpl. apply Z.eqb_refl. }
    destruct (List.filter _ _) as [|e l]; [by apply elem_of_nil in Hin|].
    unfold mean. cbn [map]. by destruct (foldl _ _ _).
  - intros Hm Hnone.
    assert (merge_rated g user_id movie_id rating = g) as Hsame.
    { unfold merge_rated. by rewrite Hm, andb_false_r. }
    split; [|done]. unfold recomputed. simpl. rewrite Hsame. unfold avg_rating.
    assert (List.filter (λ e, e.1.2 =? movie_id) (ratings g) = []) as ->; [|done].
    induction (ratings g) as [|e l IH]; [done|]. simpl.
    destruct (Z.eqb_spec e.1.2 movie_id) as [Heq|_].
    + exfalso. apply (Hnone e); [by left|done].
    + apply IH. intros e' Hin. apply Hnone. by right.
Qed.


Lemma user_name_set_name (g : cgraph) (user_id : Z) (name : string) :
  is_Some (user_name g user_id) →
  user_name (set_name g user_id name) user_id = Some (Some name).
Proof.
  unfold user_name, set_name. simpl.
  induction (users g) as [|node nodes IH]; simpl; [by intros [? ?]|].
  destruct (Z.eqb_spec node.1 user_id) as [Heq|Hne]; simpl.
  - by rewrite Heq, Z.eqb_refl.
  - destruct (Z.eqb_spec node.1 user_id); [done|]. exact IH.
Qed.

Lemma user_name_merge_user (g : cgraph) (user_id : Z) (name : string) :
  user_name g user_id = None →
  user_name (merge_user g user_id name) user_id = Some (Some name).
Proof.
  unfold user_name, merge_user, has_node. intros Hnone.
  apply fmap_None in Hnone.
  assert (∀ nodes : list (Z * option string),
            List.find (λ node, node.1 =? user_id) nodes = None →
            existsb (λ node, node.1 =? user_id) nodes = false
            ∧ List.find (λ node, node.1 =? user_id) (nodes ++ [(user_id, Some name)])
              = Some (user_id, Some name)) as Hfind.
  { induction nodes as [|node nodes IH]; simpl.
    - by rewrite Z.eqb_refl.
    - destruct (node.1 =? user_id); [done|]. exact IH. }
  destruct (Hfind _ Hnone) as [-> Hlast]. simpl. by rewrite Hlast.
Qed.

(** X30.  A profile is asked for its name at most once.  Whatever the
    graph holds for the user id and whatever is typed, the name that
    [get_or_create_user] returns is the name the graph has for that user
    afterwards, so a second call is a welcome back: it returns the same
    name, reads nothing from the console and does not write. *)
Theorem get_or_create_user_settles (w : world) (user_id : Z) (line : string)
    (rest : list string) :
  stdin w = line :: rest →
  ∃ name w1 w2,
    get_or_create_user user_id w = (Ok name, w1)
    ∧ user_name (neo w1) user_id = Some (Some name)
    ∧ get_or_create_user user_id w1 = (Ok name, w2)
    ∧ stdin w2 = stdin w1 ∧ neo w2 = neo w1
    ∧ neo_runs (trace w2) = neo_runs (trace w1) ++ [CyUserName user_id].
Proof.
  intros Hin.
  assert (∀ (w1 : world) name,
            user_name (neo w1) user_id = Some (Some name) →
            ∃ w2, get_or_create_user user_id w1 = (Ok name, w2)
                  ∧ stdin w2 = stdin w1 ∧ neo w2 = neo w1
                  ∧ neo_runs (trace w2) = neo_runs (trace w1) ++ [CyUserName user_id])
    as Hknown.
  { intros w1 name Hname. eexists. split.
    - unfold get_or_create_user. erewrite bind_run by reflexivity.
      cbn [run_user_name graph_Neo4j neo]. rewrite Hname.
      erewrite bind_run by reflexivity. reflexivity.
    - cbn [stdin neo trace]. rewrite !neo_runs_app. cbn. by rewrite app_nil_r. }
  destruct (user_name (neo w) user_id) as [[existing|]|] eqn:Hname.
  - destruct (Hknown w existing Hname) as (w1 & Hrun & Hs & Hn & Hr).
    assert (user_name (neo w1) user_id = Some (Some existing)) as Hname1
      by (by rewrite Hn).
    destruct (Hknown w1 existing Hname1) as (w2 & Hrun2 & Hs2 & Hn2 & Hr2).
    by exists existing, w1, w2.
  - assert (∃ name w1, get_or_create_user user_id w = (Ok name, w1)
                       ∧ neo w1 = set_name (neo w) user_id name) as (name & w1 & Hrun & Hn).
    { eexists _, _. split.
      - unfold get_or_create_user. erewrite bind_run by reflexivity.
        cbn [run_user_name graph_Neo4j neo]. rewrite Hname.
        erewrite bind_run by (unfold input; cbn [stdin]; rewrite Hin; reflexivity).
        cbv zeta.
        erewrite bind_run by reflexivity.
        erewrite bind_run by reflexivity. reflexivity.
      - reflexivity. }
    assert (user_name (neo w1) user_id = Some (Some name)) as Hname1.
    { rewrite Hn. apply user_name_set_name. by rewrite Hname. }
    destruct (Hknown w1 name Hname1) as (w2 & Hrun2 & Hrest).
    by exists name, w1, w2.
  - assert (∃ name w1, get_or_create_user user_id w = (Ok name, w1)
                       ∧ neo w1 = merge_user (neo w) user_id name) as (name & w1 & Hrun & Hn).
    { eexists _, _. split.
      - unfold get_or_create_user. erewrite bind_run by reflexivity.
        cbn [run_user_name graph_Neo4j neo]. rewrite Hname.
        erewrite bind_run by (unfold input; cbn [stdin]; rewrite Hin; reflexivity).
        cbv zeta.
        erewrite bind_run by reflexivity.
        erewrite bind_run by reflexivity. reflexivity.
      - reflexivity. }
    assert (user_name (neo w1) user_id = Some (Some name)) as Hname1.
    { rewrite Hn. by apply user_name_merge_user. }
    destruct (Hknown w1 name Hname1) as (w2 & Hrun2 & Hrest).
    by exists name, w1, w2.
Qed.

(** ** A rating whose average is not obtained *)

(** When the average over the edges of a movie is null after the upsert,
    the upsert has matched nothing, and the movie has no edge at all. *)
Lemma no_average_no_edge (g : cgraph) (user_id movie_id : Z) (rating : dfloat) :
  recomputed g user_id movie_id rating = None →
  merge_rated g user_id movie_id rating = g
  ∧ ∀ e, e ∈ ratings g → e.1.2 ≠ movie_id.
Proof.
  unfold recomputed. cbn [run_avg_rating run_merge_rated graph_Neo4j].
  unfold avg_rating. intros Hmean.
  assert (List.filter (λ e, e.1.2 =? movie_id)
            (ratings (merge_rated g user_id movie_id rating)) = []) as Hnone.
  { destruct (List.filter _ _) as [|e l]; [done|].
    unfold mean in Hmean. cbn [map] in Hmean. by destruct (foldl _ _ _). }
  assert (merge_rated g user_id movie_id rating = g) as Hsame.
  { destruct (has_node (users g) user_id && has_node (movies g) movie_id) eqn:Hnodes.
    - apply andb_true_iff in Hnodes as [Hu Hm].
      pose proof (merge_rated_edge g user_id movie_id rating Hu Hm) as Hedge.
      assert ((user_id, movie_id, rating)
              ∈ List.filter (λ e, e.1.2 =? movie_id)
                  (ratings (merge_rated g user_id movie_id rating))) as Hin.
      { apply elem_of_filter. split; [done|]. simpl. apply Z.eqb_refl. }
      rewrite Hnone in Hin. by apply elem_of_nil in Hin.
    - unfold merge_rated. by rewrite Hnodes. }
  split; [done|]. rewrite Hsame in Hnone.
  intros e Hin Heq.
  assert (e ∈ List.filter (λ e, e.1.2 =? movie_id) (ratings g)) as Hfound.
  { apply elem_of_filter. split; [done|]. by apply Z.eqb_eq. }
  rewrite Hnone in Hfound. by apply elem_of_nil in Hfound.
Qed.

(** C3, as the code has it.  A rating is accepted; the movie id written
    by [str] reads back through [int].  With a driver that answers,
    [rate_movie_via] is [rate_movie].

    When the statement of step 2 is answered without an average (no
    record, or a null) and the user's rating key does not hold a string,
    the call completes: step 3 is skipped, the only write to Redis being
    the update of the user's rating hash; the last thing printed is that
    the average could not be recomputed; nothing is rolled back; and the
    user's hash and in-memory dict have the rating.  But the graph is
    then as it was before step 1 and has no edge to the movie: an
    average is null only when the upsert matched nothing, so no rating
    edge was written, and the cache holds a rating the graph has not.

    When the driver raises on the statement of step 2, the exception
    leaves [rate_movie]: step 1 has run and its result stays (for a user
    and a movie that exist the graph has the edge with the rating), but
    nothing is written to Redis, so the user's rating cache is not
    updated, and nothing is printed: the caller gets the exception and
    not the message. *)
Theorem rate_movie_when_average_fails (w : world) (user_id : Z)
    (recommendations : list rec) (user_ratings : gmap string pyfloat)
    (movie : rec) (rating : pyfloat) (movie_int : Z) :
  let movie_id := pretty (rec_movie_id movie) in
  let hash_key := ratings_hash_key user_id in
  submits recommendations w movie rating →
  py_int movie_id = Some movie_int →
  rate_movie_via answering user_id recommendations user_ratings
  = rate_movie user_id recommendations user_ratings
  ∧ (recomputed (neo w) user_id movie_int rating = None →
     (∀ s dl, live (cache w) hash_key ≠ Some (REntry (RString s) dl)) →
     ∃ recs' w' t h,
       rate_movie user_id recommendations user_ratings w
       = (Ok (recs', <[movie_id := rating]> user_ratings), w')
       ∧ cache_writes (trace w')
         = cache_writes (trace w) ++ [HSET hash_key {[movie_id := float_repr rating]}]
       ∧ keyspace (cache w') !! movie_key movie_id
         = keyspace (cache w) !! movie_key movie_id
       ∧ trace w' = t ++ [Printed ("Average rating could not be recomputed." +:+ nl)]
       ∧ neo_runs (trace w')
         = neo_runs (trace w)
           ++ [CyMergeRated user_id movie_int rating; CyAvgRating movie_int]
       ∧ neo w' = neo w
       ∧ (∀ e, e ∈ ratings (neo w') → e.1.2 ≠ movie_int)
       ∧ redis_hgetall (cache w') hash_key = Ok h
       ∧ h !! movie_id = Some (float_repr rating))
  ∧ (∀ e : pyexn,
       ∃ w',
         rate_movie_via (failing e) user_id recommendations user_ratings w
         = (Raise e, w')
         ∧ neo w' = merge_rated (neo w) user_id movie_int rating
         ∧ (has_node (users (neo w)) user_id = true →
            has_node (movies (neo w)) movie_int = true →
            (user_id, movie_int, rating) ∈ ratings (neo w'))
         ∧ neo_runs (trace w')
           = neo_runs (trace w)
             ++ [CyMergeRated user_id movie_int rating; CyAvgRating movie_int]
         ∧ cache w' = cache w
         ∧ cache_writes (trace w') = cache_writes (trace w)
         ∧ printed (trace w') = printed (trace w)).
Proof.
  intros movie_id hash_key Hsub Hint.
  split; [apply rate_movie_via_answering|]. split.
  - intros Havg Htype.
    destruct (rate_movie_run w user_id recommendations user_ratings movie rating
                movie_int Hsub Hint Htype)
      as (recs' & w' & h & t & Hrun & Hneo & Hruns & Hwrites & Htrace & Hall & Hlive
          & Hclock & Hkeys).
    rewrite Havg in Hwrites, Htrace, Hkeys. simpl in Hwrites.
    destruct (no_average_no_edge (neo w) user_id movie_int rating Havg)
      as [Hsame Hnone].
    cbn [run_merge_rated graph_Neo4j] in Hneo. rewrite Hsame in Hneo.
    exists recs', w', t, ({[movie_id := float_repr rating]} ∪ h).
    split; [done|]. split; [done|]. split.
    { apply Hkeys; [|by right]. apply movie_key_ne_hash_key. }
    split; [done|]. split; [done|]. split; [done|]. split.
    { by rewrite Hneo. }
    split.
    { unfold redis_hgetall. fold movie_id hash_key in Hlive. by rewrite Hlive. }
    apply lookup_union_Some_l, lookup_singleton_eq.
  - intros e.
    destruct (rate_movie_via_raises (failing e) w user_id recommendations user_ratings
                movie rating movie_int e Hsub Hint eq_refl)
      as (w' & Hrun & Hneo & Hruns & Hc & Hw & Hp).
    exists w'. split; [done|]. split; [done|]. split; [|done].
    intros Hu Hm. rewrite Hneo. by apply merge_rated_edge.
Qed.

(** A movie the graph no longer has, rated by Ann, and Star Wars rated
    by Ann while the driver fails on the average. *)
Lemma rate_movie_when_average_fails_witness :
  submits [lost_film] (typing ["1"; "3.5"] start) lost_film (DFin (7 # 2))
  ∧ py_int (pretty (rec_movie_id lost_film)) = Some 99
  ∧ recomputed (neo (typing ["1"; "3.5"] start)) 1 99 (DFin (7 # 2)) = None
  ∧ live (cache (typing ["1"; "3.5"] start)) (ratings_hash_key 1) = None
  ∧ (∃ recs' w' t h,
       rate_movie 1 [lost_film] ∅ (typing ["1"; "3.5"] start)
       = (Ok (recs', <[pretty (rec_movie_id lost_film) := DFin (7 # 2)]> ∅), w')
       ∧ trace w' = t ++ [Printed ("Average rating could not be recomputed." +:+ nl)]
       ∧ neo w' = neo start
       ∧ redis_hgetall (cache w') (ratings_hash_key 1) = Ok h
       ∧ h !! pretty (rec_movie_id lost_film) = Some (float_repr (DFin (7 # 2))))
  ∧ submits first_recs (typing ["1"; "4.5"] start) star_wars (DFin (9 # 2))
  ∧ py_int (pretty (rec_movie_id star_wars)) = Some 7
  ∧ ∃ w',
      rate_movie_via (failing Neo4jError) 1 first_recs ∅ (typing ["1"; "4.5"] start)
      = (Raise Neo4jError, w')
      ∧ (1, 7, DFin (9 # 2)) ∈ ratings (neo w')
      ∧ cache w' = cache start
      ∧ printed (trace w') = [].
Proof.
  assert (py_int (pretty (rec_movie_id lost_film)) = Some 99) as Hlost by evaluated.
  assert (py_int (pretty (rec_movie_id star_wars)) = Some 7) as Hstar by evaluated.
  assert (recomputed (neo (typing ["1"; "3.5"] start)) 1 99 (DFin (7 # 2)) = None)
    as Havg by evaluated.
  assert (live (cache (typing ["1"; "3.5"] start)) (ratings_hash_key 1) = None)
    as Hnone by evaluated.
  assert (has_node (users (neo (typing ["1"; "4.5"] start))) 1 = true) as Huser
    by evaluated.
  assert (has_node (movies (neo (typing ["1"; "4.5"] start))) 7 = true) as Hmovie
    by evaluated.
  split; [exact lost_film_submitted|]. split; [exact Hlost|]. split; [exact Havg|].
  split; [exact Hnone|]. split.
  - destruct (rate_movie_when_average_fails (typing ["1"; "3.5"] start) 1 [lost_film] ∅
                lost_film (DFin (7 # 2)) 99 lost_film_submitted Hlost)
      as (_ & Hnull & _).
    destruct (Hnull Havg) as (recs' & w' & t & h & Hrun & _ & _ & Htrace & _ & Hneo & _
                              & Hall & Hfield).
    { intros s dl. rewrite Hnone. discriminate. }
    exists recs', w', t, h. split; [exact Hrun|]. split; [exact Htrace|].
    split; [exact Hneo|]. split; [exact Hall|exact Hfield].
  - split; [exact star_wars_submitted|]. split; [exact Hstar|].
    destruct (rate_movie_when_average_fails (typing ["1"; "4.5"] start) 1 first_recs ∅
                star_wars (DFin (9 # 2)) 7 star_wars_submitted Hstar)
      as (_ & _ & Hfails).
    destruct (Hfails Neo4jError) as (w' & Hrun & _ & Hedge & _ & Hc & _ & Hp).
    exists w'. split; [exact Hrun|]. split; [exact (Hedge Huser Hmovie)|].
    split; [exact Hc|exact Hp].
Defined.

(** C3 as stated fails.  Ann rates Star Wars, which the graph has, and
    the driver raises on the average query, the failure the
    specification names.  Step 1's edge is in the graph; but [rate_movie]
    ends with the driver's exception, having printed nothing, so the
    caller is not told that the average could not be recomputed, and
    having written nothing to Redis, so her rating cache has no update to
    survive.  And where the query does answer without an average, for a
    movie the graph has lost, the caller is told and the cache is
    updated, but the graph has no rating edge: step 1 matched nothing. *)
Lemma rate_movie_read_failure_skips_message_and_cache :
  (rate_movie_via (failing Neo4jError) 1 first_recs ∅ (typing ["1"; "4.5"] start)).1
  = Raise Neo4jError
  ∧ ratings (neo (rate_movie_via (failing Neo4jError) 1 first_recs ∅
                    (typing ["1"; "4.5"] start)).2)
    = ratings catalog ++ [(1, 7, DFin (9 # 2))]
  ∧ printed (trace (rate_movie_via (failing Neo4jError) 1 first_recs ∅
                      (typing ["1"; "4.5"] start)).2) = []
  ∧ cache_writes (trace (rate_movie_via (failing Neo4jError) 1 first_recs ∅
                           (typing ["1"; "4.5"] start)).2) = []
  ∧ (get_cached_user_ratings 1
       (rate_movie_via (failing Neo4jError) 1 first_recs ∅
          (typing ["1"; "4.5"] start)).2).1 = Ok ∅
  ∧ recomputed (neo (typing ["1"; "3.5"] start)) 1 99 (DFin (7 # 2)) = None
  ∧ ratings (neo (rate_movie 1 [lost_film] ∅ (typing ["1"; "3.5"] start)).2)
    = ratings catalog
  ∧ (get_cached_user_ratings 1
       (rate_movie 1 [lost_film] ∅ (typing ["1"; "3.5"] start)).2).1
    = Ok {[ "99" := DFin (7 # 2) ]}.
Proof.
  split; [evaluated|]. split; [evaluated|]. split; [evaluated|]. split; [evaluated|].
  split; [evaluated|]. split; [evaluated|]. split; evaluated.
Qed.

Import Shelf Cases.

(** * The further properties at work *)

(** Ann's first request: Bob's entry has another key, and the hash of
    Star Wars is not touched. *)
Lemma get_recommendations_keeps_to_its_key_witness :
  get_recommendations_for_user 1 20 600 start = first_call
  ∧ recs_cache_key 2 20 ≠ recs_cache_key 1 20
  ∧ recs_cache_key 1 10 ≠ recs_cache_key 1 20
  ∧ keyspace (cache first_call.2) !! movie_key "7" = keyspace (cache start) !! movie_key "7".
Proof.
  assert (get_recommendations_for_user 1 20 600 start = first_call) as Hrun by evaluated.
  split; [exact Hrun|].
  destruct (get_recommendations_keeps_to_its_key start first_call.2 1 20 600 first_call.1)
    as (_ & _ & Hother & _ & Hmovie).
  { rewrite Hrun. apply surjective_pairing. }
  split; [|split].
  - apply (Hother 2 20). discriminate.
  - apply (Hother 1 10). discriminate.
  - apply Hmovie.
Defined.

(** A payload that is not JSON under Ann's key. *)
Lemma get_recommendations_replaces_corrupt_entry_witness :
  live (cache corrupt) (recs_cache_key 1 20) = Some (REntry (RString "oops") (Some 50))
  ∧ json_loads_recs "oops" = None
  ∧ ∃ w1,
      get_recommendations_for_user 1 20 600 corrupt = (Ok first_recs, w1)
      ∧ neo_runs (trace w1) = [CyTopK 1 20]
      ∧ live (cache w1) (recs_cache_key 1 20)
        = Some (REntry (RString (json_dumps_recs first_recs)) (Some 600)).
Proof.
  assert (live (cache corrupt) (recs_cache_key 1 20)
          = Some (REntry (RString "oops") (Some 50))) as Hlive by evaluated.
  assert (json_loads_recs "oops" = None) as Hbad by evaluated.
  assert (map (λ row, Rec row.1 row.2 None) (run_top_k (neo corrupt) 1 20) = first_recs)
    as Hrecs by evaluated.
  split; [exact Hlive|]. split; [exact Hbad|].
  pose proof (get_recommendations_replaces_corrupt_entry corrupt 1 20 600 "oops"
                (Some 50)) as Hthm.
  cbv zeta in Hthm. rewrite Hrecs in Hthm.
  destruct (Hthm Hlive Hbad) as (w1 & Hrun & _ & Hq & _ & Hnew); [lia|].
  exists w1. split; [exact Hrun|]. split; [exact Hq|exact Hnew].
Defined.

(** Ann asks again ten minutes later; Bob has rated in between, and the
    list she gets reflects it. *)
Lemma get_recommendations_expire_witness :
  live (cache start) (recs_cache_key 1 20) = None
  ∧ get_recommendations_for_user 1 20 600 start = (Ok first_recs, recs_cached)
  ∧ clock (cache start) + 600 ≤ clock (cache ten_minutes_later)
  ∧ ∃ w3,
      get_recommendations_for_user 1 20 600 ten_minutes_later = (Ok later_recs, w3)
      ∧ neo_runs (trace w3) = [CyTopK 1 20].
Proof.
  assert (live (cache start) (recs_cache_key 1 20) = None) as Hmiss by evaluated.
  assert (get_recommendations_for_user 1 20 600 start = (Ok first_recs, recs_cached))
    as Hrun by evaluated.
  assert (clock (cache start) + 600 ≤ clock (cache ten_minutes_later)) as Hlate
    by (cbn; lia).
  assert (map (λ row, Rec row.1 row.2 None) (run_top_k (neo ten_minutes_later) 1 20)
          = later_recs) as Hrecs by evaluated.
  split; [exact Hmiss|]. split; [exact Hrun|]. split; [exact Hlate|].
  pose proof (get_recommendations_expire start recs_cached ten_minutes_later 1 20 600
                first_recs) as Hthm.
  cbv zeta in Hthm. rewrite Hrecs in Hthm.
  destruct (Hthm Hmiss) as (w3 & Hrun3 & Hq & _); [lia|exact Hrun|reflexivity|exact Hlate|].
  exists w3. split; [exact Hrun3|exact Hq].
Defined.

(** Bob's list, in which Heat comes twice, loaded and read back. *)
Lemma cached_ratings_round_trip_witness :
  live (cache start) (ratings_hash_key 2) = None
  ∧ rating_mapping bob_rated = {[ "7" := DFin (9 # 2); "8" := DFin 3 ]}
  ∧ ∃ w1 w2 h,
      cache_user_rated_movies 2 bob_rated 3600 start = (Ok tt, w1)
      ∧ redis_hgetall (cache w1) (ratings_hash_key 2) = Ok h
      ∧ h !! "8" = Some "3.0"
      ∧ get_cached_user_ratings 2 w1 = (Ok (rating_mapping bob_rated), w2).
Proof.
  assert (live (cache start) (ratings_hash_key 2) = None) as Hfresh by evaluated.
  assert (rating_mapping bob_rated = {[ "7" := DFin (9 # 2); "8" := DFin 3 ]})
    as Hmap by evaluated.
  assert (float_repr <$> rating_mapping bob_rated !! "8" = Some "3.0") as Hfield
    by evaluated.
  split; [exact Hfresh|]. split; [exact Hmap|].
  destruct (cached_ratings_round_trip start 2 bob_rated Hfresh)
    as (w1 & w2 & h & Hload & Hall & Hfields & Hget & _).
  { intros m Hin. unfold bob_rated in Hin.
    repeat (apply elem_of_cons in Hin as [->|Hin]; [evaluated|]).
    by apply elem_of_nil in Hin. }
  exists w1, w2, h. split; [exact Hload|]. split; [exact Hall|].
  split; [by rewrite Hfields|exact Hget].
Defined.

(** Ann's cached ratings an hour after they were loaded. *)
Lemma cached_ratings_expire_witness :
  live (cache start) (ratings_hash_key 1) = None
  ∧ cache_user_rated_movies 1 ann_rated 3600 start = (Ok tt, ann_loaded)
  ∧ live (cache ann_loaded) (ratings_hash_key 1)
    = Some (REntry (RHash {[ "8" := "4.0" ]}) (Some 3600))
  ∧ live (cache ann_expired) (ratings_hash_key 1) = None
  ∧ live (cache ann_expired) (ratings_list_key 1) = None
  ∧ ∃ w3, get_cached_user_ratings 1 ann_expired = (Ok ∅, w3).
Proof.
  assert (live (cache start) (ratings_hash_key 1) = None) as Hfresh by evaluated.
  assert (cache_user_rated_movies 1 ann_rated 3600 start = (Ok tt, ann_loaded))
    as Hrun by evaluated.
  split; [exact Hfresh|]. split; [exact Hrun|]. split; [evaluated|].
  destruct (cached_ratings_expire start ann_loaded ann_expired 1 ann_rated)
    as (Hhash & Hlist & w3 & Hget & _).
  { intros s dl. rewrite Hfresh. discriminate. }
  { exact Hrun. }
  { reflexivity. }
  { reflexivity. }
  { cbn. lia. }
  split; [exact Hhash|]. split; [exact Hlist|]. by exists w3.
Defined.

(** Two lines that are not integers, then Bob's id with blanks around
    it. *)
Lemma prompt_for_user_id_retries_witness :
  Forall (λ line, py_int (str_strip line) = None) ["abc"; ""]
  ∧ py_int (str_strip " 2 ") = Some 2
  ∧ ∃ w',
      prompt_for_user_id (typing ["abc"; ""; " 2 "; "next"] start) = (Ok 2, w')
      ∧ stdin w' = ["next"]
      ∧ printed (trace w')
        = ["User ID must be an integer. Please try again." +:+ nl;
           "User ID must be an integer. Please try again." +:+ nl].
Proof.
  assert (Forall (λ line, py_int (str_strip line) = None) ["abc"; ""]) as Hbad.
  { repeat constructor; evaluated. }
  assert (py_int (str_strip " 2 ") = Some 2) as Hgood by evaluated.
  split; [exact Hbad|]. split; [exact Hgood|].
  destruct (prompt_for_user_id_retries (typing ["abc"; ""; " 2 "; "next"] start)
              ["abc"; ""] " 2 " ["next"] 2 eq_refl Hbad Hgood)
    as (w' & Hrun & Hin & _ & _ & Hprinted & _).
  exists w'. split; [exact Hrun|]. split; [exact Hin|exact Hprinted].
Defined.

(** A console that ends after two lines that are not integers. *)
Lemma prompt_for_user_id_end_of_input_witness :
  Forall (λ line, py_int (str_strip line) = None) (stdin (typing ["abc"; "1.5"] start))
  ∧ ∃ w',
      prompt_for_user_id (typing ["abc"; "1.5"] start) = (Raise EOFError, w')
      ∧ stdin w' = [].
Proof.
  assert (Forall (λ line, py_int (str_strip line) = None)
                 (stdin (typing ["abc"; "1.5"] start))) as Hbad.
  { cbn [stdin typing]. repeat constructor; evaluated. }
  split; [exact Hbad|].
  destruct (prompt_for_user_id_end_of_input (typing ["abc"; "1.5"] start) Hbad)
    as (w' & Hrun & Hin & _).
  exists w'. split; [exact Hrun|exact Hin].
Defined.

(** User 3 has no name and types a blank line. *)
Lemma get_or_create_user_names_witness :
  stdin (typing ["  "] start) = ["  "]
  ∧ run_user_name (neo (typing ["  "] start)) 3 = Some None
  ∧ ∃ w',
      get_or_create_user 3 (typing ["  "] start) = (Ok "User3", w')
      ∧ stdin w' = []
      ∧ neo w' = run_set_name catalog 3 "User3".
Proof.
  assert (run_user_name (neo (typing ["  "] start)) 3 = Some None) as Hname by evaluated.
  assert ((if str_truthy (str_strip "  ") then str_strip "  "
           else "User" +:+ pretty 3) = "User3") as Htyped by evaluated.
  split; [reflexivity|]. split; [exact Hname|].
  pose proof (get_or_create_user_names (typing ["  "] start) 3 "  " [] eq_refl) as Hthm.
  cbv zeta in Hthm. rewrite Hname, Htyped in Hthm.
  destruct Hthm as (_ & w' & _ & _ & Hrun & Hin & Hneo & _).
  exists w'. split; [exact Hrun|]. split; [exact Hin|exact Hneo].
Defined.

(** Ann logs in. *)
Lemma login_loads_the_graph_ratings_witness :
  py_int (str_strip "1") = Some 1
  ∧ run_user_name (neo (typing ["1"] start)) 1 = Some (Some "Ann")
  ∧ live (cache (typing ["1"] start)) (ratings_hash_key 1) = None
  ∧ ∃ w' h,
      run_user_application_login (typing ["1"] start)
      = (Ok (Session 1 (rating_mapping ann_rated) []), w')
      ∧ neo_runs (trace w') = [CyUserName 1; CyUserRated 1]
      ∧ redis_hgetall (cache w') (ratings_hash_key 1) = Ok h.
Proof.
  assert (py_int (str_strip "1") = Some 1) as Hint by evaluated.
  assert (run_user_name (neo (typing ["1"] start)) 1 = Some (Some "Ann")) as Hname
    by evaluated.
  assert (live (cache (typing ["1"] start)) (ratings_hash_key 1) = None) as Hfresh
    by evaluated.
  assert (map (λ record, Rated (pretty (row_movie_id record)) (row_title record)
                               (row_rating record))
              (run_user_rated (neo (typing ["1"] start)) 1) = ann_rated) as Hrated
    by evaluated.
  split; [exact Hint|]. split; [exact Hname|]. split; [exact Hfresh|].
  pose proof (login_loads_the_graph_ratings (typing ["1"] start) "1" [] 1 "Ann" eq_refl
                Hint Hname Hfresh) as Hthm.
  cbv zeta in Hthm. rewrite Hrated in Hthm.
  destruct Hthm as (w' & h & Hrun & _ & _ & Hq & Hall & _).
  { intros m Hin. unfold ann_rated in Hin.
    apply list_elem_of_singleton in Hin as ->. evaluated. }
  exists w', h. split; [exact Hrun|]. split; [exact Hq|exact Hall].
Defined.

(** Only blanks typed as the search term. *)
Lemma search_blank_term_witness :
  str_truthy (str_strip "   ") = false
  ∧ (∃ w',
       redis_fulltext_search_demo (typing ["   "; "5"] start) = (Ok tt, w')
       ∧ stdin w' = ["5"]
       ∧ redis_cmds (trace w') = [])
  ∧ (∃ w',
       search_movies_with_user_context 1 ∅ (typing ["   "; "5"] start) = (Ok tt, w')
       ∧ stdin w' = ["5"]
       ∧ redis_cmds (trace w') = []).
Proof.
  assert (str_truthy (str_strip "   ") = false) as Hblank by evaluated.
  split; [exact Hblank|].
  destruct (search_blank_term start 1 ∅ "   " ["5"] Hblank)
    as [(w1 & Hrun1 & Hin1 & _ & Hc1 & _) (w2 & Hrun2 & Hin2 & _ & Hc2 & _)].
  split; [exists w1|exists w2]; (split; [assumption|split; assumption]).
Defined.

(** Twenty-five results asked for, none, and something that is no
    number: ten each time; zero asked for: one. *)
Lemma fulltext_search_page_size_witness :
  str_truthy (str_strip "star") = true
  ∧ page_size "25" = 10 ∧ page_size "" = 10 ∧ page_size "many" = 10
  ∧ page_size "0" = 1 ∧ page_size " 3 " = 3
  ∧ ∃ o w',
      redis_fulltext_search_demo (typing ["star"; "25"] start) = (o, w')
      ∧ redis_cmds (trace w') = [FT_SEARCH "star" 0 10].
Proof.
  assert (str_truthy (str_strip "star") = true) as Htruthy by evaluated.
  assert (page_size "25" = 10) as Hsize by evaluated.
  assert (str_strip "star" = "star") as Hterm by evaluated.
  split; [exact Htruthy|]. split; [exact Hsize|].
  split; [evaluated|]. split; [evaluated|]. split; [evaluated|]. split; [evaluated|].
  pose proof (fulltext_search_page_size start "star" "25" [] Htruthy) as Hthm.
  cbv zeta in Hthm. rewrite Hsize, Hterm in Hthm.
  destruct Hthm as (o & w' & Hrun & _ & Hcmds).
  exists o, w'. split; [exact Hrun|exact Hcmds].
Defined.

Section Refused.

#[local] Existing Instance no_index | 0.

(** Both searches against an engine that has no index. *)
Lemma search_engine_error_is_caught_witness :
  str_truthy (str_strip "star") = true
  ∧ (∃ w',
       redis_fulltext_search_demo (typing ["star"; "5"] start) = (Ok tt, w')
       ∧ printed (trace w') = ["Error executing search: invalid request"])
  ∧ (∃ w',
       search_movies_with_user_context 1 ∅ (typing ["star"] start) = (Ok tt, w')
       ∧ printed (trace w') = ["Error executing search: invalid request"]).
Proof.
  assert (str_truthy (str_strip "star") = true) as Htruthy by evaluated.
  split; [exact Htruthy|].
  destruct (search_engine_error_is_caught start 1 ∅ "star" "5" [] Htruthy)
    as [Hdemo Hcontext].
  destruct (Hdemo eq_refl) as (w1 & Hrun1 & _ & Hp1).
  destruct (Hcontext eq_refl) as (w2 & Hrun2 & _ & Hp2).
  split; [exists w1|exists w2]; (split; [assumption|]).
  - exact Hp1.
  - exact Hp2.
Defined.

End Refused.

(** Ann's top five at the start. *)
Lemma display_top_5_first_five_unseen_witness :
  display_top_5_recommendations 1 (s_user_ratings ann) start = (Ok shown_recs, ann_shown)
  ∧ ∃ all_recs w1,
      get_recommendations_for_user 1 20 600 start = (Ok all_recs, w1)
      ∧ shown_recs
        = map (with_title (cache ann_shown)) (take 5 (unseen (s_user_ratings ann) all_recs))
      ∧ map rec_movie_id shown_recs `sublist_of` map rec_movie_id all_recs.
Proof.
  assert (display_top_5_recommendations 1 (s_user_ratings ann) start
          = (Ok shown_recs, ann_shown)) as Hrun by evaluated.
  split; [exact Hrun|].
  destruct (display_top_5_first_five_unseen start ann_shown 1 (s_user_ratings ann)
              shown_recs Hrun)
    as (all_recs & w1 & Hget & _ & Hshape & _ & Hsub & _).
  exists all_recs, w1. split; [exact Hget|]. split; [exact Hshape|exact Hsub].
Defined.

(** The same call: what it sent to Redis. *)
Lemma display_top_5_footprint_witness :
  display_top_5_recommendations 1 (s_user_ratings ann) start = (Ok shown_recs, ann_shown)
  ∧ redis_cmds (trace ann_shown)
    = [GET "recs:user:1:k:20";
       SETEX "recs:user:1:k:20" 600 (json_dumps_recs first_recs);
       HGET "movie:7" "title"; HGET "movie:9" "title"]
  ∧ ∃ cs,
      redis_cmds (trace ann_shown) = redis_cmds (trace start) ++ cs
      ∧ Forall (display_command 1) cs.
Proof.
  assert (display_top_5_recommendations 1 (s_user_ratings ann) start
          = (Ok shown_recs, ann_shown)) as Hrun by evaluated.
  split; [exact Hrun|]. split; [evaluated|].
  destruct (display_top_5_footprint start ann_shown 1 (s_user_ratings ann)
              (Ok shown_recs) Hrun)
    as (_ & _ & Hcmds & _).
  exact Hcmds.
Defined.

(** Nine is typed where one or two was expected; the line after it is
    left on the console. *)
Lemma rate_movie_cancelled_at_choice_witness :
  py_int (str_strip "9") = Some 9
  ∧ ∃ message w',
      rate_movie 1 shown_recs ∅ (typing ["9"; "4.5"] start) = (Ok (shown_recs, ∅), w')
      ∧ cache w' = cache start
      ∧ redis_cmds (trace w') = []
      ∧ printed (trace w') = [message]
      ∧ stdin w' = ["4.5"].
Proof.
  assert (py_int (str_strip "9") = Some 9) as Hint by evaluated.
  split; [exact Hint|].
  destruct (rate_movie_cancelled_at_choice (typing ["9"; "4.5"] start) 1 shown_recs ∅)
    as (message & w' & Hrun & Hc & _ & Hcmds & _ & Hprinted & Hin).
  { right. exists "9", ["4.5"]. split; [reflexivity|].
    right. right. exists 9. split; [exact Hint|]. right. cbn. lia. }
  exists message, w'. split; [exact Hrun|]. split; [exact Hc|].
  split; [exact Hcmds|]. split; [exact Hprinted|exact Hin].
Defined.

(** Ann rates Star Wars 4.5: the average of the three ratings goes into
    the movie hash, next to the title. *)
Lemma rate_movie_updates_average_field_witness :
  submits first_recs (typing ["1"; "4.5"] start) star_wars (DFin (9 # 2))
  ∧ py_int (pretty (rec_movie_id star_wars)) = Some 7
  ∧ recomputed (neo (typing ["1"; "4.5"] start)) 1 7 (DFin (9 # 2)) = Some (DFin (13 # 3))
  ∧ float_repr (DFin (13 # 3)) = "4.33333333333333333"
  ∧ ∃ recs' w' before after,
      rate_movie 1 first_recs ∅ (typing ["1"; "4.5"] start)
      = (Ok (recs', <[pretty (rec_movie_id star_wars) := DFin (9 # 2)]> ∅), w')
      ∧ redis_hgetall (cache w') (movie_key (pretty (rec_movie_id star_wars))) = Ok after
      ∧ after !! "avg_rating" = Some (float_repr (DFin (13 # 3)))
      ∧ redis_hgetall (cache (typing ["1"; "4.5"] start))
          (movie_key (pretty (rec_movie_id star_wars))) = Ok before
      ∧ after !! "title" = before !! "title".
Proof.
  assert (py_int (pretty (rec_movie_id star_wars)) = Some 7) as Hint by evaluated.
  assert (live (cache (typing ["1"; "4.5"] start)) (ratings_hash_key 1) = None)
    as Hnone by evaluated.
  assert (live (cache (typing ["1"; "4.5"] start))
               (movie_key (pretty (rec_movie_id star_wars)))
          = Some (movie_hash "7" "Star Wars" "Action | Sci-Fi" "1977")) as Hmovie
    by evaluated.
  assert (recomputed (neo (typing ["1"; "4.5"] start)) 1 7 (DFin (9 # 2))
          = Some (DFin (13 # 3))) as Havg by evaluated.
  split; [exact star_wars_submitted|]. split; [exact Hint|]. split; [exact Havg|].
  split; [evaluated|].
  destruct (rate_movie_updates_average_field (typing ["1"; "4.5"] start) 1 first_recs ∅
              star_wars (DFin (9 # 2)) 7 (DFin (13 # 3)) star_wars_submitted Hint)
    as (recs' & w' & before & after & title & Hrun & Hbefore & Hafter & Hfield
        & Hother & _).
  { intros s dl. rewrite Hnone. discriminate. }
  { intros s dl. rewrite Hmovie. discriminate. }
  { exact Havg. }
  exists recs', w', before, after.
  split; [exact Hrun|]. split; [exact Hafter|]. split; [exact Hfield|].
  split; [exact Hbefore|]. apply Hother. discriminate.
Defined.

(** The console input ["1"], ["4.5"] against the first recommendation,
    the key of Star Wars holding a string. *)
Lemma star_wars_submitted_clobbered :
  submits first_recs clobbered star_wars (DFin (9 # 2)).
Proof.
  exists "1", "4.5", [], 1.
  split; [reflexivity|]. split; [evaluated|]. split; [evaluated|].
  split; [unfold first_recs; cbn [length]; lia|]. split; [reflexivity|].
  split; [evaluated|]. split; evaluated.
Defined.

(** Ann rates Star Wars while its key holds a string. *)
Lemma rate_movie_survives_movie_key_error_witness :
  submits first_recs clobbered star_wars (DFin (9 # 2))
  ∧ live (cache clobbered) (movie_key (pretty (rec_movie_id star_wars)))
    = Some (REntry (RString "Star Wars") None)
  ∧ recomputed (neo clobbered) 1 7 (DFin (9 # 2)) = Some (DFin (13 # 3))
  ∧ ∃ recs' w' h,
      rate_movie 1 first_recs ∅ clobbered
      = (Ok (recs', <[pretty (rec_movie_id star_wars) := DFin (9 # 2)]> ∅), w')
      ∧ live (cache w') (movie_key (pretty (rec_movie_id star_wars)))
        = Some (REntry (RString "Star Wars") None)
      ∧ redis_hgetall (cache w') (ratings_hash_key 1) = Ok h
      ∧ h !! pretty (rec_movie_id star_wars) = Some (float_repr (DFin (9 # 2))).
Proof.
  assert (py_int (pretty (rec_movie_id star_wars)) = Some 7) as Hint by evaluated.
  assert (live (cache clobbered) (ratings_hash_key 1) = None) as Hnone by evaluated.
  assert (live (cache clobbered) (movie_key (pretty (rec_movie_id star_wars)))
          = Some (REntry (RString "Star Wars") None)) as Hmovie by evaluated.
  assert (recomputed (neo clobbered) 1 7 (DFin (9 # 2)) = Some (DFin (13 # 3)))
    as Havg by evaluated.
  split; [exact star_wars_submitted_clobbered|]. split; [exact Hmovie|].
  split; [exact Havg|].
  destruct (rate_movie_survives_movie_key_error clobbered 1 first_recs ∅ star_wars
              (DFin (9 # 2)) 7 (DFin (13 # 3)) "Star Wars" None
              star_wars_submitted_clobbered Hint)
    as (recs' & w' & h & title & Hrun & Hkept & Hall & Hfield & _).
  { intros s dl. rewrite Hnone. discriminate. }
  { exact Hmovie. }
  { exact Havg. }
  exists recs', w', h.
  split; [exact Hrun|]. split; [exact Hkept|]. split; [exact Hall|exact Hfield].
Defined.

(** Ann's session after her log-in knows her cached ratings, and still
    does an hour later, when they have expired. *)
Lemma session_knows_cached_ratings_witness :
  run_user_application_login (typing ["1"] start) = ann_login
  ∧ ann_login.1 = Ok ann
  ∧ cache_within_memory ann ann_login.2
  ∧ cache_within_memory ann (later 3600 ann_login.2).
Proof.
  assert (run_user_application_login (typing ["1"] start) = ann_login) as Hrun
    by evaluated.
  assert (ann_login.1 = Ok ann) as Hann by evaluated.
  destruct session_knows_cached_ratings as (Hlogin & _ & Hlater).
  assert (cache_within_memory ann ann_login.2) as Hknows.
  { apply (Hlogin (typing ["1"] start)). rewrite Hrun, <- Hann.
    apply surjective_pairing. }
  split; [exact Hrun|]. split; [exact Hann|]. split; [exact Hknows|].
  apply Hlater; [exact Hknows|lia].
Defined.

(** Ann, just logged in, asks for her top five: Heat, which her cached
    ratings have, is not among them. *)
Lemma display_top_5_skips_cached_ratings_witness :
  cache_within_memory ann ann_ready
  ∧ ∃ recs w' h,
      display_top_5_recommendations (s_user_id ann) (s_user_ratings ann) ann_ready
      = (Ok recs, w')
      ∧ redis_hgetall (cache w') (ratings_hash_key (s_user_id ann)) = Ok h
      ∧ h !! "8" = Some "4.0"
      ∧ ∀ rec, rec ∈ recs → h !! pretty (rec_movie_id rec) = None.
Proof.
  assert (redis_hgetall (cache ann_ready) (ratings_hash_key (s_user_id ann))
          = Ok {[ "8" := "4.0" ]}) as Hall by evaluated.
  assert (s_user_ratings ann !! "8" = Some (DFin 4)) as Hmem by evaluated.
  assert (cache_within_memory ann ann_ready) as Hknows.
  { exists {[ "8" := "4.0" ]}. split; [exact Hall|].
    intros movie_id [v Hv]. apply lookup_singleton_Some in Hv as [<- _].
    exact (mk_is_Some _ _ Hmem). }
  assert ((display_top_5_recommendations (s_user_id ann) (s_user_ratings ann)
             ann_ready).1 = Ok shown_recs) as Hshown by evaluated.
  split; [exact Hknows|].
  destruct (display_top_5_skips_cached_ratings ann_ready
              (display_top_5_recommendations (s_user_id ann) (s_user_ratings ann)
                 ann_ready).2
              ann shown_recs Hknows)
    as (h & Hbefore & Hafter & Hskip).
  { rewrite <- Hshown. apply surjective_pairing. }
  rewrite Hall in Hbefore. injection Hbefore as <-.
  eexists shown_recs, _, _. split.
  { rewrite <- Hshown. apply surjective_pairing. }
  split; [exact Hafter|]. split; [reflexivity|exact Hskip].
Defined.

(** Ann, who has not asked for recommendations yet, types something, then
    3, then 0. *)
Lemma menu_loop_ends_on_zero_witness :
  Forall (λ line, idle_choice ann line = true) ["x"; "3"]
  ∧ str_strip " 0 " = "0"
  ∧ ∃ w',
      run_user_application_loop 5 ann (typing ["x"; "3"; " 0 "; "5"] ann_ready)
      = (Ok tt, w')
      ∧ stdin w' = ["5"]
      ∧ cache w' = cache ann_ready.
Proof.
  assert (Forall (λ line, idle_choice ann line = true) ["x"; "3"]) as Hidle.
  { repeat constructor; evaluated. }
  assert (str_strip " 0 " = "0") as Hzero by evaluated.
  split; [exact Hidle|]. split; [exact Hzero|].
  destruct (menu_loop_ends_on_zero (typing ["x"; "3"; " 0 "; "5"] ann_ready) ann
              ["x"; "3"] " 0 " ["5"] eq_refl Hidle Hzero)
    as (w' & Hrun & Hin & Hc & _).
  exists w'. split; [exact Hrun|]. split; [exact Hin|exact Hc].
Defined.



Lemma scan_fits_spec (w : world) :
  scan_fits w = true →
  ∀ record s dl, record ∈ run_all_movies (neo w) →
    live (cache w) (movie_row_key record) ≠ Some (REntry (RString s) dl).
Proof.
  intros Hfits record s dl Hin Hlive. unfold scan_fits in Hfits.
  rewrite forallb_forall in Hfits. apply list_elem_of_In in Hin.
  specialize (Hfits record Hin). by rewrite Hlive in Hfits.
Qed.

Lemma scanned_keys_differ : NoDup ["movie:7"; "movie:8"; "movie:9"].
Proof.
  repeat (apply NoDup_cons; split;
          [intros Hin; repeat (apply elem_of_cons in Hin as [Hin|Hin]; [discriminate Hin|]);
           by apply elem_of_nil in Hin|]).
  apply NoDup_nil_2.
Qed.

(** Loading the catalogue into a Redis that holds nothing gives the
    Redis the scenarios start from. *)
Lemma load_movies_writes_every_movie_witness :
  scan_fits bare = true
  ∧ map movie_row_key (run_all_movies (neo bare)) = ["movie:7"; "movie:8"; "movie:9"]
  ∧ cache (load_movies_from_neo4j_into_redis bare).2 = loaded
  ∧ ∃ w',
      load_movies_from_neo4j_into_redis bare = (Ok tt, w')
      ∧ printed (trace w')
        = ["Loading movies from Neo4j into Redis...";
           "Loaded 3 movie hashes into Redis."]
      ∧ ∃ h, redis_hgetall (cache w') (movie_row_key troopers_row) = Ok h
             ∧ h !! "genres" = Some "Action | Sci-Fi"
             ∧ h !! "year" = Some "1997".
Proof.
  assert (scan_fits bare = true) as Hfits by evaluated.
  assert (map movie_row_key (run_all_movies (neo bare))
          = ["movie:7"; "movie:8"; "movie:9"]) as Hkeys by evaluated.
  assert (troopers_row ∈ run_all_movies (neo bare)) as Hin.
  { assert (run_all_movies (neo bare) = [star_wars_row; heat_row; troopers_row]) as ->
      by evaluated.
    do 2 apply list_elem_of_further. apply list_elem_of_here. }
  split; [exact Hfits|]. split; [exact Hkeys|]. split; [evaluated|].
  destruct (load_movies_writes_every_movie bare (scan_fits_spec bare Hfits))
    as (w' & Hrun & _ & Hprinted & Hrows).
  { rewrite Hkeys. exact scanned_keys_differ. }
  destruct (Hrows troopers_row Hin) as (h & Hall & _ & _ & Hgenres & Hyear).
  exists w'. split; [exact Hrun|]. split.
  { rewrite Hprinted. evaluated. }
  exists h. split; [exact Hall|]. split.
  - rewrite Hgenres. evaluated.
  - rewrite Hyear. evaluated.
Defined.

(** Reloading the catalogue after Ann's rating of Star Wars: the average
    stays in the movie hash and her cached ratings stay as they are. *)
Lemma load_movies_keeps_the_rest_witness :
  scan_fits stale = true
  ∧ ∃ w' before after,
      load_movies_from_neo4j_into_redis stale = (Ok tt, w')
      ∧ redis_hgetall (cache stale) (movie_row_key star_wars_row) = Ok before
      ∧ before !! "avg_rating" = Some "4.33333333333333333"
      ∧ redis_hgetall (cache w') (movie_row_key star_wars_row) = Ok after
      ∧ after !! "avg_rating" = before !! "avg_rating"
      ∧ keyspace (cache w') !! ratings_hash_key 1
        = keyspace (cache stale) !! ratings_hash_key 1.
Proof.
  assert (scan_fits stale = true) as Hfits by evaluated.
  assert (map movie_row_key (run_all_movies (neo stale))
          = ["movie:7"; "movie:8"; "movie:9"]) as Hkeys by evaluated.
  assert (star_wars_row ∈ run_all_movies (neo stale)) as Hin.
  { assert (run_all_movies (neo stale) = [star_wars_row; heat_row; troopers_row]) as ->
      by evaluated.
    apply list_elem_of_here. }
  assert (∀ before, redis_hgetall (cache stale) (movie_row_key star_wars_row) = Ok before →
                    before !! "avg_rating" = Some "4.33333333333333333") as Havg.
  { intros before Hbefore.
    assert (redis_hgetall (cache stale) (movie_row_key star_wars_row)
            = Ok {[ "avg_rating" := "4.33333333333333333"; "genres" := "Action | Sci-Fi";
                    "movie_id" := "7"; "title" := "Star Wars"; "year" := "1977" ]})
      as Hvalue by evaluated.
    rewrite Hvalue in Hbefore. injection Hbefore as <-. evaluated. }
  split; [exact Hfits|].
  destruct (load_movies_keeps_the_rest stale (scan_fits_spec stale Hfits))
    as (w' & Hrun & _ & _ & Hrows & _ & Husers).
  { rewrite Hkeys. exact scanned_keys_differ. }
  destruct (Hrows star_wars_row Hin) as (before & after & e & Hbefore & Hafter & Hother & _).
  exists w', before, after. split; [exact Hrun|]. split; [exact Hbefore|].
  split; [exact (Havg before Hbefore)|]. split; [exact Hafter|]. split.
  - apply Hother. intros Hfield.
    repeat (apply elem_of_cons in Hfield as [Hfield|Hfield]; [discriminate Hfield|]).
    by apply elem_of_nil in Hfield.
  - exact (proj1 (Husers 1 20)).
Defined.

(** The key of Heat holds a string: Star Wars is loaded, Heat is refused
    and Starship Troopers is never tried. *)
Lemma load_movies_stops_at_a_string_key_witness :
  run_all_movies (neo heat_clobbered) = [star_wars_row] ++ heat_row :: [troopers_row]
  ∧ live (cache heat_clobbered) (movie_row_key heat_row)
    = Some (REntry (RString "Heat") None)
  ∧ ∃ w',
      load_movies_from_neo4j_into_redis heat_clobbered = (Raise WrongType, w')
      ∧ printed (trace w') = ["Loading movies from Neo4j into Redis..."]
      ∧ (∃ h, redis_hgetall (cache w') (movie_row_key star_wars_row) = Ok h
              ∧ h !! "movie_id" = Some "7")
      ∧ keyspace (cache w') !! movie_row_key troopers_row = None.
Proof.
  assert (run_all_movies (neo heat_clobbered)
          = [star_wars_row] ++ heat_row :: [troopers_row]) as Hscan by evaluated.
  assert (live (cache heat_clobbered) (movie_row_key heat_row)
          = Some (REntry (RString "Heat") None)) as Hstring by evaluated.
  assert (live (cache heat_clobbered) (movie_row_key star_wars_row) = None) as Hfree
    by evaluated.
  assert (map movie_row_key ([star_wars_row] ++ [heat_row]) = ["movie:7"; "movie:8"])
    as Hkeys by evaluated.
  assert (movie_row_key troopers_row ∉ map movie_row_key [star_wars_row]) as Hnot.
  { assert (map movie_row_key [star_wars_row] = ["movie:7"]) as -> by evaluated.
    assert (movie_row_key troopers_row = "movie:9") as -> by evaluated.
    intros Hin. apply list_elem_of_singleton in Hin. discriminate Hin. }
  split; [exact Hscan|]. split; [exact Hstring|].
  destruct (load_movies_stops_at_a_string_key heat_clobbered [star_wars_row]
              [troopers_row] heat_row "Heat" None Hscan)
    as (w' & Hrun & _ & Hprinted & Hloaded & Hkept).
  { intros loaded s dl Hin. apply list_elem_of_singleton in Hin as ->.
    rewrite Hfree. discriminate. }
  { rewrite Hkeys. eapply sublist_NoDup; [exact scanned_keys_differ|].
    do 2 apply sublist_skip. apply sublist_nil_l. }
  { exact Hstring. }
  destruct (Hloaded star_wars_row) as (h & Hall & Hid); [apply list_elem_of_here|].
  exists w'. split; [exact Hrun|]. split; [exact Hprinted|]. split.
  - exists h. split; [exact Hall|]. rewrite Hid. evaluated.
  - rewrite (Hkept _ Hnot). evaluated.
Defined.

(** Ann has rated Star Wars: the query no longer returns it for her. *)
Lemma rated_movie_leaves_the_query_witness :
  has_node (users catalog) 1 = true
  ∧ has_node (movies catalog) 7 = true
  ∧ map fst (top_k catalog 1 20) = [7; 9]
  ∧ map fst (top_k (merge_rated catalog 1 7 (DFin (9 # 2))) 1 20) = [9]
  ∧ ∀ row, row ∈ top_k (merge_rated catalog 1 7 (DFin (9 # 2))) 1 20 → row.1 ≠ 7.
Proof.
  assert (has_node (users catalog) 1 = true) as Huser by evaluated.
  assert (has_node (movies catalog) 7 = true) as Hmovie by evaluated.
  split; [exact Huser|]. split; [exact Hmovie|].
  split; [evaluated|]. split; [evaluated|].
  exact (rated_movie_leaves_the_query catalog 1 7 20 (DFin (9 # 2)) Huser Hmovie).
Defined.

(** User 3, who has no name, gives one; asked again, the program knows
    it. *)
Lemma get_or_create_user_settles_witness :
  (get_or_create_user 3 (typing [" Cy "; "x"] start)).1 = Ok "Cy"
  ∧ ∃ name w1 w2,
      get_or_create_user 3 (typing [" Cy "; "x"] start) = (Ok name, w1)
      ∧ user_name (neo w1) 3 = Some (Some name)
      ∧ get_or_create_user 3 w1 = (Ok name, w2)
      ∧ stdin w2 = stdin w1.
Proof.
  split; [evaluated|].
  destruct (get_or_create_user_settles (typing [" Cy "; "x"] start) 3 " Cy " ["x"] eq_refl)
    as (name & w1 & w2 & Hrun & Hname & Hagain & Hin & _).
  exists name, w1, w2. split; [exact Hrun|]. split; [exact Hname|].
  split; [exact Hagain|exact Hin].
Defined.
